(** * Client-side script of the portfolio page (src/script.js)

    A shallow embedding of the page script: the DOM it queries and mutates,
    the browser state it touches (session history, scroll position, event
    listeners, timers, promise reactions), its module-level variables, and
    the functions of the script themselves, written in a state-and-exception
    monad that follows the JavaScript statement by statement. *)

From Stdlib Require Import ZArith String Ascii List Bool Lia.
From stdpp Require Import base decidable option list sets strings.
Import ListNotations.
Local Open Scope Z_scope.
Local Open Scope string_scope.
Local Open Scope list_scope.

(** ** The DOM *)

(** A node is an object identity; two references denote the same element
    exactly when they carry the same number. *)
Definition node := nat.

(** The properties of an element that the script reads or writes. *)
Record element := Element {
  tagName : string;
  el_id : string;
  classList : list string;
  style_opacity : string;
  style_pointerEvents : string;
  style_transform : string;
  data_img : option string;
  src : string
}.

Definition with_classList (f : list string → list string) (e : element) : element :=
  {| tagName := tagName e; el_id := el_id e; classList := f (classList e);
     style_opacity := style_opacity e; style_pointerEvents := style_pointerEvents e;
     style_transform := style_transform e; data_img := data_img e; src := src e |}.

Definition with_opacity (v : string) (e : element) : element :=
  {| tagName := tagName e; el_id := el_id e; classList := classList e;
     style_opacity := v; style_pointerEvents := style_pointerEvents e;
     style_transform := style_transform e; data_img := data_img e; src := src e |}.

Definition with_pointerEvents (v : string) (e : element) : element :=
  {| tagName := tagName e; el_id := el_id e; classList := classList e;
     style_opacity := style_opacity e; style_pointerEvents := v;
     style_transform := style_transform e; data_img := data_img e; src := src e |}.

Definition with_transform (v : string) (e : element) : element :=
  {| tagName := tagName e; el_id := el_id e; classList := classList e;
     style_opacity := style_opacity e; style_pointerEvents := style_pointerEvents e;
     style_transform := v; data_img := data_img e; src := src e |}.

Definition with_src (v : string) (e : element) : element :=
  {| tagName := tagName e; el_id := el_id e; classList := classList e;
     style_opacity := style_opacity e; style_pointerEvents := style_pointerEvents e;
     style_transform := style_transform e; data_img := data_img e; src := v |}.

(** [DOMTokenList.add] and [DOMTokenList.remove]: the class list is a set
    kept in insertion order. *)
Definition token_add (c : string) (l : list string) : list string :=
  if bool_decide (c ∈ l) then l else l ++ [c].

Definition token_remove (c : string) (l : list string) : list string :=
  filter (λ x, x ≠ c) l.

Definition has_class (c : string) (e : element) : bool := bool_decide (c ∈ classList e).

(** An element tree.  Every element carries its identity and its data. *)
Unset Elimination Schemes.
Inductive dom_tree := Elem (n : node) (e : element) (kids : list dom_tree).
Set Elimination Schemes.
Arguments Elem n%_nat e kids.

Definition root_node (t : dom_tree) : node := match t with Elem n _ _ => n end.
Definition root_element (t : dom_tree) : element := match t with Elem _ e _ => e end.
Definition children (t : dom_tree) : list dom_tree := match t with Elem _ _ k => k end.

(** Elements in document (pre-)order. *)
Fixpoint flat (t : dom_tree) : list (node * element) :=
  match t with Elem n e kids => (n, e) :: flat_map flat kids end.

(** Apply [f] to the data of node [n]. *)
Fixpoint update (n : node) (f : element → element) (t : dom_tree) : dom_tree :=
  match t with
  | Elem m e kids => Elem m (if decide (m = n) then f e else e) (map (update n f) kids)
  end.

(** The subtree rooted at the first occurrence of [n]. *)
Fixpoint subtree (n : node) (t : dom_tree) : option dom_tree :=
  match t with
  | Elem m e kids =>
      if decide (m = n) then Some t
      else (fix first (ks : list dom_tree) : option dom_tree :=
              match ks with
              | [] => None
              | k :: ks' => match subtree n k with Some u => Some u | None => first ks' end
              end) kids
  end.

(** The parent of the first occurrence of [n] strictly below the root. *)
Fixpoint parent_in (n : node) (t : dom_tree) : option node :=
  match t with
  | Elem m e kids =>
      (fix first (ks : list dom_tree) : option node :=
         match ks with
         | [] => None
         | k :: ks' =>
             if decide (root_node k = n) then Some m
             else match parent_in n k with Some p => Some p | None => first ks' end
         end) kids
  end.

(** Replace the subtree at the first occurrence of [old] by [new];
    [None] when [old] does not occur. *)
Fixpoint replace_subtree (old : node) (new : dom_tree) (t : dom_tree) : option dom_tree :=
  match t with
  | Elem m e kids =>
      if decide (m = old) then Some new
      else
        match (fix first (ks : list dom_tree) : option (list dom_tree) :=
                 match ks with
                 | [] => None
                 | k :: ks' =>
                     match replace_subtree old new k with
                     | Some k' => Some (k' :: ks')
                     | None => match first ks' with
                               | Some r => Some (k :: r)
                               | None => None
                               end
                     end
                 end) kids with
        | Some kids' => Some (Elem m e kids')
        | None => None
        end
  end.

(** A deep copy whose nodes are new objects: node [m] is copied to [off + m]. *)
Fixpoint clone_tree (off : nat) (t : dom_tree) : dom_tree :=
  match t with Elem m e kids => Elem (off + m)%nat e (map (clone_tree off) kids) end.

(** *** Selectors *)

Inductive selector :=
| SelClass (c : string)                 (* .c *)
| SelId (i : string)                    (* #i *)
| SelTag (t : string)                   (* t *)
| SelDescendant (a b : selector)        (* a b *)
| SelList (a b : selector).             (* a, b *)

(** [anc] lists the ancestors of the element, nearest first. *)
Fixpoint matches (sel : selector) (anc : list element) (e : element) : bool :=
  match sel with
  | SelClass c => has_class c e
  | SelId i => bool_decide (el_id e = i)
  | SelTag t => bool_decide (tagName e = t)
  | SelDescendant a b =>
      matches b anc e &&
      (fix up (l : list element) : bool :=
         match l with
         | [] => false
         | p :: l' => matches a l' p || up l'
         end) anc
  | SelList a b => matches a anc e || matches b anc e
  end.

Fixpoint select (sel : selector) (anc : list element) (t : dom_tree) : list node :=
  match t with
  | Elem n e kids =>
      (if matches sel anc e then [n] else []) ++ flat_map (select sel (e :: anc)) kids
  end.

Definition find_id (i : string) (t : dom_tree) : option node :=
  fst <$> head (filter (λ p, el_id p.2 = i) (flat t)).

(** ** Browser and script state *)

(** What the script hands to the animation engine: a selector string, a
    list of elements, or a reference that may be [null]. *)
Inductive targets :=
| BySelector (s : string)
| ByNodes (l : list node)
| ByRef (o : option node).

(** An event target. *)
Inductive target := Window | Node (n : node).
Arguments Node n%_nat.

#[global] Instance target_eq_dec : EqDecision target.
Proof. solve_decision. Defined.

(** Calls with an effect outside the script, in program order. *)
Inductive call :=
| ClassAdd (n : node) (c : string)
| ClassRemove (n : node) (c : string)
| StyleSet (n : node) (prop value : string)
| SrcSet (n : node) (value : string)
| ReplaceChild (new old : node)
| ReplaceState (url : string)
| ScrollTo (x y : Z)
| GsapRegisterPlugin
| GsapSet (t : targets)
| GsapTo (t : targets)
| GsapFrom (t : targets)
| GsapKillTweensOf (t : targets)
| GsapTimeline (name : string)
| TimelineTo (name : string) (t : targets)
| TimelinePlay (name : string)
| TimelineReverse (name : string)
| ScrollTriggerRefresh
| EmailInit (key : string)
| EmailSendForm (service template : string) (form : target)
| FormReset (form : target)
| PreventDefault
| EnterAnimateBadge.

(** What the closures created by one run of [initProjectsSlider] share. *)
Record slider_env := SliderEnv {
  slides : list node;
  track : node;
  newPrevBtn : node;
  newNextBtn : node;
  drag : nat                 (* the cell holding [startX] and [isDragging] *)
}.

(** The function values the script registers as event listeners. *)
Inductive closure :=
| preloader_load                                           (* line 73 *)
| on_DOMContentLoaded                                      (* line 184 *)
| hero_mousemove (heroGraphic : option node) (heroText : list node)   (* line 213 *)
| interactive_mouseenter (el : node)                       (* line 264 *)
| interactive_mouseleave (el : node)                       (* line 279 *)
| interactive_mousemove (el : node)                        (* line 296 *)
| window_scroll (navbar : option node)                     (* line 396 *)
| preview_mouseenter (item previewContainer previewImg : node)  (* line 567 *)
| preview_mouseleave (previewContainer : node)             (* line 575 *)
| menuTrigger_click                                        (* line 608 *)
| contact_submit                                           (* line 629 *)
| slider_next (env : slider_env)                           (* line 735 *)
| slider_prev (env : slider_env)                           (* line 742 *)
| slider_touchstart (env : slider_env)                     (* line 753 *)
| slider_touchend (env : slider_env)                       (* line 758 *)
| slider_resize (env : slider_env)                         (* line 778 *)
| window_load.                                             (* line 782 *)

Record listener := Listener {
  l_target : target;
  l_type : string;
  l_closure : closure
}.

(** Functions passed to [setTimeout]. *)
Inductive callback :=
| cb_initRefinedInteractions                               (* line 332 *)
| cb_initProjectsSlider                                    (* line 791 *)
| cb_showView (targetView : string).                       (* line 598 *)

(** Pending timers.  The preloader's counting interval (line 77) is
    recorded by name; its body is outside this development. *)
Inductive timer :=
| TimeoutTimer (cb : callback) (ms : Z)
| IntervalTimer (name : string) (ms : Z).

(** Reactions attached to a pending promise. *)
Inductive reaction :=
| sendForm_then (form : target).                             (* line 635 *)

(** The three function values the global [showView] is bound to in turn. *)
Inductive showView_value :=
| showView_declared                                        (* line 19 *)
| showView_interactions                                    (* line 329 *)
| showView_slider.                                         (* line 788 *)

(** The element trees: the attached one, those taken out of it, and the
    first identity not yet given to a node. *)
Record dom := Dom {
  document : dom_tree;
  detached : list dom_tree;
  next_node : nat
}.

(** What the browser keeps for the page.  The session history is the
    current entry with the entries before and after it, nearest first. *)
Record browser := Browser {
  readyState : string;
  session_back : list string;
  session_url : string;
  session_forward : list string;
  scrollY : Z;
  listeners : list listener;
  timers : list timer;
  reactions : list reaction;
  defaultPrevented : bool;
  trace : list call
}.

(** The variables of the script.  [drags] holds, per run of
    [initProjectsSlider], the pair [startX], [isDragging] that its touch
    listeners share. *)
Record globals := Globals {
  showView_var : showView_value;
  lastScrollY : Z;
  isMenuOpen : bool;
  currentProjectIndex : Z;
  isLoaded : bool;
  drags : list (Z * bool);
  menuTrigger : option node;
  navOverlay : option node
}.

Record page := Page {
  page_dom : dom;
  page_win : browser;
  page_js : globals
}.

Definition on_dom (f : dom → dom) (s : page) : page :=
  {| page_dom := f (page_dom s); page_win := page_win s; page_js := page_js s |}.
Definition on_win (f : browser → browser) (s : page) : page :=
  {| page_dom := page_dom s; page_win := f (page_win s); page_js := page_js s |}.
Definition on_js (f : globals → globals) (s : page) : page :=
  {| page_dom := page_dom s; page_win := page_win s; page_js := f (page_js s) |}.

Definition set_trees (d : dom_tree) (ds : list dom_tree) (nx : nat) : page → page :=
  on_dom (λ _, {| document := d; detached := ds; next_node := nx |}).

Definition set_session_url (v : string) : page → page :=
  on_win (λ b, {| readyState := readyState b; session_back := session_back b;
    session_url := v; session_forward := session_forward b; scrollY := scrollY b;
    listeners := listeners b; timers := timers b; reactions := reactions b;
    defaultPrevented := defaultPrevented b; trace := trace b |}).
Definition set_scrollY (v : Z) : page → page :=
  on_win (λ b, {| readyState := readyState b; session_back := session_back b;
    session_url := session_url b; session_forward := session_forward b; scrollY := v;
    listeners := listeners b; timers := timers b; reactions := reactions b;
    defaultPrevented := defaultPrevented b; trace := trace b |}).
Definition set_listeners (v : list listener) : page → page :=
  on_win (λ b, {| readyState := readyState b; session_back := session_back b;
    session_url := session_url b; session_forward := session_forward b; scrollY := scrollY b;
    listeners := v; timers := timers b; reactions := reactions b;
    defaultPrevented := defaultPrevented b; trace := trace b |}).
Definition set_timers (v : list timer) : page → page :=
  on_win (λ b, {| readyState := readyState b; session_back := session_back b;
    session_url := session_url b; session_forward := session_forward b; scrollY := scrollY b;
    listeners := listeners b; timers := v; reactions := reactions b;
    defaultPrevented := defaultPrevented b; trace := trace b |}).
Definition set_reactions (v : list reaction) : page → page :=
  on_win (λ b, {| readyState := readyState b; session_back := session_back b;
    session_url := session_url b; session_forward := session_forward b; scrollY := scrollY b;
    listeners := listeners b; timers := timers b; reactions := v;
    defaultPrevented := defaultPrevented b; trace := trace b |}).
Definition set_defaultPrevented (v : bool) : page → page :=
  on_win (λ b, {| readyState := readyState b; session_back := session_back b;
    session_url := session_url b; session_forward := session_forward b; scrollY := scrollY b;
    listeners := listeners b; timers := timers b; reactions := reactions b;
    defaultPrevented := v; trace := trace b |}).
Definition set_trace (v : list call) : page → page :=
  on_win (λ b, {| readyState := readyState b; session_back := session_back b;
    session_url := session_url b; session_forward := session_forward b; scrollY := scrollY b;
    listeners := listeners b; timers := timers b; reactions := reactions b;
    defaultPrevented := defaultPrevented b; trace := v |}).

Definition set_showView_var (v : showView_value) : page → page :=
  on_js (λ g, {| showView_var := v; lastScrollY := lastScrollY g; isMenuOpen := isMenuOpen g;
    currentProjectIndex := currentProjectIndex g; isLoaded := isLoaded g; drags := drags g;
    menuTrigger := menuTrigger g; navOverlay := navOverlay g |}).
Definition set_lastScrollY (v : Z) : page → page :=
  on_js (λ g, {| showView_var := showView_var g; lastScrollY := v; isMenuOpen := isMenuOpen g;
    currentProjectIndex := currentProjectIndex g; isLoaded := isLoaded g; drags := drags g;
    menuTrigger := menuTrigger g; navOverlay := navOverlay g |}).
Definition set_isMenuOpen (v : bool) : page → page :=
  on_js (λ g, {| showView_var := showView_var g; lastScrollY := lastScrollY g; isMenuOpen := v;
    currentProjectIndex := currentProjectIndex g; isLoaded := isLoaded g; drags := drags g;
    menuTrigger := menuTrigger g; navOverlay := navOverlay g |}).
Definition set_currentProjectIndex (v : Z) : page → page :=
  on_js (λ g, {| showView_var := showView_var g; lastScrollY := lastScrollY g;
    isMenuOpen := isMenuOpen g; currentProjectIndex := v; isLoaded := isLoaded g;
    drags := drags g; menuTrigger := menuTrigger g; navOverlay := navOverlay g |}).
Definition set_isLoaded (v : bool) : page → page :=
  on_js (λ g, {| showView_var := showView_var g; lastScrollY := lastScrollY g;
    isMenuOpen := isMenuOpen g; currentProjectIndex := currentProjectIndex g; isLoaded := v;
    drags := drags g; menuTrigger := menuTrigger g; navOverlay := navOverlay g |}).
Definition set_drags (v : list (Z * bool)) : page → page :=
  on_js (λ g, {| showView_var := showView_var g; lastScrollY := lastScrollY g;
    isMenuOpen := isMenuOpen g; currentProjectIndex := currentProjectIndex g;
    isLoaded := isLoaded g; drags := v; menuTrigger := menuTrigger g;
    navOverlay := navOverlay g |}).
Definition set_menu_refs (mt no : option node) : page → page :=
  on_js (λ g, {| showView_var := showView_var g; lastScrollY := lastScrollY g;
    isMenuOpen := isMenuOpen g; currentProjectIndex := currentProjectIndex g;
    isLoaded := isLoaded g; drags := drags g; menuTrigger := mt; navOverlay := no |}).

(** ** Script execution: state and exceptions *)

Inductive error := TypeError (what : string).

Inductive completion (A : Type) :=
| Normal (a : A)
| Throw (e : error).
Arguments Normal {A} a.
Arguments Throw {A} e.

(** A statement or expression: it runs in a page, completes normally
    with a value or abruptly with an exception, and leaves a page. *)
Definition Js (A : Type) : Type := page → completion A * page.

#[global] Instance Js_ret : MRet Js := λ A a s, (Normal a, s).
#[global] Instance Js_bind : MBind Js := λ A B f m s,
  match m s with
  | (Normal a, s') => f a s'
  | (Throw e, s') => (Throw e, s')
  end.

Definition throw {A} (e : error) : Js A := λ s, (Throw e, s).
Definition read {A} (f : page → A) : Js A := λ s, (Normal (f s), s).
Definition write (f : page → page) : Js unit := λ s, (Normal tt, f s).
Definition emit (c : call) : Js unit := write (λ s, set_trace (trace (page_win s) ++ [c]) s).

(** Dereference of a possibly-null reference: [null.x] throws. *)
Definition deref {A} (what : string) (o : option A) : Js A :=
  match o with
  | Some a => mret a
  | None => throw (TypeError what)
  end.

Fixpoint forEach {A} (l : list A) (f : A → Js unit) : Js unit :=
  match l with
  | [] => mret tt
  | x :: l' => f x ;; forEach l' f
  end.

Definition when (b : bool) (m : Js unit) : Js unit := if b then m else mret tt.

(** ** DOM and browser operations *)

Definition modify_node (n : node) (f : element → element) : page → page :=
  on_dom (λ d, {| document := update n f (document d);
                  detached := map (update n f) (detached d);
                  next_node := next_node d |}).

Definition classList_add (n : node) (c : string) : Js unit :=
  write (modify_node n (with_classList (token_add c)));; emit (ClassAdd n c).

Definition classList_remove (n : node) (c : string) : Js unit :=
  write (modify_node n (with_classList (token_remove c)));; emit (ClassRemove n c).

Definition set_style_opacity (n : node) (v : string) : Js unit :=
  write (modify_node n (with_opacity v));; emit (StyleSet n "opacity" v).

Definition set_style_pointerEvents (n : node) (v : string) : Js unit :=
  write (modify_node n (with_pointerEvents v));; emit (StyleSet n "pointerEvents" v).

Definition set_style_transform (n : node) (v : string) : Js unit :=
  write (modify_node n (with_transform v));; emit (StyleSet n "transform" v).

Definition set_src (n : node) (v : string) : Js unit :=
  write (modify_node n (with_src v));; emit (SrcSet n v).

(** [document.getElementById], [querySelectorAll], [querySelector] and
    [document.body] search the attached tree only. *)
Definition getElementById (i : string) : Js (option node) :=
  read (λ s, find_id i (document (page_dom s))).

Definition querySelectorAll (sel : selector) : Js (list node) :=
  read (λ s, select sel [] (document (page_dom s))).

Definition querySelector (sel : selector) : Js (option node) :=
  read (λ s, head (select sel [] (document (page_dom s)))).

Definition document_body : Js (option node) :=
  read (λ s, root_node <$>
    head (filter (λ k, tagName (root_element k) = "body") (children (document (page_dom s))))).

(** The tree an element currently lives in, attached or not. *)
Definition lookup_tree (n : node) (d : dom) : option dom_tree :=
  match subtree n (document d) with
  | Some u => Some u
  | None => head (omap (subtree n) (detached d))
  end.

Definition getAttribute_data_img (n : node) : Js (option string) :=
  read (λ s, t ← lookup_tree n (page_dom s); data_img (root_element t)).

(** [n.cloneNode(true)]: the result is a new tree, without listeners and
    not part of any other tree; the variable that receives it holds the
    tree until it is inserted.  A reference that denotes no element of the
    model has nothing to copy. *)
Definition cloneNode (n : node) : Js dom_tree := λ s,
  let d := page_dom s in
  let off := next_node d in
  match lookup_tree n d with
  | Some u =>
      (Normal (clone_tree off u), set_trees (document d) (detached d) (off + off)%nat s)
  | None => (Throw (TypeError "cloneNode"), s)
  end.

Inductive parent_ref := TheDocument | ParentElement (p : node).

(** [n.parentNode]: the document for the root element, [null] for the
    root of a detached tree. *)
Definition parentNode (n : node) : Js (option parent_ref) :=
  read (λ s,
    let d := page_dom s in
    if decide (root_node (document d) = n) then Some TheDocument
    else match parent_in n (document d) with
         | Some p => Some (ParentElement p)
         | None => ParentElement <$> head (omap (parent_in n) (detached d))
         end).

(** Replace [old] in the first tree of the list that contains it. *)
Fixpoint replace_in_forest (old : node) (new : dom_tree) (ts : list dom_tree)
  : option (list dom_tree) :=
  match ts with
  | [] => None
  | t :: ts' =>
      match replace_subtree old new t with
      | Some t' => Some (t' :: ts')
      | None => match replace_in_forest old new ts' with
                | Some r => Some (t :: r)
                | None => None
                end
      end
  end.

(** [old.parentNode.replaceChild(new, old)] for a tree [new] that was
    just made: [new] takes the place of [old], and the tree under [old]
    is detached. *)
Definition replaceChild (new : dom_tree) (old : node) : Js unit := λ s,
  let d := page_dom s in
  match lookup_tree old d with
  | Some ot =>
      match replace_subtree old new (document d) with
      | Some doc' =>
          emit (ReplaceChild (root_node new) old)
            (set_trees doc' (detached d ++ [ot]) (next_node d) s)
      | None =>
          match replace_in_forest old new (detached d) with
          | Some rest =>
              emit (ReplaceChild (root_node new) old)
                (set_trees (document d) (rest ++ [ot]) (next_node d) s)
          | None => (Normal tt, s)
          end
      end
  | None => (Normal tt, s)
  end.

Definition addEventListener (t : target) (ty : string) (c : closure) : Js unit :=
  write (λ s, set_listeners (listeners (page_win s) ++ [Listener t ty c]) s).

Definition setTimeout (cb : callback) (ms : Z) : Js unit :=
  write (λ s, set_timers (timers (page_win s) ++ [TimeoutTimer cb ms]) s).

Definition setInterval (name : string) (ms : Z) : Js unit :=
  write (λ s, set_timers (timers (page_win s) ++ [IntervalTimer name ms]) s).

(** The URL parser of the browser, as far as a fragment-only url ["#..."]
    goes, the only kind the script passes.  Strings hold text in UTF-8,
    so a code point above [~] is percent-encoded byte by byte. *)

(** C0 controls and the space are stripped from both ends of the input. *)
Definition c0_control_or_space (a : ascii) : bool := (nat_of_ascii a <=? 32)%nat.

(** Tabs and newlines are removed wherever they stand. *)
Definition tab_or_newline (a : ascii) : bool :=
  ((nat_of_ascii a =? 9) || (nat_of_ascii a =? 10) || (nat_of_ascii a =? 13))%nat.

(** The fragment percent-encode set: the C0 controls, everything above
    [~], the space, the double quote, [<], [>] and the backquote. *)
Definition fragment_percent_encode_set (a : ascii) : bool :=
  ((nat_of_ascii a <=? 31) || (126 <? nat_of_ascii a) || (nat_of_ascii a =? 32) ||
   (nat_of_ascii a =? 34) || (nat_of_ascii a =? 60) || (nat_of_ascii a =? 62) ||
   (nat_of_ascii a =? 96))%nat.

Definition hex_digit (n : nat) : ascii :=
  match n with
  | 0 => "0" | 1 => "1" | 2 => "2" | 3 => "3" | 4 => "4" | 5 => "5" | 6 => "6" | 7 => "7"
  | 8 => "8" | 9 => "9" | 10 => "A" | 11 => "B" | 12 => "C" | 13 => "D" | 14 => "E"
  | _ => "F"
  end%nat%char.

Definition percent_encode (a : ascii) : string :=
  String "%" (String (hex_digit (nat_of_ascii a / 16))
                (String (hex_digit (nat_of_ascii a mod 16)) EmptyString)).

Fixpoint strip_leading (s : string) : string :=
  match s with
  | EmptyString => EmptyString
  | String a r => if c0_control_or_space a then strip_leading r else s
  end.

Fixpoint strip_trailing (s : string) : string :=
  match s with
  | EmptyString => EmptyString
  | String a r =>
      match strip_trailing r with
      | EmptyString => if c0_control_or_space a then EmptyString else String a EmptyString
      | r' => String a r'
      end
  end.

Fixpoint remove_tabs_and_newlines (s : string) : string :=
  match s with
  | EmptyString => EmptyString
  | String a r =>
      if tab_or_newline a then remove_tabs_and_newlines r
      else String a (remove_tabs_and_newlines r)
  end.

Fixpoint percent_encode_fragment (s : string) : string :=
  match s with
  | EmptyString => EmptyString
  | String a r =>
      if fragment_percent_encode_set a then percent_encode a +:+ percent_encode_fragment r
      else String a (percent_encode_fragment r)
  end.

(** The fragment-only [url] as the parser writes it; [#] itself is not
    in the fragment percent-encode set. *)
Definition parse_fragment_url (url : string) : string :=
  percent_encode_fragment (remove_tabs_and_newlines (strip_trailing (strip_leading url))).

(** The session history entry currently shown keeps the fragment part of
    its URL: empty or ["#..."].
    [history.replaceState(null, null, url)] with a fragment-only [url]
    rewrites that entry in place, with [url] as the URL parser writes
    it. *)
Definition history_replaceState (url : string) : Js unit :=
  write (set_session_url (parse_fragment_url url));; emit (ReplaceState url).

(** [location.hash] is empty when the fragment is empty. *)
Definition location_hash : Js string :=
  read (λ s, let u := session_url (page_win s) in if decide (u = "#") then EmptyString else u).

Definition window_scrollTo (x y : Z) : Js unit :=
  write (set_scrollY y);; emit (ScrollTo x y).

(** [str.replace(c, '')] for a one-character pattern: the first
    occurrence is removed. *)
Fixpoint remove_first (c : ascii) (s : string) : string :=
  match s with
  | EmptyString => EmptyString
  | String a r => if decide (a = c) then r else String a (remove_first c r)
  end.

(** ** The script *)

(** *** About section: badge animation (lines 419-532) *)

(** The entry into [animateBadge] is recorded among the calls, so that
    its place in the order of effects can be stated.  The tween started
    by the [onComplete] callback of the entrance tween belongs to the
    animation engine and is not recorded. *)

Definition animateBadge : Js unit :=
  emit EnterAnimateBadge;;
  badgeContainer ← querySelector (SelClass "about-badge-container");
  badge ← querySelector (SelClass "id-badge");
  match badgeContainer, badge with
  | Some bc, Some b =>
      emit (GsapKillTweensOf (ByNodes [bc; b]));;
      emit (GsapSet (ByRef (Some bc)));;
      emit (GsapTo (ByRef (Some bc)));;
      detailItems ← querySelectorAll (SelDescendant (SelClass "badge-details") (SelTag "div"));
      when (bool_decide (0 < length detailItems)%nat) (emit (GsapFrom (ByNodes detailItems)));;
      bubble ← querySelector (SelId "badgeBubble");
      match bubble with
      | Some bb =>
          emit (GsapSet (ByRef (Some bb)));;
          emit (GsapTo (ByRef (Some bb)));;
          emit (GsapTo (ByRef (Some bb)));;
          emit (GsapTo (ByRef (Some bb)))
      | None => mret tt
      end;;
      badgePhoto ← querySelector (SelDescendant (SelClass "badge-photo-wrap") (SelTag "img"));
      match badgePhoto with
      | Some bp => emit (GsapFrom (ByRef (Some bp)))
      | None => mret tt
      end
  | _, _ => mret tt
  end.

(** *** View management (lines 19-49) *)

(** The function declared as [showView]; the script later keeps it in
    the constant [originalShowView]. *)
Definition originalShowView (viewId : string) : Js unit :=
  sections ← querySelectorAll (SelClass "view-section");
  forEach sections (λ section, classList_remove section "active");;
  items ← querySelectorAll (SelClass "nav-item");
  forEach items (λ item, classList_remove item "active");;
  targetView ← getElementById ("view-" +:+ viewId);
  targetLink ← getElementById ("link-" +:+ viewId);
  match targetView with
  | Some tv =>
      classList_add tv "active";;
      match targetLink with
      | Some tl => classList_add tl "active"
      | None => mret tt
      end;;
      history_replaceState ("#" +:+ viewId);;
      window_scrollTo 0 0;;
      emit (GsapFrom (ByRef (Some tv)));;
      when (bool_decide (viewId = "about")) animateBadge;;
      emit ScrollTriggerRefresh
  | None => mret tt
  end.

(** *** Hover interactions (lines 257-322) *)

Definition interactive_selector : selector :=
  SelList (SelClass "hover-target")
    (SelList (SelClass "nav-item")
      (SelList (SelClass "btn")
        (SelList (SelClass "project-card")
          (SelList (SelClass "photo-item") (SelClass "char"))))).

Definition initRefinedInteractions : Js unit :=
  interactives ← querySelectorAll interactive_selector;
  forEach interactives (λ el,
    addEventListener (Node el) "mouseenter" (interactive_mouseenter el);;
    addEventListener (Node el) "mouseleave" (interactive_mouseleave el);;
    addEventListener (Node el) "mousemove" (interactive_mousemove el)).

(** The first reassignment of [showView] (lines 328-333); the script later
    keeps this function in the constant [baseShowView]. *)
Definition baseShowView (viewId : string) : Js unit :=
  originalShowView viewId;;
  setTimeout cb_initRefinedInteractions 100.

(** The second reassignment of [showView] (lines 787-793). *)
Definition showView_projects (viewId : string) : Js unit :=
  baseShowView viewId;;
  when (bool_decide (viewId = "projects")) (setTimeout cb_initProjectsSlider 100).

(** A call [showView(viewId)]: whatever the global is bound to. *)
Definition showView (viewId : string) : Js unit :=
  v ← read (λ s, showView_var (page_js s));
  match v with
  | showView_declared => originalShowView viewId
  | showView_interactions => baseShowView viewId
  | showView_slider => showView_projects viewId
  end.

(** *** Preloader (lines 58-138), up to the start of its counting interval *)

Definition initPreloader : Js unit :=
  percentEl ← querySelector (SelClass "loader-progress");
  brandEl ← querySelector (SelClass "loader-brand");
  preloader ← getElementById "preloader";
  match percentEl, preloader with
  | Some _, Some _ =>
      write (set_isLoaded false);;
      body ← document_body;
      b ← deref "document.body" body;
      classList_add b "loading";;
      rs ← read (λ s, readyState (page_win s));
      (if bool_decide (rs = "complete") then write (set_isLoaded true)
       else addEventListener Window "load" preloader_load);;
      setInterval "counterInterval" 20
  | _, _ => mret tt
  end.

(** *** Mobile menu (lines 585-603) *)

Definition toggleMobileMenu (targetView : option string) : Js unit :=
  open ← read (λ s, isMenuOpen (page_js s));
  (if negb open then
     emit (TimelinePlay "menuTl");;
     mt ← read (λ s, menuTrigger (page_js s));
     m ← deref "menuTrigger" mt;
     classList_add m "active";;
     no ← read (λ s, navOverlay (page_js s));
     o ← deref "navOverlay" no;
     classList_add o "active"
   else
     emit (TimelineReverse "menuTl");;
     mt ← read (λ s, menuTrigger (page_js s));
     m ← deref "menuTrigger" mt;
     classList_remove m "active";;
     no ← read (λ s, navOverlay (page_js s));
     o ← deref "navOverlay" no;
     classList_remove o "active";;
     match targetView with
     | Some v => when (negb (bool_decide (v = EmptyString))) (setTimeout (cb_showView v) 500)
     | None => mret tt
     end);;
  write (set_isMenuOpen (negb open)).

(** *** Contact form (lines 629-675) *)

Definition showMessageModal : Js unit :=
  modal ← getElementById "message-modal";
  m ← deref "modal" modal;
  classList_add m "active".

Definition closeMessageModal : Js unit :=
  modal ← getElementById "message-modal";
  m ← deref "modal" modal;
  classList_remove m "active".

Definition showErrorModal : Js unit :=
  modal ← getElementById "error-modal";
  m ← deref "modal" modal;
  classList_add m "active".

Definition closeErrorModal : Js unit :=
  modal ← getElementById "error-modal";
  m ← deref "modal" modal;
  classList_remove m "active".

(** The submit listener, run with [this] bound to the form. *)
Definition contact_form_submit (this : target) : Js unit :=
  emit PreventDefault;;
  write (set_defaultPrevented true);;
  emit (EmailSendForm "service_6qr1akj" "template_rsqwb7s" this);;
  write (λ s, set_reactions (reactions (page_win s) ++ [sendForm_then this]) s).

(** The two reactions passed to [then]: the first runs when the promise
    of [emailjs.sendForm] is fulfilled, the second when it is rejected. *)
Definition settle (r : reaction) (fulfilled : bool) : Js unit :=
  match r with
  | sendForm_then form =>
      if fulfilled then showMessageModal;; emit (FormReset form)
      else showErrorModal
  end.

(** *** Projects slider (lines 692-779) *)

Definition updateSlider (env : slider_env) : Js unit :=
  _ ← deref "slides[0]" (head (slides env));
  emit (GsapTo (ByRef (Some (track env))));;
  forEach (imap pair (slides env)) (λ '(index, slide),
    i ← read (λ s, currentProjectIndex (page_js s));
    if bool_decide (Z.of_nat index = i) then classList_add slide "active"
    else classList_remove slide "active");;
  i ← read (λ s, currentProjectIndex (page_js s));
  set_style_opacity (newPrevBtn env) (if bool_decide (i = 0) then "0.2" else "1");;
  set_style_pointerEvents (newPrevBtn env) (if bool_decide (i = 0) then "none" else "auto");;
  let last := Z.of_nat (length (slides env)) - 1 in
  set_style_opacity (newNextBtn env) (if bool_decide (i = last) then "0.2" else "1");;
  set_style_pointerEvents (newNextBtn env) (if bool_decide (i = last) then "none" else "auto").

Definition slider_next_click (env : slider_env) : Js unit :=
  i ← read (λ s, currentProjectIndex (page_js s));
  when (bool_decide (i < Z.of_nat (length (slides env)) - 1))
    (write (set_currentProjectIndex (i + 1));; updateSlider env).

Definition slider_prev_click (env : slider_env) : Js unit :=
  i ← read (λ s, currentProjectIndex (page_js s));
  when (bool_decide (i > 0))
    (write (set_currentProjectIndex (i - 1));; updateSlider env).

(** [clientX] of the first touch is passed as [x]; only its differences
    and their comparison with 50 matter, so an integer stands for the
    coordinate. *)
Definition slider_touchstart_handler (env : slider_env) (x : Z) : Js unit :=
  write (λ s, set_drags (<[drag env := (x, true)]> (drags (page_js s))) s).

Definition slider_touchend_handler (env : slider_env) (x : Z) : Js unit :=
  cell ← read (λ s, default (0, false) (drags (page_js s) !! drag env));
  let '(startX, isDragging) := cell in
  if negb isDragging then mret tt
  else
    let diff := startX - x in
    when (bool_decide (Z.abs diff > 50))
      (i ← read (λ s, currentProjectIndex (page_js s));
       (if bool_decide (diff > 0) && bool_decide (i < Z.of_nat (length (slides env)) - 1)
        then write (set_currentProjectIndex (i + 1))
        else if bool_decide (diff < 0) && bool_decide (i > 0)
        then write (set_currentProjectIndex (i - 1))
        else mret tt);;
       updateSlider env);;
    write (λ s, set_drags (<[drag env := (startX, false)]> (drags (page_js s))) s).

Definition initProjectsSlider : Js unit :=
  track ← getElementById "projects-track";
  slides ← querySelectorAll (SelClass "project-slide-item");
  prevBtn ← getElementById "projects-prev";
  nextBtn ← getElementById "projects-next";
  match track with
  | Some tr =>
      if bool_decide (length slides = 0%nat) then mret tt
      else
        p ← deref "prevBtn" prevBtn;
        newPrevBtn ← cloneNode p;
        n ← deref "nextBtn" nextBtn;
        newNextBtn ← cloneNode n;
        pp ← parentNode p;
        _ ← deref "prevBtn.parentNode" pp;
        replaceChild newPrevBtn p;;
        np ← parentNode n;
        _ ← deref "nextBtn.parentNode" np;
        replaceChild newNextBtn n;;
        cell ← read (λ s, length (drags (page_js s)));
        let env := SliderEnv slides tr (root_node newPrevBtn) (root_node newNextBtn) cell in
        addEventListener (Node (root_node newNextBtn)) "click" (slider_next env);;
        addEventListener (Node (root_node newPrevBtn)) "click" (slider_prev env);;
        write (λ s, set_drags (drags (page_js s) ++ [(0, false)]) s);;
        addEventListener (Node tr) "touchstart" (slider_touchstart env);;
        addEventListener (Node tr) "touchend" (slider_touchend env);;
        updateSlider env;;
        addEventListener Window "resize" (slider_resize env)
  | None => mret tt
  end.

(** *** Listener bodies *)

(** The DOMContentLoaded listener (lines 184-197). *)
Definition DOMContentLoaded_listener : Js unit :=
  emit (GsapSet (BySelector "nav"));;
  hash ← location_hash;
  let currentHash := remove_first "#"%char hash in
  found ← getElementById ("view-" +:+ currentHash);
  if negb (bool_decide (currentHash = EmptyString)) && bool_decide (is_Some found)
  then showView currentHash
  else showView "home".

(** The scroll listener (lines 396-406). *)
Definition scroll_listener (navbar : option node) : Js unit :=
  y ← read (λ s, scrollY (page_win s));
  last ← read (λ s, lastScrollY (page_js s));
  n ← deref "navbar" navbar;
  set_style_transform n (if bool_decide (y > last) then "translateY(-100%)" else "translateY(0)");;
  write (set_lastScrollY y).

(** Run a listener with [this] bound to the event target; [x] is the
    [clientX] of the event's first touch. *)
Definition run_closure (c : closure) (this : target) (x : Z) : Js unit :=
  match c with
  | preloader_load => write (set_isLoaded true)
  | on_DOMContentLoaded => DOMContentLoaded_listener
  | hero_mousemove heroGraphic heroText =>
      match heroGraphic with
      | Some g => emit (GsapTo (ByRef (Some g)))
      | None => mret tt
      end;;
      emit (GsapTo (ByNodes heroText))
  | interactive_mouseenter el =>
      body ← document_body;
      b ← deref "document.body" body;
      classList_add b "cursor-hover";;
      emit (GsapTo (ByRef (Some el)))
  | interactive_mouseleave el =>
      body ← document_body;
      b ← deref "document.body" body;
      classList_remove b "cursor-hover";;
      emit (GsapTo (ByRef (Some el)))
  | interactive_mousemove el => emit (GsapTo (ByRef (Some el)))
  | window_scroll navbar => scroll_listener navbar
  | preview_mouseenter item previewContainer previewImg =>
      imgSrc ← getAttribute_data_img item;
      match imgSrc with
      | Some v =>
          when (negb (bool_decide (v = EmptyString)))
            (set_src previewImg v;; classList_add previewContainer "active")
      | None => mret tt
      end
  | preview_mouseleave previewContainer => classList_remove previewContainer "active"
  | menuTrigger_click => toggleMobileMenu None
  | contact_submit => contact_form_submit this
  | slider_next env => slider_next_click env
  | slider_prev env => slider_prev_click env
  | slider_touchstart env => slider_touchstart_handler env x
  | slider_touchend env => slider_touchend_handler env x
  | slider_resize env => updateSlider env
  | window_load => initProjectsSlider
  end.

(** Deliver an event of type [ty] at target [t]: the listeners registered
    for it when delivery starts run in registration order; an exception
    in one listener ends that listener only. *)
Definition dispatch (t : target) (ty : string) (x : Z) (s : page) : page :=
  fold_left (λ s' l, (run_closure (l_closure l) t x s').2)
    (filter (λ l, l_target l = t ∧ l_type l = ty) (listeners (page_win s)))
    (set_defaultPrevented false s).

Definition run_callback (cb : callback) : Js unit :=
  match cb with
  | cb_initRefinedInteractions => initRefinedInteractions
  | cb_initProjectsSlider => initProjectsSlider
  | cb_showView targetView => showView targetView
  end.

(** *** Top level of the script, in source order *)

Definition script : Js unit :=
  emit GsapRegisterPlugin;;
  initPreloader;;
  addEventListener Window "DOMContentLoaded" on_DOMContentLoaded;;
  (* hero interaction, lines 208-242 *)
  heroSection ← getElementById "hero-aesthetic";
  heroText ← querySelectorAll (SelClass "aesthetic-headline");
  heroGraphic ← querySelector (SelClass "hero-bg-graphic");
  match heroSection with
  | Some hs => addEventListener (Node hs) "mousemove" (hero_mousemove heroGraphic heroText)
  | None => mret tt
  end;;
  (* lines 328-336 *)
  write (set_showView_var showView_interactions);;
  initRefinedInteractions;;
  (* hero scroll timeline, lines 352-366 *)
  emit (GsapTimeline "heroTimeline");;
  emit (TimelineTo "heroTimeline" (BySelector ".aesthetic-headline"));;
  emit (TimelineTo "heroTimeline" (BySelector ".hero-bg-graphic"));;
  emit (TimelineTo "heroTimeline" (BySelector ".hero-bottom-bar"));;
  emit (TimelineTo "heroTimeline" (BySelector ".hero-top-bar"));;
  (* navbar, lines 388-406 *)
  y ← read (λ s, scrollY (page_win s));
  write (set_lastScrollY y);;
  navbar ← getElementById "navbar";
  addEventListener Window "scroll" (window_scroll navbar);;
  (* mobile menu, lines 542-608 *)
  menuTrigger ← getElementById "mobile-menu-trigger";
  navOverlay ← getElementById "nav-overlay";
  mNavItems ← querySelectorAll (SelClass "m-nav-item");
  menuCloseBtn ← getElementById "menu-close-btn";
  write (set_menu_refs menuTrigger navOverlay);;
  write (set_isMenuOpen false);;
  emit (GsapTimeline "menuTl");;
  emit (TimelineTo "menuTl" (ByRef navOverlay));;
  emit (TimelineTo "menuTl" (ByNodes mNavItems));;
  emit (TimelineTo "menuTl" (ByRef menuCloseBtn));;
  previewContainer ← querySelector (SelClass "nav-preview-container");
  previewImg ← getElementById "nav-preview-img";
  match previewContainer, previewImg with
  | Some pc, Some pi =>
      forEach mNavItems (λ item,
        addEventListener (Node item) "mouseenter" (preview_mouseenter item pc pi);;
        addEventListener (Node item) "mouseleave" (preview_mouseleave pc))
  | _, _ => mret tt
  end;;
  mt ← deref "menuTrigger" menuTrigger;
  addEventListener (Node mt) "click" menuTrigger_click;;
  (* contact form, lines 621-643 *)
  emit (EmailInit "oTPVHwl5Wz0cIOKA-");;
  form ← getElementById "contact-form";
  f ← deref "contact-form" form;
  addEventListener (Node f) "submit" contact_submit;;
  (* projects slider, lines 692-793 *)
  write (set_currentProjectIndex 0);;
  addEventListener Window "load" window_load;;
  write (set_showView_var showView_slider).

(** ** The page as a reactive system *)

(** What can happen to the page once the script has been loaded: the
    browser delivers an event, a timer fires, the email promise settles,
    or an inline handler of the markup calls one of the script's global
    functions. *)
Inductive input :=
| Deliver (t : target) (ty : string) (x : Z)
| UserScroll (y : Z)
| Fire (cb : callback)
| Settle (r : reaction) (fulfilled : bool)
| Inline_showView (viewId : string)
| Inline_toggleMobileMenu (targetView : option string)
| Inline_closeMessageModal
| Inline_closeErrorModal.

(** An uncaught exception is reported by the browser and the page goes on. *)
Definition step (i : input) (s : page) : page :=
  match i with
  | Deliver t ty x => dispatch t ty x s
  | UserScroll y => dispatch Window "scroll" 0 (set_scrollY y s)
  | Fire cb => (run_callback cb s).2
  | Settle r ok => (settle r ok s).2
  | Inline_showView viewId => (showView viewId s).2
  | Inline_toggleMobileMenu targetView => (toggleMobileMenu targetView s).2
  | Inline_closeMessageModal => (closeMessageModal s).2
  | Inline_closeErrorModal => (closeErrorModal s).2
  end.

Definition run (inputs : list input) (s : page) : page :=
  fold_left (λ s' i, step i s') inputs s.

(** A page on which no script has run yet. *)
Definition fresh_page (doc : dom_tree) (nx : nat) (hash : string) (back : list string) : page :=
  {| page_dom := {| document := doc; detached := []; next_node := nx |};
     page_win := {| readyState := "loading"; session_back := back; session_url := hash;
                    session_forward := []; scrollY := 0; listeners := []; timers := [];
                    reactions := []; defaultPrevented := false; trace := [] |};
     page_js := {| showView_var := showView_declared; lastScrollY := 0; isMenuOpen := false;
                   currentProjectIndex := 0; isLoaded := false; drags := [];
                   menuTrigger := None; navOverlay := None |} |}.
Arguments fresh_page doc nx%_nat hash back.

(** ** Definitions used in the statements and proofs *)

(** Node identities in document order. *)
Definition ids (t : dom_tree) : list node := (flat t).*1.

(** Selectors without a descendant combinator look at the element only. *)
Fixpoint simple (sel : selector) : bool :=
  match sel with
  | SelDescendant _ _ => false
  | SelList a b => simple a && simple b
  | _ => true
  end.

(** Node identities of the attached tree are distinct and were all
    allocated before [next_node]. *)
Definition wf_doc (s : page) : Prop :=
  NoDup (ids (document (page_dom s))) ∧
  Forall (λ m, (m < next_node (page_dom s))%nat) (ids (document (page_dom s))).

(** A View is an element addressed as [view-<identifier>]. *)
Definition is_view (e : element) : Prop := String.prefix "view-" (el_id e) = true.

(** The markup contract: every View carries the class [view-section]. *)
Definition views_marked (doc : dom_tree) : Prop :=
  ∀ m e, (m, e) ∈ flat doc → is_view e → "view-section" ∈ classList e.

(** Node [n] is a View, it is marked active, and no other View is. *)
Definition only_active_view (n : node) (viewId : string) (doc : dom_tree) : Prop :=
  (∃ e, (n, e) ∈ flat doc ∧ el_id e = "view-" +:+ viewId ∧ "active" ∈ classList e) ∧
  ∀ m e, (m, e) ∈ flat doc → is_view e → ("active" ∈ classList e ↔ m = n).

(** The number of slides on the page. *)
Definition slide_count (s : page) : nat :=
  length (select (SelClass "project-slide-item") [] (document (page_dom s))).

(** A slider listener was made for [n] slides. *)
Definition slider_closure_ok (n : nat) (c : closure) : Prop :=
  match c with
  | slider_next env | slider_prev env | slider_touchstart env | slider_touchend env
  | slider_resize env => length (slides env) = n
  | _ => True
  end.

(** The slider invariant for a page with [n] slides. *)
Record slider_inv (n : nat) (s : page) : Prop := SliderInv {
  inv_wf : wf_doc s;
  inv_count : slide_count s = n;
  inv_index : 0 ≤ currentProjectIndex (page_js s) < Z.of_nat n;
  inv_closures : Forall (λ l, slider_closure_ok n (l_closure l)) (listeners (page_win s))
}.

(** [m] preserves [P], however it completes. *)
Definition preserves {A} (P : page → Prop) (m : Js A) : Prop :=
  ∀ s, P s → P (m s).2.


(** The effect of [update] on one entry of [flat]. *)
Definition update_entry (n : node) (f : element → element) (p : node * element)
  : node * element :=
  if decide (p.1 = n) then (p.1, f p.2) else p.

(** The number of elements that satisfy a decidable property. *)
Definition count (P : node * element → Prop) `{!∀ p, Decision (P p)} (t : dom_tree) : nat :=
  length (filter P (flat t)).

Definition remove_class (c : string) : element → element := with_classList (token_remove c).
Definition add_class (c : string) : element → element := with_classList (token_add c).

(** Code that completes normally and only issues calls. *)
Definition emits_only (m : Js unit) : Prop :=
  ∀ s, ∃ cs, m s = (Normal tt, set_trace (trace (page_win s) ++ cs) s).

(** The attached tree once every view and every navigation link has lost
    the class [active]. *)
Definition deactivated (doc : dom_tree) : dom_tree :=
  fold_left (λ t n, update n (remove_class "active") t) (select (SelClass "nav-item") [] doc)
    (fold_left (λ t n, update n (remove_class "active") t)
       (select (SelClass "view-section") [] doc) doc).

Definition deactivations (doc : dom_tree) : list call :=
  ((λ n, ClassRemove n "active") <$> select (SelClass "view-section") [] doc) ++
  ((λ n, ClassRemove n "active") <$> select (SelClass "nav-item") [] doc).

(** What a call of [showView] leaves behind, timers apart. *)
Definition view_switch (viewId : string) (s s' : page) : Prop :=
  let doc := document (page_dom s) in
  page_js s' = page_js s ∧
  next_node (page_dom s') = next_node (page_dom s) ∧
  session_back (page_win s') = session_back (page_win s) ∧
  session_forward (page_win s') = session_forward (page_win s) ∧
  listeners (page_win s') = listeners (page_win s) ∧
  match find_id ("view-" +:+ viewId) doc with
  | None =>
      document (page_dom s') = deactivated doc ∧
      trace (page_win s') = trace (page_win s) ++ deactivations doc ∧
      session_url (page_win s') = session_url (page_win s) ∧
      scrollY (page_win s') = scrollY (page_win s)
  | Some tv =>
      ∃ hook,
      document (page_dom s')
      = match find_id ("link-" +:+ viewId) doc with
        | Some tl => update tl (add_class "active") (update tv (add_class "active") (deactivated doc))
        | None => update tv (add_class "active") (deactivated doc)
        end ∧
      trace (page_win s')
      = trace (page_win s) ++ deactivations doc ++ [ClassAdd tv "active"] ++
        match find_id ("link-" +:+ viewId) doc with
        | Some tl => [ClassAdd tl "active"]
        | None => []
        end ++
        [ReplaceState ("#" +:+ viewId); ScrollTo 0 0; GsapFrom (ByRef (Some tv))] ++
        hook ++ [ScrollTriggerRefresh] ∧
      (if bool_decide (viewId = "about") then ∃ rest, hook = EnterAnimateBadge :: rest
       else hook = []) ∧
      session_url (page_win s') = parse_fragment_url ("#" +:+ viewId) ∧
      scrollY (page_win s') = 0
  end.

(** What the invariants below depend on: node identities and, per
    element, whether it is a slide. *)
Definition sketch (t : dom_tree) : list (node * bool) :=
  (λ p, (p.1, has_class "project-slide-item" p.2)) <$> flat t.

(** [quiet s s']: [s'] differs from [s] in nothing the invariants see. *)
Definition quiet (s s' : page) : Prop :=
  currentProjectIndex (page_js s') = currentProjectIndex (page_js s) ∧
  listeners (page_win s') = listeners (page_win s) ∧
  session_back (page_win s') = session_back (page_win s) ∧
  session_forward (page_win s') = session_forward (page_win s) ∧
  next_node (page_dom s') = next_node (page_dom s) ∧
  sketch (document (page_dom s')) = sketch (document (page_dom s)).

(** The slides of the carousel. *)
Definition is_slide (p : node * element) : Prop := has_class "project-slide-item" p.2 = true.

#[local] Instance is_slide_dec p : Decision (is_slide p).
Proof. unfold is_slide. apply _. Defined.

(** Node [n] is attached and carries the class [active]. *)
Definition node_active (n : node) (s : page) : Prop :=
  ∃ e, (n, e) ∈ flat (document (page_dom s)) ∧ "active" ∈ classList e.

(** The browser's back navigation: the nearest earlier entry becomes
    the current one. *)
Definition go_back (s : page) : page :=
  match session_back (page_win s) with
  | prior :: rest =>
      on_win (λ b, {| readyState := readyState b; session_back := rest;
        session_url := prior; session_forward := session_url b :: session_forward b;
        scrollY := scrollY b; listeners := listeners b; timers := timers b;
        reactions := reactions b; defaultPrevented := defaultPrevented b;
        trace := trace b |}) s
  | [] => s
  end.

(** The views marked active, in document order. *)
Definition active_views (s : page) : list node :=
  (filter (λ p, is_view p.2 ∧ "active" ∈ classList p.2) (flat (document (page_dom s)))).*1.

(** The navigation links marked active, in document order. *)
Definition active_links (s : page) : list node :=
  (filter (λ p, "nav-item" ∈ classList p.2 ∧ "active" ∈ classList p.2)
     (flat (document (page_dom s)))).*1.

(** ** A sample page *)

Definition el (tag i : string) (cls : list string) : element :=
  {| tagName := tag; el_id := i; classList := cls; style_opacity := EmptyString;
     style_pointerEvents := EmptyString; style_transform := EmptyString; data_img := None; src := EmptyString |}.

Definition sample_navigation (with_menu_trigger : bool) : list dom_tree :=
  [ Elem 3 (el "a" "link-home" ["nav-item"; "active"]) [];
    Elem 4 (el "a" "link-about" ["nav-item"]) [];
    Elem 5 (el "a" "link-projects" ["nav-item"]) [] ] ++
  (if with_menu_trigger then [Elem 6 (el "button" "mobile-menu-trigger" []) []] else []).

Definition sample_body (with_menu_trigger : bool) : list dom_tree :=
  [ Elem 2 (el "nav" "navbar" []) (sample_navigation with_menu_trigger);
    Elem 7 (el "section" "view-home" ["view-section"; "active"]) [];
    Elem 8 (el "section" "view-about" ["view-section"])
      [ Elem 9 (el "div" EmptyString ["about-badge-container"])
          [ Elem 10 (el "div" EmptyString ["id-badge"])
              [ Elem 11 (el "div" EmptyString ["badge-details"]) [ Elem 12 (el "div" EmptyString []) [] ] ] ] ];
    Elem 13 (el "section" "view-projects" ["view-section"])
      [ Elem 14 (el "div" "projects-track" [])
          [ Elem 15 (el "div" EmptyString ["project-slide-item"]) [];
            Elem 16 (el "div" EmptyString ["project-slide-item"]) [];
            Elem 17 (el "div" EmptyString ["project-slide-item"]) [] ];
        Elem 18 (el "button" "projects-prev" ["btn"]) [];
        Elem 19 (el "button" "projects-next" ["btn"]) [] ];
    Elem 20 (el "section" "view-contact" ["view-section"])
      [ Elem 21 (el "form" "contact-form" []) [] ];
    Elem 22 (el "div" "message-modal" []) [];
    Elem 23 (el "div" "error-modal" []) [];
    Elem 24 (el "div" "nav-overlay" []) [] ].

Definition sample_document (with_menu_trigger : bool) : dom_tree :=
  Elem 0 (el "html" EmptyString []) [ Elem 1 (el "body" EmptyString []) (sample_body with_menu_trigger) ].

(** The sample page before the script runs, opened without a fragment
    from an earlier page. *)
Definition sample_page : page :=
  fresh_page (sample_document true) 25 EmptyString ["https://example.org/"].

(** The sample page once the script has run and the document is loaded. *)
Definition loaded_page : page :=
  dispatch Window "DOMContentLoaded" 0 (script sample_page).2.

(** Some things that happen on the loaded sample page: the slider is
    initialised, the next button is pressed three times, the projects
    view is entered again, and the track is dragged. *)
Definition sample_inputs : list input :=
  [Deliver Window "load" 0; Deliver (Node 69) "click" 0;
   Deliver (Node 69) "click" 0; Deliver (Node 69) "click" 0;
   Inline_showView "projects"; Fire cb_initProjectsSlider;
   Deliver (Node 14) "touchstart" 10; Deliver (Node 14) "touchend" 300].

(** The same markup without the mobile menu button. *)
Definition page_without_menu_trigger : page :=
  fresh_page (sample_document false) 25 EmptyString ["https://example.org/"].

(** The sample page opened with the fragment [#about], script run. *)
Definition deep_link_page : page :=
  (script (fresh_page (sample_document true) 25 "#about" ["https://example.org/"])).2.
(** ** More of the script *)

(** *** Hero entrance (lines 143-179) *)

(** The [onComplete] callback of the first tween belongs to the animation
    engine and is not recorded. *)

Definition animateHeroEntrance : Js unit :=
  heroWords ← querySelectorAll (SelClass "hero-word");
  emit (GsapSet (ByNodes heroWords));;
  emit (GsapTo (ByNodes heroWords));;
  emit (GsapFrom (BySelector ".hero-subtitle"));;
  emit (GsapFrom (BySelector ".hero-top-bar, .hero-bottom-bar, .hero-age-circle")).

(** The callback that ends the preloader's timeline (lines 133-136). *)
Definition preloader_finished : Js unit :=
  body ← document_body;
  b ← deref "document.body" body;
  classList_remove b "loading";;
  animateHeroEntrance.

(** ** Further definitions used in the statements and proofs *)

(** The data of an attached node. *)
Definition element_of (n : node) (s : page) : option element :=
  snd <$> head (filter (λ p, p.1 = n) (flat (document (page_dom s)))).

#[global] Instance element_eq_dec : EqDecision element.
Proof. solve_decision. Defined.

(** The three listeners [initRefinedInteractions] puts on one element. *)
Definition hover_listeners (el : node) : list listener :=
  [ Listener (Node el) "mouseenter" (interactive_mouseenter el);
    Listener (Node el) "mouseleave" (interactive_mouseleave el);
    Listener (Node el) "mousemove" (interactive_mousemove el) ].

(** The two listeners the script puts on one item of the mobile menu. *)
Definition preview_listeners (previewContainer previewImg item : node) : list listener :=
  [ Listener (Node item) "mouseenter" (preview_mouseenter item previewContainer previewImg);
    Listener (Node item) "mouseleave" (preview_mouseleave previewContainer) ].

(** A sequence of calls [showView(id)]. *)
Definition showView_calls (viewIds : list string) : list input :=
  Inline_showView <$> viewIds.

(** Apply to the data of every element a function of its identity. *)
Fixpoint tmap (g : node → element → element) (t : dom_tree) : dom_tree :=
  match t with Elem m e kids => Elem m (g m e) (map (tmap g) kids) end.

(** What a view switch does to the classes of one element: the class
    [active] is removed or not, and then added or not. *)
Definition switch_classes (r a : bool) (l : list string) : list string :=
  (if a then token_add "active" else id) ((if r then token_remove "active" else id) l).

(** Where one touchend listener takes the index to, for a gesture that
    started [diff] pixels to the right of where it ended, on a slider
    whose last index is [last] (lines 758-772). *)
Definition swipe (diff last i : Z) : Z :=
  if bool_decide (Z.abs diff > 50) then
    if bool_decide (diff > 0) && bool_decide (i < last) then i + 1
    else if bool_decide (diff < 0) && bool_decide (i > 0) then i - 1
    else i
  else i.

(** The touch listeners that the runs of [initProjectsSlider] with the
    environments [envs] leave on the track. *)
Definition touchstart_listeners (tr : node) (envs : list slider_env) : list listener :=
  (λ env, Listener (Node tr) "touchstart" (slider_touchstart env)) <$> envs.
Definition touchend_listeners (tr : node) (envs : list slider_env) : list listener :=
  (λ env, Listener (Node tr) "touchend" (slider_touchend env)) <$> envs.

(** The five listeners that one run of [initProjectsSlider] registers. *)
Definition slider_listeners (env : slider_env) : list listener :=
  [ Listener (Node (newNextBtn env)) "click" (slider_next env);
    Listener (Node (newPrevBtn env)) "click" (slider_prev env);
    Listener (Node (track env)) "touchstart" (slider_touchstart env);
    Listener (Node (track env)) "touchend" (slider_touchend env);
    Listener Window "resize" (slider_resize env) ].

(** Node [m] is node [n] or lies below it in [t]. *)
Definition inside (m n : node) (t : dom_tree) : bool :=
  match subtree n t with
  | Some u => bool_decide (m ∈ ids u)
  | None => false
  end.


(** Every character of the string satisfies [p]. *)
Fixpoint string_forallb (p : ascii → bool) (s : string) : bool :=
  match s with
  | EmptyString => true
  | String a r => p a && string_forallb p r
  end.

(** No character of the string is in the fragment percent-encode set. *)
Definition plain_fragment (s : string) : bool :=
  string_forallb (λ a, negb (fragment_percent_encode_set a)) s.

(** The preloader starts only on a page that has both of its elements
    (line 63). *)
Definition has_preloader (doc : dom_tree) : bool :=
  match head (select (SelClass "loader-progress") [] doc), find_id "preloader" doc with
  | Some _, Some _ => true
  | _, _ => false
  end.

(** The listeners that one run of the script registers on a page whose
    document is [doc] and whose ready state is [rs], in the order of
    registration.  The listeners from the mobile menu button on are
    registered only when the button exists, and those from the contact
    form on only when the form exists as well. *)
Definition script_listeners (rs : string) (doc : dom_tree) : list listener :=
  (if has_preloader doc && negb (bool_decide (rs = "complete"))
   then [Listener Window "load" preloader_load] else []) ++
  [Listener Window "DOMContentLoaded" on_DOMContentLoaded] ++
  match find_id "hero-aesthetic" doc with
  | Some hs =>
      [Listener (Node hs) "mousemove"
         (hero_mousemove (head (select (SelClass "hero-bg-graphic") [] doc))
            (select (SelClass "aesthetic-headline") [] doc))]
  | None => []
  end ++
  flat_map hover_listeners (select interactive_selector [] doc) ++
  [Listener Window "scroll" (window_scroll (find_id "navbar" doc))] ++
  match head (select (SelClass "nav-preview-container") [] doc),
        find_id "nav-preview-img" doc with
  | Some pc, Some pi => flat_map (preview_listeners pc pi) (select (SelClass "m-nav-item") [] doc)
  | _, _ => []
  end ++
  match find_id "mobile-menu-trigger" doc with
  | Some mt =>
      Listener (Node mt) "click" menuTrigger_click ::
      match find_id "contact-form" doc with
      | Some f => [Listener (Node f) "submit" contact_submit; Listener Window "load" window_load]
      | None => []
      end
  | None => []
  end.

(** How the script completes (lines 608 and 629). *)
Definition script_completion (doc : dom_tree) : completion unit :=
  match find_id "mobile-menu-trigger" doc, find_id "contact-form" doc with
  | None, _ => Throw (TypeError "menuTrigger")
  | Some _, None => Throw (TypeError "contact-form")
  | Some _, Some _ => Normal tt
  end.

(** ** More sample pages *)

(** A page with nothing but an empty body. *)
Definition bare_page : page :=
  fresh_page (Elem 0 (el "html" EmptyString []) [Elem 1 (el "body" EmptyString []) []])
    2 EmptyString [].

(** A page whose slider has slides but no buttons. *)
Definition page_without_slider_buttons : page :=
  fresh_page
    (Elem 0 (el "html" EmptyString [])
       [Elem 1 (el "body" EmptyString [])
          [Elem 2 (el "div" "projects-track" [])
             [Elem 3 (el "div" EmptyString ["project-slide-item"]) [];
              Elem 4 (el "div" EmptyString ["project-slide-item"]) []]]])
    5 EmptyString [].

(** A page with a preloader, a hero section and a mobile menu with an
    image preview. *)
Definition menu_document : dom_tree :=
  Elem 0 (el "html" EmptyString [])
    [Elem 1 (el "body" EmptyString [])
       [ Elem 2 (el "div" "preloader" []) [Elem 3 (el "span" EmptyString ["loader-progress"]) []];
         Elem 4 (el "section" "hero-aesthetic" [])
           [Elem 5 (el "h1" EmptyString ["aesthetic-headline"; "hero-word"]) []];
         Elem 6 (el "button" "mobile-menu-trigger" []) [];
         Elem 7 (el "div" "nav-overlay" [])
           [ Elem 8 {| tagName := "a"; el_id := EmptyString; classList := ["m-nav-item"];
                       style_opacity := EmptyString; style_pointerEvents := EmptyString;
                       style_transform := EmptyString; data_img := Some "img/about.jpg";
                       src := EmptyString |} [];
             Elem 9 (el "a" EmptyString ["m-nav-item"]) [];
             Elem 10 (el "div" EmptyString ["nav-preview-container"])
               [Elem 11 (el "img" "nav-preview-img" []) []] ];
         Elem 12 (el "form" "contact-form" []) [] ]].

Definition menu_page : page := fresh_page menu_document 13 EmptyString [].

(** A page whose home View lacks the class [view-section]. *)
Definition unmarked_home_page : page :=
  fresh_page
    (Elem 0 (el "html" EmptyString [])
       [Elem 1 (el "body" EmptyString [])
          [ Elem 2 (el "section" "view-home" ["active"]) [];
            Elem 3 (el "section" "view-about" ["view-section"]) [] ]])
    4 EmptyString [].

(** A page with a View whose identifier has a character of the fragment
    percent-encode set. *)
Definition odd_identifier_page : page :=
  fresh_page
    (Elem 0 (el "html" EmptyString [])
       [Elem 1 (el "body" EmptyString [])
          [ Elem 2 (el "section" "view-home" ["view-section"; "active"]) [];
            Elem 3 (el "section" "view-a<b" ["view-section"]) [] ]])
    4 EmptyString [].

(** * Proofs *)

(** ** Element trees *)

Lemma dom_tree_ind (P : dom_tree → Prop) :
  (∀ n e kids, Forall P kids → P (Elem n e kids)) → ∀ t, P t.
Proof.
  intros H. fix IH 1. intros [n e kids]. apply H.
  induction kids as [|k kids IHk]; constructor; [apply IH | exact IHk].
Qed.


Lemma flat_update n f t : flat (update n f t) = map (update_entry n f) (flat t).
Proof.
  induction t as [m e kids IH] using dom_tree_ind. cbn [update flat].
  unfold update_entry at 1. cbn [map fst snd]. f_equal; [by destruct (decide (m = n))|].
  induction IH as [|k kids Hk _ IHkids]; [done|].
  cbn [map flat_map]. rewrite map_app, Hk. f_equal. exact IHkids.
Qed.

Lemma ids_update n f t : ids (update n f t) = ids t.
Proof.
  unfold ids. rewrite flat_update, <- list_fmap_compose.
  apply list_fmap_ext. intros _ p _. unfold update_entry. simpl. by destruct (decide _).
Qed.

Lemma flat_clone off t :
  flat (clone_tree off t) = map (λ p, ((off + p.1)%nat, p.2)) (flat t).
Proof.
  induction t as [m e kids IH] using dom_tree_ind. cbn [clone_tree flat map fst snd].
  f_equal. induction IH as [|k kids Hk _ IHkids]; [done|].
  cbn [map flat_map]. rewrite map_app, Hk. f_equal. exact IHkids.
Qed.

Lemma matches_simple sel anc e : simple sel = true → matches sel anc e = matches sel [] e.
Proof.
  induction sel; cbn; intros Hs; try done.
  apply andb_true_iff in Hs as [Ha Hb]. by rewrite IHsel1, IHsel2.
Qed.

Lemma select_simple sel anc t :
  simple sel = true →
  select sel anc t = (filter (λ p, matches sel [] p.2 = true) (flat t)).*1.
Proof.
  intros Hs. revert anc.
  induction t as [m e kids IH] using dom_tree_ind. intros anc.
  cbn [select flat]. rewrite filter_cons. cbn [snd].
  rewrite (matches_simple sel anc e Hs).
  assert (flat_map (select sel (e :: anc)) kids
          = (filter (λ p, matches sel [] p.2 = true) (flat_map flat kids)).*1) as ->.
  { induction IH as [|k kids Hk _ IHkids]; [done|].
    cbn [flat_map]. rewrite filter_app, fmap_app, Hk. f_equal. exact IHkids. }
  destruct (matches sel [] e) eqn:E.
  - rewrite decide_True by done. done.
  - rewrite decide_False by congruence. done.
Qed.

Lemma flat_root t : ∃ l, flat t = (root_node t, root_element t) :: l.
Proof. destruct t. eauto. Qed.

Lemma subtree_flat n t u :
  subtree n t = Some u →
  root_node u = n ∧ ∃ l1 l2, flat t = l1 ++ flat u ++ l2.
Proof.
  revert u. induction t as [m e kids IH] using dom_tree_ind. intros u.
  cbn [subtree]. destruct (decide (m = n)) as [->|Hne].
  - intros [= <-]. split; [done|]. exists [], []. by rewrite app_nil_r.
  - intros H.
    assert (root_node u = n ∧ ∃ l1 l2, flat_map flat kids = l1 ++ flat u ++ l2) as [Hr (l1 & l2 & E)].
    { induction IH as [|k kids Hk _ IHkids]; [done|].
      destruct (subtree n k) as [v|] eqn:Ek.
      - injection H as ->. destruct (Hk _ eq_refl) as [Hr (l1 & l2 & E)].
        split; [done|]. exists l1, (l2 ++ flat_map flat kids).
        cbn [flat_map]. rewrite E. by rewrite <- !app_assoc.
      - destruct (IHkids H) as [Hr (l1 & l2 & E)]. split; [done|].
        exists (flat k ++ l1), l2. cbn [flat_map]. rewrite E. by rewrite <- !app_assoc. }
    split; [done|]. exists ((m, e) :: l1), l2. cbn [flat]. by rewrite E.
Qed.

Lemma subtree_elem n t u : subtree n t = Some u → n ∈ ids t.
Proof.
  intros H. destruct (subtree_flat _ _ _ H) as [Hr (l1 & l2 & E)].
  unfold ids. rewrite E. destruct (flat_root u) as [l ->]. rewrite Hr.
  rewrite !fmap_app. cbn. set_solver.
Qed.

Lemma subtree_None n t : subtree n t = None → n ∉ ids t.
Proof.
  induction t as [m e kids IH] using dom_tree_ind.
  cbn [subtree]. destruct (decide (m = n)) as [->|Hne]; [done|].
  intros H. unfold ids. cbn [flat fmap list_fmap fst].
  rewrite not_elem_of_cons. split; [congruence|].
  induction IH as [|k kids Hk _ IHkids]; [cbn; set_solver|].
  destruct (subtree n k) as [v|] eqn:Ek; [done|].
  cbn [flat_map]. rewrite fmap_app, not_elem_of_app. split; [by apply Hk | by apply IHkids].
Qed.

Lemma subtree_is_Some n t : n ∈ ids t → is_Some (subtree n t).
Proof.
  intros Hin. destruct (subtree n t) eqn:E; [done|]. by apply subtree_None in E.
Qed.

Lemma replace_subtree_None n X t : replace_subtree n X t = None → n ∉ ids t.
Proof.
  induction t as [m e kids IH] using dom_tree_ind.
  cbn [replace_subtree]. destruct (decide (m = n)); [done|].
  set (rep := (fix first (ks : list dom_tree) : option (list dom_tree) := _)).
  intros H. unfold ids. cbn [flat fmap list_fmap fst].
  rewrite not_elem_of_cons. split; [congruence|].
  assert (rep kids = None) as Hr by (by destruct (rep kids)). clear H.
  induction IH as [|k kids Hk _ IHkids]; [cbn; set_solver|].
  cbn in Hr. destruct (replace_subtree n X k) eqn:Ek; [done|].
  fold (rep kids) in Hr.
  cbn [flat_map]. rewrite fmap_app, not_elem_of_app. split; [by apply Hk|].
  apply IHkids. by destruct (rep kids).
Qed.

Lemma replace_subtree_flat n X t t' :
  replace_subtree n X t = Some t' →
  ∃ u l1 l2, subtree n t = Some u ∧ flat t = l1 ++ flat u ++ l2 ∧ flat t' = l1 ++ flat X ++ l2.
Proof.
  revert t'. induction t as [m e kids IH] using dom_tree_ind. intros t'.
  cbn [replace_subtree subtree]. destruct (decide (m = n)) as [->|Hne].
  - intros [= <-]. exists (Elem n e kids), [], []. by rewrite !app_nil_r.
  - set (rep := (fix first (ks : list dom_tree) : option (list dom_tree) := _)).
    set (sub := (fix first (ks : list dom_tree) : option dom_tree := _)).
    assert (∀ kids', rep kids = Some kids' →
            ∃ u l1 l2, sub kids = Some u ∧ flat_map flat kids = l1 ++ flat u ++ l2
                       ∧ flat_map flat kids' = l1 ++ flat X ++ l2) as Hkids.
    { induction IH as [|k kids Hk _ IHkids]; intros kids' H; [done|].
      cbn in H |- *.
      destruct (replace_subtree n X k) as [k'|] eqn:Ek.
      - injection H as <-. destruct (Hk _ eq_refl) as (u & l1 & l2 & -> & E & E').
        exists u, l1, (l2 ++ flat_map flat kids). split; [done|].
        cbn [flat_map]. rewrite E, E'. by rewrite <- !app_assoc.
      - fold (rep kids) in H. fold (sub kids).
        destruct (rep kids) as [r|] eqn:Er; [|done]. injection H as <-.
        destruct (IHkids _ eq_refl) as (u & l1 & l2 & Hs & E & E').
        destruct (subtree n k) as [v|] eqn:Es.
        + exfalso. apply subtree_elem in Es. by apply (replace_subtree_None _ X) in Es.
        + exists u, (flat k ++ l1), l2. split; [done|].
          cbn [flat_map]. rewrite E, E'. by rewrite <- !app_assoc. }
    destruct (rep kids) as [kids'|] eqn:Er; [|done]. intros [= <-].
    destruct (Hkids _ eq_refl) as (u & l1 & l2 & Hs & E & E').
    exists u, ((m, e) :: l1), l2. split; [done|]. cbn [flat]. by rewrite E, E'.
Qed.

Section count.
Context (P : node * element → Prop) `{!∀ p, Decision (P p)}.

Lemma count_replace n X t t' u :
  replace_subtree n X t = Some t' → subtree n t = Some u →
  count P X = count P u → count P t' = count P t.
Proof.
  intros Hr Hs Hc. destruct (replace_subtree_flat _ _ _ _ Hr) as (u' & l1 & l2 & Hs' & E & E').
  assert (u' = u) as -> by congruence.
  unfold count in *. rewrite E, E', !filter_app, !length_app. lia.
Qed.

(** After a replacement by a tree with the same count, the subtree
    under any other node still has the count it had. *)
Lemma count_subtree_replace p X n t t' u0 v :
  NoDup (ids t) →
  replace_subtree p X t = Some t' → subtree p t = Some u0 → count P X = count P u0 →
  n ∉ ids X →
  subtree n t' = Some v →
  ∃ u, subtree n t = Some u ∧ count P v = count P u.
Proof.
  revert t' v. induction t as [m e kids IH] using dom_tree_ind.
  intros t' v Hnd Hr Hs Hc HnX Hv.
  pose proof (count_replace _ _ _ _ _ Hr Hs Hc) as Hcount.
  cbn [replace_subtree subtree] in Hr, Hs.
  destruct (decide (m = p)) as [->|Hmp].
  { injection Hr as <-. by apply subtree_elem in Hv. }
  destruct (decide (m = n)) as [->|Hmn].
  { exists (Elem n e kids). split.
    - cbn [subtree]. by rewrite decide_True.
    - destruct ((fix first (ks : list dom_tree) : option (list dom_tree) := _) kids);
        [|done]. injection Hr as <-. cbn [subtree] in Hv.
      rewrite decide_True in Hv by done. by injection Hv as <-. }
  cbn [subtree]. rewrite decide_False by done.
  set (rep := (fix first (ks : list dom_tree) : option (list dom_tree) := _)) in Hr.
  destruct (rep kids) as [kids'|] eqn:Er; [|done]. injection Hr as <-.
  cbn [subtree] in Hv. rewrite decide_False in Hv by done.
  unfold ids in Hnd. cbn [flat fmap list_fmap] in Hnd. apply NoDup_cons in Hnd as [_ Hnd].
  clear Hcount Hmp Hmn m e.
  revert kids' Er Hv Hs Hnd.
  induction IH as [|k kids Hk _ IHkids]; intros kids' Er Hv Hs Hnd; [done|].
  cbn [flat_map] in Hnd. rewrite fmap_app in Hnd.
  apply NoDup_app in Hnd as (Hnd1 & Hdisj & Hnd2).
  cbn in Er. destruct (replace_subtree p X k) as [k'|] eqn:Ek.
  - injection Er as <-.
    destruct (replace_subtree_flat _ _ _ _ Ek) as (u' & _ & _ & Hs' & _).
    rewrite Hs' in Hs. injection Hs as ->.
    destruct (subtree n k') as [w|] eqn:Ew.
    + injection Hv as ->. destruct (Hk _ _ Hnd1 eq_refl Hs' Hc HnX Ew) as (u & -> & Hu). eauto.
    + destruct (subtree n k) as [w|] eqn:Ew'.
      * exfalso. apply subtree_elem in Ew'.
        assert (n ∈ (flat_map flat kids).*1); [|by eapply Hdisj].
        clear -Hv. induction kids as [|k2 kids IHk]; [done|].
        cbn [flat_map]. rewrite fmap_app, elem_of_app.
        destruct (subtree n k2) eqn:E2; [left; by eapply subtree_elem | right; by apply IHk].
      * eauto.
  - fold (rep kids) in Er. destruct (rep kids) as [r|] eqn:Er'; [|done]. injection Er as <-.
    assert (subtree p k = None) as Hpk.
    { destruct (subtree p k) eqn:E; [|done].
      apply subtree_elem in E. by apply (replace_subtree_None _ X) in E. }
    rewrite Hpk in Hs.
    destruct (subtree n k) as [w|] eqn:Ew; [eauto|].
    by apply (IHkids r).
Qed.
End count.

(** ** Running script code *)

Lemma bind_run {A B} (m : Js A) (f : A → Js B) s :
  (m ≫= f) s = match m s with
               | (Normal a, s') => f a s'
               | (Throw e, s') => (Throw e, s')
               end.
Proof. reflexivity. Qed.

Lemma bind_normal {A B} (m : Js A) (f : A → Js B) s a s' :
  m s = (Normal a, s') → (m ≫= f) s = f a s'.
Proof. intros H. by rewrite bind_run, H. Qed.

Lemma forEach_run {A} (l : list A) (f : A → Js unit) s :
  (∀ x s, (f x s).1 = Normal tt) →
  forEach l f s = (Normal tt, fold_left (λ s x, (f x s).2) l s).
Proof.
  intros Hf. revert s. induction l as [|x l IH]; intros s; [done|].
  cbn [forEach fold_left]. rewrite bind_run.
  specialize (Hf x s). destruct (f x s) as [c s1]. cbn in Hf. subst c. apply IH.
Qed.


Lemma classList_remove_run n c s :
  classList_remove n c s
  = (Normal tt, set_trace (trace (page_win s) ++ [ClassRemove n c])
                  (modify_node n (remove_class c) s)).
Proof. reflexivity. Qed.

Lemma classList_add_run n c s :
  classList_add n c s
  = (Normal tt, set_trace (trace (page_win s) ++ [ClassAdd n c])
                  (modify_node n (add_class c) s)).
Proof. reflexivity. Qed.

Lemma emit_run c s :
  emit c s = (Normal tt, set_trace (trace (page_win s) ++ [c]) s).
Proof. reflexivity. Qed.

Lemma history_replaceState_run url s :
  history_replaceState url s
  = (Normal tt, set_trace (trace (page_win s) ++ [ReplaceState url])
                  (set_session_url (parse_fragment_url url) s)).
Proof. reflexivity. Qed.

Lemma window_scrollTo_run x y s :
  window_scrollTo x y s
  = (Normal tt, set_trace (trace (page_win s) ++ [ScrollTo x y]) (set_scrollY y s)).
Proof. reflexivity. Qed.

Lemma setTimeout_run cb ms s :
  setTimeout cb ms s = (Normal tt, set_timers (timers (page_win s) ++ [TimeoutTimer cb ms]) s).
Proof. reflexivity. Qed.

(** Removing a class from a list of elements, one after the other. *)
Lemma forEach_classList_remove c l s :
  let r := forEach l (λ n, classList_remove n c) s in
  r.1 = Normal tt ∧
  page_js r.2 = page_js s ∧
  document (page_dom r.2) = fold_left (λ t n, update n (remove_class c) t) l (document (page_dom s)) ∧
  next_node (page_dom r.2) = next_node (page_dom s) ∧
  trace (page_win r.2) = trace (page_win s) ++ ((λ n, ClassRemove n c) <$> l) ∧
  session_url (page_win r.2) = session_url (page_win s) ∧
  session_back (page_win r.2) = session_back (page_win s) ∧
  session_forward (page_win r.2) = session_forward (page_win s) ∧
  scrollY (page_win r.2) = scrollY (page_win s) ∧
  timers (page_win r.2) = timers (page_win s) ∧
  listeners (page_win r.2) = listeners (page_win s).
Proof.
  cbn zeta. rewrite forEach_run by done. cbn [fst snd]. split; [done|].
  revert s. induction l as [|n l IH]; intros s.
  - cbn. by rewrite app_nil_r.
  - cbn [fold_left fmap list_fmap].
    destruct (IH (classList_remove n c s).2) as (-> & -> & -> & -> & -> & -> & -> & -> & -> & ->).
    rewrite classList_remove_run. cbn. by rewrite <- app_assoc.
Qed.

(** ** Queries that a change of class, style or source does not affect *)

Lemma filter_fmap_fst (Q : node * element → Prop) `{!∀ p, Decision (Q p)}
    (g : node * element → node * element) (l : list (node * element)) :
  (∀ p, (g p).1 = p.1) → (∀ p, Q (g p) ↔ Q p) →
  (filter Q (g <$> l)).*1 = (filter Q l).*1.
Proof.
  intros Hfst HQ. induction l as [|p l IH]; [done|].
  cbn [fmap list_fmap]. rewrite !filter_cons.
  destruct (decide (Q p)) as [Hp|Hp].
  - rewrite decide_True by (by apply HQ). cbn. by rewrite Hfst, <- IH.
  - rewrite decide_False by (by rewrite HQ). apply IH.
Qed.

Lemma head_fmap_fst (l : list (node * element)) : fst <$> head l = head l.*1.
Proof. by destruct l. Qed.

Lemma update_entry_fst n f p : (update_entry n f p).1 = p.1.
Proof. unfold update_entry. by destruct (decide _). Qed.

Lemma update_entry_snd n f p :
  (update_entry n f p).2 = if decide (p.1 = n) then f p.2 else p.2.
Proof. unfold update_entry. by destruct (decide _). Qed.

Lemma find_id_update i n f t :
  (∀ e, el_id (f e) = el_id e) → find_id i (update n f t) = find_id i t.
Proof.
  intros Hf. unfold find_id. rewrite !head_fmap_fst, flat_update. f_equal.
  apply (filter_fmap_fst (λ p, el_id p.2 = i)); [apply update_entry_fst|].
  intros p. rewrite update_entry_snd. destruct (decide _); [by rewrite Hf | done].
Qed.

Lemma select_update sel n f t :
  simple sel = true → (∀ e, matches sel [] (f e) = matches sel [] e) →
  select sel [] (update n f t) = select sel [] t.
Proof.
  intros Hs Hf. rewrite !select_simple, flat_update by done.
  apply (filter_fmap_fst (λ p, matches sel [] p.2 = true)); [apply update_entry_fst|].
  intros p. rewrite update_entry_snd. destruct (decide _); [by rewrite Hf | done].
Qed.

Lemma find_id_fold i f l t :
  (∀ e, el_id (f e) = el_id e) →
  find_id i (fold_left (λ t n, update n f t) l t) = find_id i t.
Proof.
  intros Hf. revert t. induction l as [|n l IH]; intros t; [done|].
  cbn [fold_left]. by rewrite IH, find_id_update.
Qed.

Lemma select_fold sel f l t :
  simple sel = true → (∀ e, matches sel [] (f e) = matches sel [] e) →
  select sel [] (fold_left (λ t n, update n f t) l t) = select sel [] t.
Proof.
  intros Hs Hf. revert t. induction l as [|n l IH]; intros t; [done|].
  cbn [fold_left]. by rewrite IH, select_update.
Qed.

Lemma ids_fold f l t : ids (fold_left (λ t n, update n f t) l t) = ids t.
Proof.
  revert t. induction l as [|n l IH]; intros t; [done|].
  cbn [fold_left]. by rewrite IH, ids_update.
Qed.

Lemma elem_of_token_remove c x l : x ∈ token_remove c l ↔ x ∈ l ∧ x ≠ c.
Proof. unfold token_remove. rewrite list_elem_of_filter. tauto. Qed.

Lemma elem_of_token_add c x l : x ∈ token_add c l ↔ x ∈ l ∨ x = c.
Proof.
  unfold token_add. case_bool_decide as H.
  - split; [tauto|]. intros [?| ->]; done.
  - rewrite elem_of_app, list_elem_of_singleton. tauto.
Qed.

Lemma has_class_remove c d e : c ≠ d → has_class c (remove_class d e) = has_class c e.
Proof.
  intros Hne. unfold has_class, remove_class. cbn.
  apply bool_decide_ext. rewrite elem_of_token_remove. tauto.
Qed.

Lemma has_class_add c d e : c ≠ d → has_class c (add_class d e) = has_class c e.
Proof.
  intros Hne. unfold has_class, add_class. cbn.
  apply bool_decide_ext. rewrite elem_of_token_add. tauto.
Qed.

Lemma find_id_Some i t n : find_id i t = Some n → ∃ e, (n, e) ∈ flat t ∧ el_id e = i.
Proof.
  unfold find_id. destruct (filter _ (flat t)) as [|[m e] l] eqn:E; [done|].
  cbn. intros [= <-]. exists e.
  assert ((m, e) ∈ filter (λ p, el_id p.2 = i) (flat t)) as H by (rewrite E; left).
  by apply list_elem_of_filter in H as [? ?].
Qed.

Lemma find_id_ids i t n : find_id i t = Some n → n ∈ ids t.
Proof.
  intros H. destruct (find_id_Some _ _ _ H) as (e & He & _).
  unfold ids. apply list_elem_of_fmap. by exists (n, e).
Qed.

(** ** Code that only issues calls *)


Lemma emits_emit c : emits_only (emit c).
Proof. intros s. by exists [c]. Qed.

Lemma emits_ret : emits_only (mret tt).
Proof.
  intros s. exists []. rewrite app_nil_r. by destruct s as [? [] ?].
Qed.

Lemma emits_bind (m : Js unit) (k : unit → Js unit) :
  emits_only m → (∀ u, emits_only (k u)) → emits_only (m ≫= k).
Proof.
  intros Hm Hk s. destruct (Hm s) as [cs Hcs]. rewrite bind_run, Hcs.
  destruct (Hk tt (set_trace (trace (page_win s) ++ cs) s)) as [cs' Hcs'].
  rewrite Hcs'. exists (cs ++ cs'). cbn. by rewrite app_assoc.
Qed.

Lemma emits_read {A} (g : page → A) (k : A → Js unit) :
  (∀ a, emits_only (k a)) → emits_only (read g ≫= k).
Proof. intros Hk s. apply Hk. Qed.

Lemma emits_when b m : emits_only m → emits_only (when b m).
Proof. destruct b; [done|]. intros _. apply emits_ret. Qed.

Lemma animateBadge_emits :
  ∀ s, ∃ rest, animateBadge s
             = (Normal tt, set_trace (trace (page_win s) ++ EnterAnimateBadge :: rest) s).
Proof.
  intros s. unfold animateBadge. rewrite bind_run. cbn [emit write].
  match goal with |- ∃ _, ?k ?u ?s1 = _ => assert (emits_only (k u)) as Hk end.
  { unfold querySelector, querySelectorAll.
    apply emits_read; intros [bc|]; apply emits_read; intros [b|];
      try apply emits_ret.
    repeat (apply emits_bind; [apply emits_emit|intros _]).
    apply emits_read; intros detailItems.
    apply emits_bind; [apply emits_when, emits_emit|intros _].
    apply emits_read; intros [bb|];
      (apply emits_bind;
       [repeat first [apply emits_ret | apply emits_emit
                     | apply emits_bind; [apply emits_emit|intros _]]
       |intros _]);
      apply emits_read; intros [bp|]; first [apply emits_emit | apply emits_ret]. }
  destruct (Hk (set_trace (trace (page_win s) ++ [EnterAnimateBadge]) s)) as [cs ->].
  exists cs. cbn. by rewrite <- app_assoc.
Qed.

(** ** The view switch *)



Lemma originalShowView_spec viewId s :
  ∃ s', originalShowView viewId s = (Normal tt, s') ∧
        timers (page_win s') = timers (page_win s) ∧ view_switch viewId s s'.
Proof.
  unfold view_switch. cbn zeta. unfold originalShowView.
  rewrite bind_run. unfold querySelectorAll at 1, read at 1.
  rewrite bind_run.
  set (sections := select (SelClass "view-section") [] (document (page_dom s))).
  destruct (forEach_classList_remove "active" sections s)
    as (H1 & Hjs1 & Hdoc1 & Hnx1 & Htr1 & Hurl1 & Hb1 & Hf1 & Hy1 & Htm1 & Hls1).
  destruct (forEach sections _ s) as [c1 s1]. cbn [fst snd] in *. subst c1.
  rewrite bind_run. unfold querySelectorAll at 1, read at 1. rewrite bind_run.
  assert (select (SelClass "nav-item") [] (document (page_dom s1))
          = select (SelClass "nav-item") [] (document (page_dom s))) as Hitems.
  { rewrite Hdoc1. apply select_fold; [done|]. intros e. by apply has_class_remove. }
  rewrite Hitems.
  set (items := select (SelClass "nav-item") [] (document (page_dom s))).
  destruct (forEach_classList_remove "active" items s1)
    as (H2 & Hjs2 & Hdoc2 & Hnx2 & Htr2 & Hurl2 & Hb2 & Hf2 & Hy2 & Htm2 & Hls2).
  destruct (forEach items _ s1) as [c2 s2]. cbn [fst snd] in *. subst c2.
  assert (document (page_dom s2) = deactivated (document (page_dom s))) as Hdoc.
  { by rewrite Hdoc2, Hdoc1. }
  assert (trace (page_win s2) = trace (page_win s) ++ deactivations (document (page_dom s)))
    as Htr.
  { rewrite Htr2, Htr1. unfold deactivations. by rewrite <- app_assoc. }
  assert (∀ i, find_id i (document (page_dom s2)) = find_id i (document (page_dom s))) as Hfind.
  { intros i. rewrite Hdoc. unfold deactivated. by rewrite !find_id_fold. }
  rewrite bind_run. unfold getElementById at 1, read at 1.
  rewrite bind_run. unfold getElementById at 1, read at 1.
  rewrite !Hfind.
  destruct (find_id ("view-" +:+ viewId) (document (page_dom s))) as [tv|]; cycle 1.
  { exists s2. cbn. rewrite Hjs2, Hnx2, Hb2, Hf2, Htm2, Hls2, Hurl2, Hy2. by repeat split. }
  rewrite bind_run, classList_add_run. cbn beta iota.
  set (s3 := set_trace _ _).
  rewrite bind_run.
  assert (∃ s4, match find_id ("link-" +:+ viewId) (document (page_dom s)) with
                | Some tl => classList_add tl "active"
                | None => mret tt
                end s3 = (Normal tt, s4) ∧
          page_js s4 = page_js s2 ∧ next_node (page_dom s4) = next_node (page_dom s2) ∧
          session_back (page_win s4) = session_back (page_win s2) ∧
          session_forward (page_win s4) = session_forward (page_win s2) ∧
          timers (page_win s4) = timers (page_win s2) ∧
          listeners (page_win s4) = listeners (page_win s2) ∧
          document (page_dom s4)
          = match find_id ("link-" +:+ viewId) (document (page_dom s)) with
            | Some tl => update tl (add_class "active")
                           (update tv (add_class "active") (document (page_dom s2)))
            | None => update tv (add_class "active") (document (page_dom s2))
            end ∧
          trace (page_win s4)
          = trace (page_win s2) ++ [ClassAdd tv "active"] ++
            match find_id ("link-" +:+ viewId) (document (page_dom s)) with
            | Some tl => [ClassAdd tl "active"]
            | None => []
            end) as (s4 & -> & Hjs4 & Hnx4 & Hb4 & Hf4 & Htm4 & Hls4 & Hdoc4 & Htr4).
  { destruct (find_id ("link-" +:+ viewId) (document (page_dom s))) as [tl|].
    - eexists. split; [apply classList_add_run|]. cbn. rewrite <- app_assoc. by repeat split.
    - eexists. split; [reflexivity|]. cbn. by repeat split. }
  rewrite bind_run, history_replaceState_run. cbn beta iota.
  rewrite bind_run, window_scrollTo_run. cbn beta iota.
  rewrite bind_run, emit_run. cbn beta iota.
  rewrite bind_run.
  match goal with |- context [when _ _ ?S] => set (s5 := S) end.
  assert (∃ hook, when (bool_decide (viewId = "about")) animateBadge s5
                  = (Normal tt, set_trace (trace (page_win s5) ++ hook) s5) ∧
                  if bool_decide (viewId = "about") then ∃ rest, hook = EnterAnimateBadge :: rest
                  else hook = []) as (hook & -> & Hhook).
  { unfold when. destruct (bool_decide (viewId = "about")).
    - destruct (animateBadge_emits s5) as [rest ->]. eauto.
    - exists []. split; [|done]. cbn. rewrite app_nil_r. subst s5. by destruct s4 as [? [] ?]. }
  rewrite emit_run.
  eexists. split; [reflexivity|].
  cbn. rewrite Hjs4, Hjs2, Hnx4, Hnx2, Hb4, Hb2, Hf4, Hf2, Htm4, Htm2, Hls4, Hls2.
  repeat split; try done.
  exists hook. rewrite Hdoc4, Htr4, Hdoc, Htr. repeat split; try done.
  rewrite <- !app_assoc. cbn. done.
Qed.

Lemma view_switch_timers viewId s s' v :
  view_switch viewId s s' → view_switch viewId s (set_timers v s').
Proof. done. Qed.

Lemma baseShowView_spec viewId s :
  ∃ s', baseShowView viewId s = (Normal tt, s') ∧
        timers (page_win s')
        = timers (page_win s) ++ [TimeoutTimer cb_initRefinedInteractions 100] ∧
        view_switch viewId s s'.
Proof.
  destruct (originalShowView_spec viewId s) as (s1 & Hrun & Htm & Hsw).
  unfold baseShowView. rewrite bind_run, Hrun, setTimeout_run.
  eexists. split; [reflexivity|]. split; [cbn; by rewrite Htm|].
  by apply view_switch_timers.
Qed.

Lemma showView_projects_spec viewId s :
  ∃ s', showView_projects viewId s = (Normal tt, s') ∧
        timers (page_win s')
        = timers (page_win s) ++ [TimeoutTimer cb_initRefinedInteractions 100] ++
          (if bool_decide (viewId = "projects") then [TimeoutTimer cb_initProjectsSlider 100]
           else []) ∧
        view_switch viewId s s'.
Proof.
  destruct (baseShowView_spec viewId s) as (s1 & Hrun & Htm & Hsw).
  unfold showView_projects, when. rewrite bind_run, Hrun.
  case_bool_decide.
  - rewrite setTimeout_run. eexists. split; [reflexivity|].
    split; [cbn; by rewrite Htm, <- app_assoc|]. by apply view_switch_timers.
  - exists s1. split; [done|]. split; [by rewrite Htm, app_nil_r | done].
Qed.

Lemma showView_spec viewId s :
  ∃ s', showView viewId s = (Normal tt, s') ∧ view_switch viewId s s'.
Proof.
  unfold showView. rewrite bind_run. cbn [read].
  destruct (showView_var (page_js s)).
  - destruct (originalShowView_spec viewId s) as (s' & ? & ? & ?). eauto.
  - destruct (baseShowView_spec viewId s) as (s' & ? & ? & ?). eauto.
  - destruct (showView_projects_spec viewId s) as (s' & ? & ? & ?). eauto.
Qed.

(** ** Which elements are active after a view switch *)

Lemma flat_fold_update f l t :
  flat (fold_left (λ t n, update n f t) l t)
  = (λ p, fold_left (λ q n, update_entry n f q) l p) <$> flat t.
Proof.
  revert t. induction l as [|n l IH]; intros t.
  - cbn. by rewrite list_fmap_id.
  - cbn [fold_left]. rewrite IH, flat_update, <- list_fmap_compose. done.
Qed.

Lemma entry_fold_remove c l p :
  let q := fold_left (λ q n, update_entry n (remove_class c) q) l p in
  q.1 = p.1 ∧ el_id q.2 = el_id p.2 ∧
  ∀ x, x ∈ classList q.2 ↔ x ∈ classList p.2 ∧ (x ≠ c ∨ p.1 ∉ l).
Proof.
  cbn zeta. revert p. induction l as [|n l IH]; intros p.
  - cbn. split; [done|]. split; [done|]. intros x. split; [|tauto].
    intros ?. split; [done|]. right. apply not_elem_of_nil.
  - cbn [fold_left]. destruct (IH (update_entry n (remove_class c) p)) as (H1 & H2 & H3).
    rewrite H1, H2, update_entry_fst. split; [done|].
    rewrite update_entry_snd. split; [by destruct (decide _)|].
    intros x. rewrite H3, update_entry_fst, update_entry_snd, not_elem_of_cons.
    destruct (decide (p.1 = n)) as [->|Hne].
    + unfold remove_class. cbn. rewrite elem_of_token_remove. tauto.
    + split; [|tauto]. intros [? [?|?]]; split; try done; [by left | right; split; congruence].
Qed.

Lemma elem_of_select_class c t m :
  m ∈ select (SelClass c) [] t ↔ ∃ e, (m, e) ∈ flat t ∧ c ∈ classList e.
Proof.
  rewrite select_simple by done. rewrite list_elem_of_fmap. split.
  - intros ([m' e] & -> & H). apply list_elem_of_filter in H as [Hc H].
    exists e. split; [done|]. cbn in Hc. unfold has_class in Hc.
    by apply bool_decide_eq_true in Hc.
  - intros (e & H & Hc). exists (m, e). split; [done|].
    apply list_elem_of_filter. split; [|done]. cbn. unfold has_class.
    by apply bool_decide_eq_true.
Qed.

Lemma NoDup_ids_entry t n e1 e2 :
  NoDup (ids t) → (n, e1) ∈ flat t → (n, e2) ∈ flat t → e1 = e2.
Proof.
  unfold ids. induction (flat t) as [|[m e] l IH]; [by intros _ H; inversion H|].
  cbn [fmap list_fmap fst]. rewrite NoDup_cons. intros [Hm Hnd].
  rewrite !elem_of_cons.
  intros [H1|H1] [H2|H2].
  - congruence.
  - exfalso. apply Hm. apply list_elem_of_fmap. exists (n, e2). split; [|done].
    cbn. congruence.
  - exfalso. apply Hm. apply list_elem_of_fmap. exists (n, e1). split; [|done].
    cbn. congruence.
  - by apply IH.
Qed.

(** The entries of the tree after the deactivation step. *)
Lemma deactivated_entries doc :
  ∃ g : node * element → node * element,
    flat (deactivated doc) = g <$> flat doc ∧
    ∀ p, (g p).1 = p.1 ∧ el_id (g p).2 = el_id p.2 ∧
         ("active" ∈ classList (g p).2 ↔
          "active" ∈ classList p.2 ∧
          (p.1 ∉ (select (SelClass "view-section") [] doc)) ∧
          (p.1 ∉ (select (SelClass "nav-item") [] doc))).
Proof.
  unfold deactivated. eexists. split.
  - rewrite !flat_fold_update, <- list_fmap_compose. reflexivity.
  - intros p. cbn.
    set (l1 := select (SelClass "view-section") [] doc).
    set (l2 := select (SelClass "nav-item") [] doc).
    destruct (entry_fold_remove "active" l1 p) as (A1 & A2 & A3).
    destruct (entry_fold_remove "active" l2
                (fold_left (λ q n, update_entry n (remove_class "active") q) l1 p))
      as (B1 & B2 & B3).
    cbn zeta in *. rewrite B1, A1, B2, A2. split; [done|]. split; [done|].
    rewrite B3, A3, A1. tauto.
Qed.

Lemma update_add_entries n t :
  ∃ g : node * element → node * element,
    flat (update n (add_class "active") t) = g <$> flat t ∧
    ∀ p, (g p).1 = p.1 ∧ el_id (g p).2 = el_id p.2 ∧
         ("active" ∈ classList (g p).2 ↔ "active" ∈ classList p.2 ∨ p.1 = n).
Proof.
  exists (update_entry n (add_class "active")). split; [apply flat_update|].
  intros p. rewrite update_entry_fst, update_entry_snd. split; [done|].
  destruct (decide (p.1 = n)) as [->|Hne].
  - split; [done|]. unfold add_class. cbn. rewrite elem_of_token_add. tauto.
  - split; [done|]. tauto.
Qed.

Lemma link_is_no_view viewId e : el_id e = "link-" +:+ viewId → ¬ is_view e.
Proof. unfold is_view. intros ->. cbn. done. Qed.

Lemma view_switch_active viewId s s' tv :
  NoDup (ids (document (page_dom s))) → views_marked (document (page_dom s)) →
  find_id ("view-" +:+ viewId) (document (page_dom s)) = Some tv →
  view_switch viewId s s' →
  only_active_view tv viewId (document (page_dom s')).
Proof.
  intros Hnd Hmark Htv (_ & _ & _ & _ & _ & Hsw). cbn zeta in Hsw. rewrite Htv in Hsw.
  destruct Hsw as (hook & Hdoc & _).
  set (doc := document (page_dom s)) in *.
  destruct (deactivated_entries doc) as (g0 & E0 & G0).
  destruct (update_add_entries tv (deactivated doc)) as (g1 & E1 & G1).
  destruct (find_id_Some _ _ _ Htv) as (etv & Hetv & Hidtv).
  (* the entries of the final tree *)
  assert (∃ g : node * element → node * element,
            flat (document (page_dom s')) = g <$> flat doc ∧
            ∀ p, p ∈ flat doc →
              (g p).1 = p.1 ∧ el_id (g p).2 = el_id p.2 ∧
              (is_view p.2 → ("active" ∈ classList (g p).2 ↔ p.1 = tv))) as (g & E & G).
  { assert (∀ p, p ∈ flat doc → is_view p.2 →
              ("active" ∈ classList (g1 (g0 p)).2 ↔ p.1 = tv)) as Hcore.
    { intros [m e] Hp Hv. cbn [fst snd] in *.
      destruct (G1 (g0 (m, e))) as (_ & _ & ->). destruct (G0 (m, e)) as (-> & _ & ->).
      cbn [fst snd]. split; [|tauto]. intros [(_ & Hsec & _)|?]; [|done].
      exfalso. apply Hsec. apply elem_of_select_class. exists e. split; [done|].
      by apply (Hmark m). }
    destruct (find_id ("link-" +:+ viewId) doc) as [tl|] eqn:Htl.
    - destruct (update_add_entries tl (update tv (add_class "active") (deactivated doc)))
        as (g2 & E2 & G2).
      exists (λ p, g2 (g1 (g0 p))). split.
      { rewrite Hdoc, E2, E1, E0, <- !list_fmap_compose. done. }
      intros [m e] Hp. cbn [fst snd].
      destruct (G2 (g1 (g0 (m, e)))) as (-> & -> & A2).
      destruct (G1 (g0 (m, e))) as (F1 & I1 & _). destruct (G0 (m, e)) as (F0 & I0 & _).
      rewrite F1, F0, I1, I0. cbn [fst snd]. split; [done|]. split; [done|].
      intros Hv. rewrite A2, F1, F0. cbn [fst].
      rewrite (Hcore (m, e) Hp Hv). cbn [fst]. split; [|tauto].
      intros [?| ->]; [done|]. exfalso.
      destruct (find_id_Some _ _ _ Htl) as (el & Hel & Hidl).
      rewrite (NoDup_ids_entry _ _ _ _ Hnd Hp Hel) in Hv.
      by apply (link_is_no_view viewId el).
    - exists (λ p, g1 (g0 p)). split.
      { rewrite Hdoc, E1, E0, <- !list_fmap_compose. done. }
      intros [m e] Hp. cbn [fst snd].
      destruct (G1 (g0 (m, e))) as (-> & -> & _). destruct (G0 (m, e)) as (-> & -> & _).
      cbn [fst snd]. split; [done|]. split; [done|].
      intros Hv. apply (Hcore (m, e) Hp Hv). }
  assert (is_view etv) as Hvtv.
  { unfold is_view. rewrite Hidtv. by destruct viewId. }
  split.
  - exists (g (tv, etv)).2. destruct (G _ Hetv) as (F & I & A). cbn [fst snd] in *.
    split; [|split].
    + rewrite E. apply list_elem_of_fmap. exists (tv, etv). split; [|done].
      clear -F. revert F. destruct (g (tv, etv)) as [a b]. cbn. by intros ->.
    + by rewrite I.
    + by apply A.
  - intros m e Hme Hv. rewrite E in Hme. apply list_elem_of_fmap in Hme as (p & Hp & Hin).
    destruct (G _ Hin) as (F & I & A).
    assert (m = (g p).1 ∧ e = (g p).2) as [-> ->] by (by rewrite <- Hp).
    rewrite F. apply A. unfold is_view in *. by rewrite <- I.
Qed.

(** ** Invariants of script code *)

Lemma preserves_ret {A} P (a : A) : preserves P (mret a).
Proof. by intros s. Qed.

Lemma preserves_throw {A} P e : preserves P (throw (A:=A) e).
Proof. by intros s. Qed.

Lemma preserves_read {A} P (g : page → A) : preserves P (read g).
Proof. by intros s. Qed.

Lemma preserves_bind {A B} P (m : Js A) (k : A → Js B) :
  preserves P m → (∀ a, preserves P (k a)) → preserves P (m ≫= k).
Proof.
  intros Hm Hk s Hs. rewrite bind_run. specialize (Hm s Hs).
  destruct (m s) as [[a|e] s1]; cbn in *; [by apply Hk | done].
Qed.

Lemma preserves_deref {A} P what (o : option A) : preserves P (deref what o).
Proof. destruct o; [apply preserves_ret | apply preserves_throw]. Qed.

Lemma preserves_forEach {A} P (l : list A) (f : A → Js unit) :
  (∀ x, x ∈ l → preserves P (f x)) → preserves P (forEach l f).
Proof.
  induction l as [|x l IH]; intros Hf; [apply preserves_ret|].
  cbn [forEach]. apply preserves_bind; [apply Hf; left|].
  intros _. apply IH. intros y Hy. apply Hf. by right.
Qed.

Lemma preserves_when P b m : preserves P m → preserves P (when b m).
Proof. destruct b; [done|]. intros _. apply preserves_ret. Qed.

Lemma preserves_write P f : (∀ s, P s → P (f s)) → preserves P (write f).
Proof. intros H s Hs. by apply H. Qed.

(** Splitting a goal [preserves P m] along the structure of [m]. *)
Ltac preserves_step :=
  lazymatch goal with
  | |- preserves _ (mret _) => apply preserves_ret
  | |- preserves _ (throw _) => apply preserves_throw
  | |- preserves _ (read _) => apply preserves_read
  | |- preserves _ (deref _ _) => apply preserves_deref
  | |- preserves _ (_ ≫= _) => apply preserves_bind; [|intros ?]
  | |- preserves _ (forEach _ _) => apply preserves_forEach; intros ? ?
  | |- preserves _ (when _ _) => apply preserves_when
  | |- preserves _ (match ?x with _ => _ end) => destruct x
  | |- preserves _ (match ?x with _ => _ end _) => destruct x
  | |- preserves _ (getElementById _) => apply preserves_read
  | |- preserves _ (querySelectorAll _) => apply preserves_read
  | |- preserves _ (querySelector _) => apply preserves_read
  | |- preserves _ document_body => apply preserves_read
  | |- preserves _ location_hash => apply preserves_read
  | |- preserves _ (parentNode _) => apply preserves_read
  | |- preserves _ (getAttribute_data_img _) => apply preserves_read
  end.


Lemma sketch_update n f t :
  (∀ e, has_class "project-slide-item" (f e) = has_class "project-slide-item" e) →
  sketch (update n f t) = sketch t.
Proof.
  intros Hf. unfold sketch. rewrite flat_update, <- list_fmap_compose.
  apply list_fmap_ext. intros _ p _. cbn. rewrite update_entry_fst, update_entry_snd.
  destruct (decide _); [by rewrite Hf | done].
Qed.

Lemma quiet_modify n f s :
  (∀ e, has_class "project-slide-item" (f e) = has_class "project-slide-item" e) →
  quiet s (modify_node n f s).
Proof.
  intros Hf. unfold quiet, modify_node, on_dom.
  cbn [page_js page_win page_dom document next_node]. by rewrite sketch_update.
Qed.

Ltac quiet_tac :=
  intros; first
    [ apply quiet_modify; intros ?;
      first [ reflexivity | apply has_class_add; discriminate
            | apply has_class_remove; discriminate ]
    | by unfold quiet ].

Section invariant.
Context (P : page → Prop) (ok : closure → Prop).
Hypothesis P_quiet : ∀ s s', quiet s s' → P s → P s'.
Hypothesis P_listen : ∀ t ty c, ok c → preserves P (addEventListener t ty c).

Local Ltac by_quiet :=
  lazymatch goal with
  | |- preserves _ (write _) =>
      apply preserves_write; intros s Hs; apply (P_quiet s); [quiet_tac | exact Hs]
  end.

Lemma pres_emit c : preserves P (emit c).
Proof. unfold emit. by_quiet. Qed.

Lemma pres_classList_add n c : c ≠ "project-slide-item" → preserves P (classList_add n c).
Proof.
  intros Hc. apply preserves_bind; [|intros _; apply pres_emit].
  apply preserves_write; intros s Hs; apply (P_quiet s); [|done].
  apply quiet_modify. intros e. by apply has_class_add.
Qed.

Lemma pres_classList_remove n c :
  c ≠ "project-slide-item" → preserves P (classList_remove n c).
Proof.
  intros Hc. apply preserves_bind; [|intros _; apply pres_emit].
  apply preserves_write; intros s Hs; apply (P_quiet s); [|done].
  apply quiet_modify. intros e. by apply has_class_remove.
Qed.

Lemma pres_style_opacity n v : preserves P (set_style_opacity n v).
Proof. apply preserves_bind; [by_quiet | intros _; apply pres_emit]. Qed.

Lemma pres_style_pointerEvents n v : preserves P (set_style_pointerEvents n v).
Proof. apply preserves_bind; [by_quiet | intros _; apply pres_emit]. Qed.

Lemma pres_style_transform n v : preserves P (set_style_transform n v).
Proof. apply preserves_bind; [by_quiet | intros _; apply pres_emit]. Qed.

Lemma pres_set_src n v : preserves P (set_src n v).
Proof. apply preserves_bind; [by_quiet | intros _; apply pres_emit]. Qed.

Lemma pres_replaceState url : preserves P (history_replaceState url).
Proof. apply preserves_bind; [by_quiet | intros _; apply pres_emit]. Qed.

Lemma pres_scrollTo x y : preserves P (window_scrollTo x y).
Proof. apply preserves_bind; [by_quiet | intros _; apply pres_emit]. Qed.

Lemma pres_setTimeout cb ms : preserves P (setTimeout cb ms).
Proof. unfold setTimeout. by_quiet. Qed.

Lemma pres_setInterval name ms : preserves P (setInterval name ms).
Proof. unfold setInterval. by_quiet. Qed.

Local Ltac pres :=
  repeat first
    [ preserves_step
    | apply pres_emit
    | apply pres_classList_add; discriminate
    | apply pres_classList_remove; discriminate
    | apply pres_style_opacity | apply pres_style_pointerEvents
    | apply pres_style_transform | apply pres_set_src
    | apply pres_replaceState | apply pres_scrollTo
    | apply pres_setTimeout | apply pres_setInterval
    | by_quiet ].

Lemma pres_animateBadge : preserves P animateBadge.
Proof. unfold animateBadge. pres. Qed.

Lemma pres_originalShowView viewId : preserves P (originalShowView viewId).
Proof. unfold originalShowView. pres. apply pres_animateBadge. Qed.

Lemma pres_baseShowView viewId : preserves P (baseShowView viewId).
Proof. unfold baseShowView. pres. apply pres_originalShowView. Qed.

Lemma pres_showView_projects viewId : preserves P (showView_projects viewId).
Proof. unfold showView_projects. pres. apply pres_baseShowView. Qed.

Lemma pres_showView viewId : preserves P (showView viewId).
Proof.
  unfold showView. pres.
  - apply pres_originalShowView.
  - apply pres_baseShowView.
  - apply pres_showView_projects.
Qed.

Lemma pres_toggleMobileMenu targetView : preserves P (toggleMobileMenu targetView).
Proof. unfold toggleMobileMenu. pres. Qed.

Lemma pres_showMessageModal : preserves P showMessageModal.
Proof. unfold showMessageModal. pres. Qed.

Lemma pres_showErrorModal : preserves P showErrorModal.
Proof. unfold showErrorModal. pres. Qed.

Lemma pres_closeMessageModal : preserves P closeMessageModal.
Proof. unfold closeMessageModal. pres. Qed.

Lemma pres_closeErrorModal : preserves P closeErrorModal.
Proof. unfold closeErrorModal. pres. Qed.

Lemma pres_settle r fulfilled : preserves P (settle r fulfilled).
Proof.
  unfold settle. pres; first [apply pres_showMessageModal | apply pres_showErrorModal].
Qed.

Lemma pres_contact_form_submit this : preserves P (contact_form_submit this).
Proof. unfold contact_form_submit. pres. Qed.

Lemma pres_updateSlider env : preserves P (updateSlider env).
Proof. unfold updateSlider. pres. Qed.

Lemma pres_DOMContentLoaded : preserves P DOMContentLoaded_listener.
Proof. unfold DOMContentLoaded_listener. pres; apply pres_showView. Qed.

Lemma pres_scroll_listener navbar : preserves P (scroll_listener navbar).
Proof. unfold scroll_listener. pres. Qed.

Lemma pres_touchstart env x : preserves P (slider_touchstart_handler env x).
Proof. unfold slider_touchstart_handler. pres. Qed.

Hypothesis ok_plain : ∀ c,
  match c with
  | slider_next _ | slider_prev _ | slider_touchstart _ | slider_touchend _
  | slider_resize _ => True
  | _ => ok c
  end.

Lemma pres_initRefinedInteractions : preserves P initRefinedInteractions.
Proof.
  unfold initRefinedInteractions. pres; apply P_listen.
  - apply (ok_plain (interactive_mouseenter _)).
  - apply (ok_plain (interactive_mouseleave _)).
  - apply (ok_plain (interactive_mousemove _)).
Qed.

Lemma pres_initPreloader : preserves P initPreloader.
Proof. unfold initPreloader. pres. apply P_listen, (ok_plain preloader_load). Qed.

Hypothesis P_ok : ∀ s, P s → Forall (λ l, ok (l_closure l)) (listeners (page_win s)).
Hypothesis P_init : preserves P initProjectsSlider.
Hypothesis P_next : ∀ env, ok (slider_next env) → preserves P (slider_next_click env).
Hypothesis P_prev : ∀ env, ok (slider_prev env) → preserves P (slider_prev_click env).
Hypothesis P_touchend : ∀ env x,
  ok (slider_touchend env) → preserves P (slider_touchend_handler env x).
Hypothesis P_reset : preserves P (write (set_currentProjectIndex 0)).

Lemma pres_run_closure c this x : ok c → preserves P (run_closure c this x).
Proof.
  intros Hc. destruct c; cbn [run_closure].
  - pres.
  - apply pres_DOMContentLoaded.
  - pres.
  - pres.
  - pres.
  - pres.
  - apply pres_scroll_listener.
  - pres.
  - pres.
  - apply pres_toggleMobileMenu.
  - apply pres_contact_form_submit.
  - by apply P_next.
  - by apply P_prev.
  - apply pres_touchstart.
  - by apply P_touchend.
  - apply pres_updateSlider.
  - apply P_init.
Qed.

Lemma pres_dispatch t ty x s : P s → P (dispatch t ty x s).
Proof.
  intros Hs. unfold dispatch.
  pose proof (P_ok s Hs) as Hok.
  assert (Forall (λ l, ok (l_closure l))
            (filter (λ l, l_target l = t ∧ l_type l = ty) (listeners (page_win s)))) as Hf.
  { apply Forall_forall. intros l Hl. apply list_elem_of_filter in Hl as [_ Hl].
    by apply (proj1 (Forall_forall _ _) Hok). }
  assert (P (set_defaultPrevented false s)) as Hs0.
  { apply (P_quiet s); [by unfold quiet | done]. }
  revert Hs0. generalize (set_defaultPrevented false s).
  induction Hf as [|l ls Hl _ IH]; intros s0 Hs0; [done|].
  cbn [fold_left]. apply IH. by apply pres_run_closure.
Qed.

Lemma pres_run_callback cb : preserves P (run_callback cb).
Proof.
  destruct cb; cbn [run_callback];
    [apply pres_initRefinedInteractions | apply P_init | apply pres_showView].
Qed.

Lemma pres_step i s : P s → P (step i s).
Proof.
  intros Hs. destruct i; cbn [step].
  - by apply pres_dispatch.
  - apply pres_dispatch. apply (P_quiet s); [by unfold quiet | done].
  - by apply pres_run_callback.
  - by apply pres_settle.
  - by apply pres_showView.
  - by apply pres_toggleMobileMenu.
  - by apply pres_closeMessageModal.
  - by apply pres_closeErrorModal.
Qed.

Lemma pres_run inputs s : P s → P (run inputs s).
Proof.
  revert s. induction inputs as [|i inputs IH]; intros s Hs; [done|].
  cbn [run fold_left]. apply IH. by apply pres_step.
Qed.

Lemma pres_script : preserves P script.
Proof.
  unfold script. pres;
    first [ apply pres_initPreloader | apply pres_initRefinedInteractions
          | apply P_reset | apply P_listen ].
  - apply (ok_plain on_DOMContentLoaded).
  - apply (ok_plain (hero_mousemove _ _)).
  - apply (ok_plain (window_scroll _)).
  - apply (ok_plain (preview_mouseenter _ _ _)).
  - apply (ok_plain (preview_mouseleave _)).
  - apply (ok_plain menuTrigger_click).
  - apply (ok_plain contact_submit).
  - apply (ok_plain window_load).
Qed.
End invariant.

(** ** The slider invariant *)


Lemma slide_count_count s : slide_count s = count is_slide (document (page_dom s)).
Proof. unfold slide_count, count. by rewrite select_simple, length_fmap. Qed.

Lemma ids_sketch t : (sketch t).*1 = ids t.
Proof. unfold sketch, ids. rewrite <- list_fmap_compose. by apply list_fmap_ext. Qed.

Lemma count_sketch t : count is_slide t = length (filter (λ q, q.2 = true) (sketch t)).
Proof.
  unfold count, sketch. induction (flat t) as [|p l IH]; [done|].
  cbn [fmap list_fmap]. rewrite !filter_cons. cbn [snd]. unfold is_slide at 1.
  destruct (decide (has_class _ p.2 = true)); cbn; by rewrite IH.
Qed.

Lemma slider_inv_quiet n s s' : quiet s s' → slider_inv n s → slider_inv n s'.
Proof.
  intros (Hi & Hl & _ & _ & Hnx & Hsk) [[Hnd Hb] Hc Hidx Hcl].
  split.
  - unfold wf_doc. rewrite <- !ids_sketch, Hsk, Hnx, !ids_sketch. done.
  - rewrite slide_count_count, count_sketch, Hsk, <- count_sketch, <- slide_count_count. done.
  - by rewrite Hi.
  - by rewrite Hl.
Qed.

Lemma slider_inv_listen n t ty c :
  slider_closure_ok n c → preserves (slider_inv n) (addEventListener t ty c).
Proof.
  intros Hc s [Hwf Hcount Hidx Hcl]. split; try done.
  cbn. apply Forall_app. split; [done|]. by constructor.
Qed.

Lemma slider_inv_index n i s :
  0 ≤ i < Z.of_nat n → slider_inv n s → slider_inv n (set_currentProjectIndex i s).
Proof. intros Hi [Hwf Hcount Hidx Hcl]. by split. Qed.

Lemma slider_inv_next n env :
  slider_closure_ok n (slider_next env) → preserves (slider_inv n) (slider_next_click env).
Proof.
  cbn. intros Hlen s Hs. unfold slider_next_click. rewrite bind_run. cbn [read].
  unfold when. case_bool_decide as Hlt; [|done].
  rewrite bind_run. cbn [write].
  apply (pres_updateSlider _ (slider_inv_quiet n)).
  apply slider_inv_index; [|done]. destruct Hs as [_ _ Hidx _]. lia.
Qed.

Lemma slider_inv_prev n env :
  slider_closure_ok n (slider_prev env) → preserves (slider_inv n) (slider_prev_click env).
Proof.
  cbn. intros Hlen s Hs. unfold slider_prev_click. rewrite bind_run. cbn [read].
  unfold when. case_bool_decide as Hlt; [|done].
  rewrite bind_run. cbn [write].
  apply (pres_updateSlider _ (slider_inv_quiet n)).
  apply slider_inv_index; [|done]. destruct Hs as [_ _ Hidx _]. lia.
Qed.

Lemma slider_inv_touchend n env x :
  slider_closure_ok n (slider_touchend env) →
  preserves (slider_inv n) (slider_touchend_handler env x).
Proof.
  cbn. intros Hlen s Hs. unfold slider_touchend_handler. rewrite bind_run. cbn [read].
  destruct (default (0, false) (drags (page_js s) !! drag env)) as [startX isDragging].
  destruct isDragging; [|done]. cbn [negb].
  revert s Hs. apply preserves_bind; [|intros _; apply preserves_write].
  - apply preserves_when. intros s Hs. rewrite bind_run. cbn [read].
    pose proof (inv_index _ _ Hs) as Hidx.
    repeat case_bool_decide; cbn [andb]; rewrite bind_run; cbn [write mret Js_ret];
      apply (pres_updateSlider _ (slider_inv_quiet n));
      try done; apply slider_inv_index; try done; lia.
  - intros s Hs. by apply (slider_inv_quiet n s).
Qed.

Lemma lookup_tree_attached n d :
  n ∈ ids (document d) → ∃ u, lookup_tree n d = Some u ∧ subtree n (document d) = Some u.
Proof.
  intros H. destruct (subtree_is_Some _ _ H) as [u Hu]. exists u.
  unfold lookup_tree. by rewrite Hu.
Qed.

Lemma ids_clone off t : ids (clone_tree off t) = (λ m, (off + m)%nat) <$> ids t.
Proof. unfold ids. rewrite flat_clone, <- !list_fmap_compose. done. Qed.

Lemma count_clone off t : count is_slide (clone_tree off t) = count is_slide t.
Proof.
  unfold count. rewrite flat_clone. induction (flat t) as [|p l IH]; [done|].
  cbn [map]. rewrite !filter_cons. unfold is_slide at 1 3. cbn [snd].
  destruct (decide _); cbn; by rewrite IH.
Qed.

Lemma subtree_ids n t u :
  subtree n t = Some u → ∃ l1 l2, ids t = l1 ++ ids u ++ l2.
Proof.
  intros H. destruct (subtree_flat _ _ _ H) as [_ (l1 & l2 & E)].
  exists l1.*1, l2.*1. unfold ids. by rewrite E, !fmap_app.
Qed.

(** Replacing a subtree by a tree of new nodes keeps the identities
    distinct. *)
Lemma wf_replace old X t t' b b' :
  NoDup (ids t) → Forall (λ m, (m < b)%nat) (ids t) →
  replace_subtree old X t = Some t' →
  NoDup (ids X) → Forall (λ m, (b ≤ m < b')%nat) (ids X) → (b ≤ b')%nat →
  NoDup (ids t') ∧ Forall (λ m, (m < b')%nat) (ids t').
Proof.
  intros Hnd Hb Hr HndX HbX Hbb.
  destruct (replace_subtree_flat _ _ _ _ Hr) as (u & l1 & l2 & _ & E & E').
  unfold ids in *. rewrite E in Hnd, Hb. rewrite E'.
  rewrite !fmap_app in *.
  apply NoDup_app in Hnd as (Hn1 & Hd1 & Hnd). apply NoDup_app in Hnd as (Hnu & Hd2 & Hn2).
  apply Forall_app in Hb as [Hb1 Hb]. apply Forall_app in Hb as [Hbu Hb2].
  rewrite Forall_forall in Hb1, Hb2, HbX.
  split.
  - apply NoDup_app. split; [done|]. split.
    + intros m Hm. rewrite elem_of_app. intros [HmX|Hm2].
      * specialize (Hb1 _ Hm). specialize (HbX _ HmX). lia.
      * apply (Hd1 _ Hm). apply elem_of_app. by right.
    + apply NoDup_app. split; [done|]. split; [|done].
      intros m HmX Hm2. specialize (Hb2 _ Hm2). specialize (HbX _ HmX). lia.
  - rewrite !Forall_app, !Forall_forall. repeat split; intros m Hm.
    + specialize (Hb1 _ Hm). lia.
    + specialize (HbX _ Hm). lia.
    + specialize (Hb2 _ Hm). lia.
Qed.

Lemma slider_inv_dom n s doc' ds nx :
  slider_inv n s →
  NoDup (ids doc') → Forall (λ m, (m < nx)%nat) (ids doc') → count is_slide doc' = n →
  slider_inv n (set_trees doc' ds nx s).
Proof.
  intros [Hwf Hcount Hidx Hcl] Hnd Hb Hc. split; try done.
  by rewrite slide_count_count.
Qed.

Lemma slider_inv_emit n c s : slider_inv n s → slider_inv n (emit c s).2.
Proof. apply (pres_emit _ (slider_inv_quiet n)). Qed.

(** Replacing a button by its copy keeps the attached tree well formed
    and the number of slides; [b] bounds the identities in use. *)
Lemma slider_inv_replaceChild n b off X old u s :
  slider_inv n s →
  Forall (λ m, (m < b)%nat) (ids (document (page_dom s))) →
  (b ≤ off)%nat → (off + b ≤ next_node (page_dom s))%nat →
  X = clone_tree off u → NoDup (ids u) → Forall (λ m, (m < b)%nat) (ids u) →
  (∀ v, subtree old (document (page_dom s)) = Some v → count is_slide v = count is_slide u) →
  slider_inv n (replaceChild X old s).2 ∧
  next_node (page_dom (replaceChild X old s).2) = next_node (page_dom s) ∧
  Forall (λ m, (m < off + b)%nat) (ids (document (page_dom (replaceChild X old s).2))) ∧
  (document (page_dom (replaceChild X old s).2) = document (page_dom s) ∨
   replace_subtree old X (document (page_dom s))
   = Some (document (page_dom (replaceChild X old s).2))).
Proof.
  intros Hs Hb Hoff Hnx -> Hndu Hbu Hcount.
  assert (Forall (λ m, (m < off + b)%nat) (ids (document (page_dom s)))) as Hb'.
  { eapply Forall_impl; [exact Hb|]. cbn. lia. }
  unfold replaceChild.
  destruct (lookup_tree old (page_dom s)) as [ot|]; [|by auto].
  destruct (replace_subtree old _ (document (page_dom s))) as [doc'|] eqn:Er.
  - destruct (replace_subtree_flat _ _ _ _ Er) as (v & _ & _ & Hv & _).
    destruct (wf_replace _ _ _ _ b (off + b)%nat (proj1 (inv_wf _ _ Hs)) Hb Er)
      as [Hnd' Hb''].
    { rewrite ids_clone. apply NoDup_fmap_2; [|done]. intros x y. lia. }
    { rewrite ids_clone. apply Forall_fmap. eapply Forall_impl; [exact Hbu|]. cbn. lia. }
    { lia. }
    rewrite emit_run. cbn [snd]. split; [|by auto].
    apply (slider_inv_quiet n (set_trees doc' (detached (page_dom s) ++ [ot])
                                 (next_node (page_dom s)) s)); [by unfold quiet|].
    apply slider_inv_dom; [done|done| |].
    + eapply Forall_impl; [exact Hb''|]. cbn. lia.
    + rewrite (count_replace is_slide _ _ _ _ _ Er Hv).
      * by rewrite <- slide_count_count, (inv_count _ _ Hs).
      * rewrite count_clone. symmetry. by apply Hcount.
  - destruct (replace_in_forest old _ (detached (page_dom s))) as [rest|]; [|by auto].
    rewrite emit_run. cbn [snd]. split; [|by auto].
    apply (slider_inv_quiet n s); [|done].
    unfold quiet. cbn. done.
Qed.

Ltac js_read :=
  rewrite bind_run;
  cbn [getElementById querySelectorAll querySelector parentNode read];
  cbn beta iota.

Lemma slider_inv_grow n s k :
  slider_inv n s →
  slider_inv n (set_trees (document (page_dom s)) (detached (page_dom s))
                  (next_node (page_dom s) + k)%nat s).
Proof.
  intros Hs. pose proof (inv_wf _ _ Hs) as [Hnd Hb].
  apply slider_inv_dom; try done.
  - eapply Forall_impl; [exact Hb|]. cbn. lia.
  - by rewrite <- slide_count_count, (inv_count _ _ Hs).
Qed.

Lemma slider_inv_init n : preserves (slider_inv n) initProjectsSlider.
Proof.
  intros s Hs. unfold initProjectsSlider.
  do 4 js_read.
  destruct (find_id "projects-track" (document (page_dom s))) as [tr|]; [|done].
  case_bool_decide as Hlen; [done|].
  pose proof (inv_wf _ _ Hs) as [Hnd Hb].
  (* const newPrevBtn = prevBtn.cloneNode(true) *)
  destruct (find_id "projects-prev" (document (page_dom s))) as [p|] eqn:Hp; [|done].
  rewrite bind_run. cbn [deref mret Js_ret]. rewrite bind_run.
  destruct (lookup_tree_attached p (page_dom s) (find_id_ids _ _ _ Hp)) as (up & Hlp & Hsp).
  unfold cloneNode at 1. rewrite Hlp.
  set (s1 := set_trees (document (page_dom s)) _ ((next_node (page_dom s)) + (next_node (page_dom s)))%nat s).
  assert (slider_inv n s1) as Hs1 by apply slider_inv_grow, Hs.
  (* const newNextBtn = nextBtn.cloneNode(true) *)
  destruct (find_id "projects-next" (document (page_dom s))) as [nx|] eqn:Hn; [|done].
  rewrite bind_run. cbn [deref mret Js_ret]. rewrite bind_run.
  destruct (lookup_tree_attached nx (page_dom s1) (find_id_ids _ _ _ Hn)) as (un & Hln & Hsn).
  unfold cloneNode at 1. rewrite Hln. cbn [page_dom s1 set_trees on_dom next_node document detached].
 
  set (s2 := set_trees (document (page_dom s)) _ ((next_node (page_dom s)) + (next_node (page_dom s)) + ((next_node (page_dom s)) + (next_node (page_dom s))))%nat s1).
  assert (slider_inv n s2) as Hs2.
  { subst s2. apply (slider_inv_grow n s1 ((next_node (page_dom s)) + (next_node (page_dom s)))%nat Hs1). }
  cbn [s1 page_dom set_trees on_dom document] in Hsn.
  destruct (subtree_ids _ _ _ Hsp) as (a1 & a2 & Ea). destruct (subtree_ids _ _ _ Hsn) as (c1 & c2 & Ec).
  assert (NoDup (ids up) ∧ Forall (λ m, (m < (next_node (page_dom s)))%nat) (ids up)) as [Hndp Hbp].
  { rewrite Ea in Hnd, Hb.
    apply NoDup_app in Hnd as (_ & _ & Hnd). apply NoDup_app in Hnd as (Hnd & _ & _).
    apply Forall_app in Hb as [_ Hb]. by apply Forall_app in Hb as [Hb _]. }
  assert (NoDup (ids un) ∧ Forall (λ m, (m < (next_node (page_dom s)))%nat) (ids un)) as [Hndn Hbn].
  { rewrite Ec in Hnd, Hb.
    apply NoDup_app in Hnd as (_ & _ & Hnd). apply NoDup_app in Hnd as (Hnd & _ & _).
    apply Forall_app in Hb as [_ Hb]. by apply Forall_app in Hb as [Hb _]. }
  (* prevBtn.parentNode.replaceChild(newPrevBtn, prevBtn) *)
  js_read. rewrite bind_run.
  match goal with |- context [deref "prevBtn.parentNode" ?o] => destruct o end; [|done].
  cbn [deref mret Js_ret]. rewrite bind_run.
  destruct (slider_inv_replaceChild n (next_node (page_dom s)) (next_node (page_dom s)) (clone_tree (next_node (page_dom s)) up) p up s2 Hs2)
    as (Hs3 & Hnx3 & Hb3 & Hdoc3); try done.
  { cbn. lia. }
  { cbn. intros v Hv. congruence. }
  destruct (replaceChild (clone_tree (next_node (page_dom s)) up) p s2) as [[[]|e] s3]; [|done].
  cbn [snd] in *.
  (* nextBtn.parentNode.replaceChild(newNextBtn, nextBtn) *)
  js_read. rewrite bind_run.
  match goal with |- context [deref "nextBtn.parentNode" ?o] => destruct o end; [|done].
  cbn [deref mret Js_ret]. rewrite bind_run.
  destruct (slider_inv_replaceChild n ((next_node (page_dom s)) + (next_node (page_dom s)))%nat ((next_node (page_dom s)) + (next_node (page_dom s)))%nat
              (clone_tree ((next_node (page_dom s)) + (next_node (page_dom s))) un) nx un s3 Hs3)
    as (Hs4 & Hnx4 & Hb4 & Hdoc4); try done.
  { rewrite Hnx3. cbn. lia. }
  { eapply Forall_impl; [exact Hbn|]. cbn. lia. }
  { intros v Hv. destruct Hdoc3 as [Hsame|Hrep].
    - rewrite Hsame in Hv. cbn in Hv. congruence.
    - cbn in Hrep.
      destruct (count_subtree_replace is_slide p (clone_tree (next_node (page_dom s)) up) nx (document (page_dom s)) (document (page_dom s3)) up v)
        as (u & Hu & Hcu); try done.
      + apply count_clone.
      + rewrite ids_clone. intros Hin. apply list_elem_of_fmap in Hin as (m & Hmx & Hm).
        rewrite Forall_forall in Hb. specialize (Hb nx (find_id_ids _ _ _ Hn)). lia.
      + congruence. }
  destruct (replaceChild (clone_tree ((next_node (page_dom s)) + (next_node (page_dom s))) un) nx s3) as [[[]|e] s4]; [|done].
  cbn [snd] in *.
  (* the listeners and the first update *)
  assert (length (select (SelClass "project-slide-item") [] (document (page_dom s))) = n) as Hslides.
  { apply (inv_count _ _ Hs). }
  revert Hs4. generalize s4.
  match goal with |- ∀ s, _ → slider_inv n (?k s).2 => change (preserves (slider_inv n) k) end.
  repeat first
    [ preserves_step
    | apply slider_inv_listen; exact Hslides
    | apply (pres_updateSlider _ (slider_inv_quiet n))
    | apply preserves_write; intros s' Hs'; apply (slider_inv_quiet n s'); [by unfold quiet | exact Hs'] ].
Qed.

(** ** Properties that do not depend on the element trees *)

Section frame.
Context (P : page → Prop).
Hypothesis P_quiet : ∀ s s', quiet s s' → P s → P s'.
Hypothesis P_listen : ∀ t ty c, preserves P (addEventListener t ty c).
Hypothesis P_dom : ∀ doc ds nx s, P s → P (set_trees doc ds nx s).

Lemma frame_cloneNode n : preserves P (cloneNode n).
Proof.
  intros s Hs. unfold cloneNode. destruct (lookup_tree n (page_dom s)); [|done].
  by apply P_dom.
Qed.

Lemma frame_replaceChild X old : preserves P (replaceChild X old).
Proof.
  intros s Hs. unfold replaceChild.
  destruct (lookup_tree old (page_dom s)); [|done].
  destruct (replace_subtree old X _).
  - by apply (pres_emit _ P_quiet), P_dom.
  - destruct (replace_in_forest old X _); [|done].
    by apply (pres_emit _ P_quiet), P_dom.
Qed.

Lemma frame_init : preserves P initProjectsSlider.
Proof.
  unfold initProjectsSlider.
  repeat first
    [ preserves_step
    | apply frame_cloneNode | apply frame_replaceChild | apply P_listen
    | apply (pres_updateSlider _ P_quiet)
    | apply preserves_write; intros s Hs; apply (P_quiet s); [by unfold quiet | exact Hs] ].
Qed.

Hypothesis P_index : ∀ i s, P s → P (set_currentProjectIndex i s).

Lemma frame_next env : preserves P (slider_next_click env).
Proof.
  unfold slider_next_click.
  repeat first [ preserves_step | apply (pres_updateSlider _ P_quiet)
               | apply preserves_write, P_index ].
Qed.

Lemma frame_prev env : preserves P (slider_prev_click env).
Proof.
  unfold slider_prev_click.
  repeat first [ preserves_step | apply (pres_updateSlider _ P_quiet)
               | apply preserves_write, P_index ].
Qed.

Lemma frame_touchend env x : preserves P (slider_touchend_handler env x).
Proof.
  unfold slider_touchend_handler.
  repeat first [ preserves_step | apply (pres_updateSlider _ P_quiet)
               | apply preserves_write, P_index
               | apply preserves_write; intros s Hs; apply (P_quiet s);
                 [by unfold quiet | exact Hs] ].
Qed.

Lemma frame_run inputs s : P s → P (run inputs s).
Proof.
  apply (pres_run P (λ _, True)); try done.
  - intros c. by destruct c.
  - intros s' _. by apply Forall_true.
  - exact frame_init.
  - intros env _. apply frame_next.
  - intros env _. apply frame_prev.
  - intros env x _. apply frame_touchend.
Qed.

Lemma frame_script : preserves P script.
Proof.
  apply (pres_script P (λ _, True)); try done.
  - intros c. by destruct c.
  - apply preserves_write, P_index.
Qed.
End frame.

(** * Properties of the script *)

(** ** Checking the hypotheses on a concrete page *)

Lemma views_marked_check doc :
  forallb (λ p : node * element,
             implb (String.prefix "view-" (el_id p.2)) (has_class "view-section" p.2))
          (flat doc) = true →
  views_marked doc.
Proof.
  intros H m e Hin Hv. rewrite forallb_forall in H.
  specialize (H (m, e) (proj1 (list_elem_of_In _ _) Hin)). cbn in H.
  unfold is_view in Hv. rewrite Hv in H. cbn in H. unfold has_class in H.
  by apply bool_decide_eq_true in H.
Qed.

Lemma sample_NoDup : NoDup (ids (sample_document true)).
Proof. apply (bool_decide_unpack _). by vm_compute. Qed.

Lemma sample_views_marked : views_marked (sample_document true).
Proof. apply views_marked_check. by vm_compute. Qed.

(** ** Unknown identifiers (C1) *)

(** C1.  With an identifier that matches no View, [showView] completes
    without an exception, but the page does change: the View that was
    active and its navigation link both lose the class [active], and no
    View is active afterwards.  On the sample page, loaded with the
    view [home] active, [showView("gallery")] leaves no active View. *)
Theorem showView_unknown_identifier_hides_active_view :
  find_id "view-gallery" (document (page_dom loaded_page)) = None ∧
  active_views loaded_page = [7%nat] ∧
  active_links loaded_page = [3%nat] ∧
  (showView "gallery" loaded_page).1 = Normal tt ∧
  active_views (showView "gallery" loaded_page).2 = [] ∧
  active_links (showView "gallery" loaded_page).2 = [].
Proof. by vm_compute. Qed.

(** The same for every page that honours the markup contract. *)
Lemma showView_unknown_deactivates viewId s :
  views_marked (document (page_dom s)) →
  find_id ("view-" +:+ viewId) (document (page_dom s)) = None →
  (showView viewId s).1 = Normal tt ∧
  ∀ m e, (m, e) ∈ flat (document (page_dom (showView viewId s).2)) →
         is_view e → "active" ∉ classList e.
Proof.
  intros Hmark Hnone.
  destruct (showView_spec viewId s) as (s' & -> & _ & _ & _ & _ & _ & Hsw).
  cbn zeta in Hsw. rewrite Hnone in Hsw. destruct Hsw as (Hdoc & _).
  split; [done|]. cbn [snd]. intros m e Hin Hv. rewrite Hdoc in Hin.
  destruct (deactivated_entries (document (page_dom s))) as (g & E & G).
  rewrite E in Hin. apply list_elem_of_fmap in Hin as (p & Hp & Hin).
  destruct (G p) as (F & I & A).
  assert (e = (g p).2) as -> by (by rewrite <- Hp).
  rewrite A. intros (_ & Hsec & _). apply Hsec.
  apply elem_of_select_class. exists p.2. split; [by destruct p|].
  apply (Hmark p.1); [by destruct p|]. unfold is_view in *. by rewrite <- I.
Qed.

(** ** Known identifiers (C2) *)

Lemma known_view_becomes_only_active s viewId tv :
  NoDup (ids (document (page_dom s))) →
  views_marked (document (page_dom s)) →
  find_id ("view-" +:+ viewId) (document (page_dom s)) = Some tv →
  (showView viewId s).1 = Normal tt ∧
  only_active_view tv viewId (document (page_dom (showView viewId s).2)).
Proof.
  intros Hnd Hmark Htv.
  destruct (showView_spec viewId s) as (s' & Hrun & Hsw). rewrite Hrun.
  split; [done|]. by apply (view_switch_active viewId s).
Qed.

(** C2 as stated fails on a page that identifies its Views by id only.
    The home View of this page is active and does not carry the class
    [view-section]; the deactivation (line 21) selects by that class and
    does not reach it, so after [showView("about")] two Views are marked
    active. *)
Lemma showView_leaves_unmarked_view_active :
  find_id ("view-" +:+ "about") (document (page_dom unmarked_home_page)) = Some 3%nat ∧
  NoDup (ids (document (page_dom unmarked_home_page))) ∧
  active_views unmarked_home_page = [2%nat] ∧
  (showView "about" unmarked_home_page).1 = Normal tt ∧
  active_views (showView "about" unmarked_home_page).2 = [2%nat; 3%nat] ∧
  ¬ only_active_view 3%nat "about"
      (document (page_dom (showView "about" unmarked_home_page).2)).
Proof.
  split; [by vm_compute|]. split; [apply (bool_decide_unpack _); by vm_compute|].
  split; [by vm_compute|]. split; [by vm_compute|]. split; [by vm_compute|].
  intros [_ H].
  assert ((2%nat, el "section" "view-home" ["active"])
          ∈ flat (document (page_dom (showView "about" unmarked_home_page).2))) as Hin.
  { apply (bool_decide_unpack _). by vm_compute. }
  destruct (H _ _ Hin eq_refl) as [H2 _]. cbn in H2.
  specialize (H2 ltac:(by left)). discriminate H2.
Qed.

(** C2, amended.  When the identifier names a View of a page whose node
    identities are distinct and on which every View carries the class
    [view-section], a call [showView(viewId)] completes normally and
    afterwards exactly one View is marked active: the element whose id is
    [view-<viewId>]. *)
Theorem showView_known_exactly_one_active (s : page) (viewId : string) (tv : node) :
  NoDup (ids (document (page_dom s))) →
  views_marked (document (page_dom s)) →
  find_id ("view-" +:+ viewId) (document (page_dom s)) = Some tv →
  (showView viewId s).1 = Normal tt ∧
  only_active_view tv viewId (document (page_dom (showView viewId s).2)).
Proof. apply known_view_becomes_only_active. Qed.

Lemma showView_known_exactly_one_active_witness :
  (NoDup (ids (document (page_dom loaded_page))) ∧
   views_marked (document (page_dom loaded_page)) ∧
   find_id ("view-" +:+ "about") (document (page_dom loaded_page)) = Some 8%nat) ∧
  (showView "about" loaded_page).1 = Normal tt ∧
  only_active_view 8%nat "about" (document (page_dom (showView "about" loaded_page).2)).
Proof.
  assert (NoDup (ids (document (page_dom loaded_page)))) as H1.
  { apply (bool_decide_unpack _). by vm_compute. }
  assert (views_marked (document (page_dom loaded_page))) as H2.
  { apply views_marked_check. by vm_compute. }
  assert (find_id ("view-" +:+ "about") (document (page_dom loaded_page)) = Some 8%nat) as H3.
  { by vm_compute. }
  split; [done|]. exact (showView_known_exactly_one_active loaded_page "about" 8%nat H1 H2 H3).
Defined.

(** ** Session history (C3) *)

Lemma history_entries_kept b f inputs s :
  session_back (page_win s) = b ∧ session_forward (page_win s) = f →
  session_back (page_win (run inputs s)) = b ∧ session_forward (page_win (run inputs s)) = f.
Proof.
  apply (frame_run (λ s, session_back (page_win s) = b ∧ session_forward (page_win s) = f)).
  - intros s0 s1 (_ & _ & Hb & Hf & _). by rewrite Hb, Hf.
  - by intros t ty c s0.
  - by intros doc ds nx s0.
  - by intros i s0.
Qed.

Lemma ascii_outside_set a :
  fragment_percent_encode_set a = false →
  c0_control_or_space a = false ∧ tab_or_newline a = false.
Proof. destruct a as [[] [] [] [] [] [] [] []]; by vm_compute. Qed.

Lemma plain_strip_trailing v :
  string_forallb (λ a, negb (c0_control_or_space a)) v = true → strip_trailing v = v.
Proof.
  induction v as [|a r IH]; [done|]. cbn [string_forallb strip_trailing].
  intros [Ha Hr]%andb_true_iff. rewrite (IH Hr).
  apply negb_true_iff in Ha. rewrite Ha. by destruct r.
Qed.

Lemma plain_remove_tabs_and_newlines v :
  string_forallb (λ a, negb (tab_or_newline a)) v = true → remove_tabs_and_newlines v = v.
Proof.
  induction v as [|a r IH]; [done|]. cbn [string_forallb remove_tabs_and_newlines].
  intros [Ha Hr]%andb_true_iff. apply negb_true_iff in Ha. by rewrite Ha, (IH Hr).
Qed.

Lemma plain_percent_encode_fragment v :
  plain_fragment v = true → percent_encode_fragment v = v.
Proof.
  unfold plain_fragment.
  induction v as [|a r IH]; [done|]. cbn [string_forallb percent_encode_fragment].
  intros [Ha Hr]%andb_true_iff. apply negb_true_iff in Ha. by rewrite Ha, (IH Hr).
Qed.

Lemma string_forallb_impl (p q : ascii → bool) v :
  (∀ a, p a = true → q a = true) → string_forallb p v = true → string_forallb q v = true.
Proof.
  intros Hpq. induction v as [|a r IH]; [done|]. cbn [string_forallb].
  intros [Ha Hr]%andb_true_iff. by rewrite (Hpq a Ha), (IH Hr).
Qed.

(** The URL parser keeps a fragment without characters of the
    percent-encode set as it is. *)
Lemma parse_plain_fragment v :
  plain_fragment v = true → parse_fragment_url ("#" +:+ v) = "#" +:+ v.
Proof.
  intros Hv. unfold parse_fragment_url.
  assert (plain_fragment (String "#" v) = true) as Hv' by exact Hv.
  change ("#" +:+ v) with (String "#" v).
  change (strip_leading (String "#" v)) with (String "#" v).
  rewrite plain_strip_trailing, plain_remove_tabs_and_newlines.
  - by apply plain_percent_encode_fragment.
  - revert Hv'. apply string_forallb_impl. intros a Ha%negb_true_iff.
    apply negb_true_iff. by apply ascii_outside_set.
  - revert Hv'. apply string_forallb_impl. intros a Ha%negb_true_iff.
    apply negb_true_iff. by apply ascii_outside_set.
Qed.

(** C3 as stated fails for an identifier that a URL does not keep as it
    is.  This page has a View whose identifier is [a<b];
    [showView("a<b")] activates it and replaces the history entry, but
    the fragment of the address is then [#a%3Cb], not the identifier. *)
Lemma showView_percent_encodes_fragment :
  find_id ("view-" +:+ "a<b") (document (page_dom odd_identifier_page)) = Some 3%nat ∧
  (showView "a<b" odd_identifier_page).1 = Normal tt ∧
  active_views (showView "a<b" odd_identifier_page).2 = [3%nat] ∧
  session_url (page_win (showView "a<b" odd_identifier_page).2) = "#a%3Cb" ∧
  session_url (page_win (showView "a<b" odd_identifier_page).2) ≠ "#" +:+ "a<b".
Proof. by vm_compute. Qed.

(** C3, amended.  A call [showView(viewId)] for a known View completes
    normally and leaves the current history entry with the fragment that
    the URL parser makes of [#viewId]; this is [#viewId] itself when the
    identifier has no character of the fragment percent-encode set (C0
    controls, space, double quote, [<], [>], backquote, and everything
    above [~]).  Whatever happens on the page afterwards (view switches,
    events, timers), the script adds no history entry: the earlier and
    later entries stay as they were, so going back lands on the entry
    that preceded the page. *)
Theorem showView_replaces_history_entry (s : page) (viewId : string) (tv : node) :
  find_id ("view-" +:+ viewId) (document (page_dom s)) = Some tv →
  (showView viewId s).1 = Normal tt ∧
  session_url (page_win (showView viewId s).2) = parse_fragment_url ("#" +:+ viewId) ∧
  (plain_fragment viewId = true →
   session_url (page_win (showView viewId s).2) = "#" +:+ viewId) ∧
  ∀ inputs,
    session_back (page_win (run inputs s)) = session_back (page_win s) ∧
    session_forward (page_win (run inputs s)) = session_forward (page_win s) ∧
    ∀ prior rest, session_back (page_win s) = prior :: rest →
                  session_url (page_win (go_back (run inputs s))) = prior.
Proof.
  intros Htv.
  assert (session_url (page_win (showView viewId s).2) = parse_fragment_url ("#" +:+ viewId))
    as Hurl.
  { destruct (showView_spec viewId s) as (s' & -> & _ & _ & _ & _ & _ & Hsw).
    cbn zeta in Hsw. rewrite Htv in Hsw. cbn [snd].
    by destruct Hsw as (hook & _ & _ & _ & -> & _). }
  split; [|split; [|split]].
  - by destruct (showView_spec viewId s) as (s' & -> & _).
  - exact Hurl.
  - intros Hv. rewrite Hurl. by apply parse_plain_fragment.
  - intros inputs.
    destruct (history_entries_kept _ _ inputs s (conj eq_refl eq_refl)) as [Hb Hf].
    split; [done|]. split; [done|].
    intros prior rest Hprior. unfold go_back. by rewrite Hb, Hprior.
Qed.

Lemma showView_replaces_history_entry_witness :
  (find_id ("view-" +:+ "about") (document (page_dom loaded_page)) = Some 8%nat ∧
   plain_fragment "about" = true) ∧
  (showView "about" loaded_page).1 = Normal tt ∧
  session_url (page_win (showView "about" loaded_page).2) = parse_fragment_url ("#" +:+ "about") ∧
  (plain_fragment "about" = true →
   session_url (page_win (showView "about" loaded_page).2) = "#" +:+ "about") ∧
  ∀ inputs,
    session_back (page_win (run inputs loaded_page)) = session_back (page_win loaded_page) ∧
    session_forward (page_win (run inputs loaded_page))
    = session_forward (page_win loaded_page) ∧
    ∀ prior rest, session_back (page_win loaded_page) = prior :: rest →
                  session_url (page_win (go_back (run inputs loaded_page))) = prior.
Proof.
  assert (find_id ("view-" +:+ "about") (document (page_dom loaded_page)) = Some 8%nat) as H.
  { by vm_compute. }
  assert (plain_fragment "about" = true) as H' by (by vm_compute).
  split; [done|]. exact (showView_replaces_history_entry loaded_page "about" 8%nat H).
Defined.

(** ** Order of effects (C4) *)



(** ** Startup *)

(** The DOMContentLoaded listener hides the navigation bar and then
    calls [showView] with the fragment [f] of the address, when that is
    not empty and names a View, and with [home] otherwise. *)
Lemma DOMContentLoaded_listener_run s f :
  session_url (page_win s) = "#" +:+ f ∨
  (session_url (page_win s) = EmptyString ∧ f = EmptyString) →
  DOMContentLoaded_listener s
  = (if negb (bool_decide (f = EmptyString)) &&
        bool_decide (is_Some (find_id ("view-" +:+ f) (document (page_dom s))))
     then showView f else showView "home")
      (set_trace (trace (page_win s) ++ [GsapSet (BySelector "nav")]) s).
Proof.
  intros Hurl.
  set (s1 := set_trace (trace (page_win s) ++ [GsapSet (BySelector "nav")]) s).
  assert (remove_first "#" (if decide (session_url (page_win s) = "#") then EmptyString
                            else session_url (page_win s)) = f) as Hhash.
  { destruct Hurl as [->|[-> ->]]; [|done].
    destruct (decide ("#" +:+ f = "#")) as [E|E]; [|done].
    injection E as E. change (f = EmptyString) in E. by subst f. }
  unfold DOMContentLoaded_listener. rewrite bind_run, emit_run. cbn beta iota.
  rewrite bind_run. unfold location_hash at 1, read at 1. cbn beta iota.
  rewrite bind_run. unfold getElementById at 1, read at 1. cbn beta iota.
  fold s1.
  change (session_url (page_win s1)) with (session_url (page_win s)).
  change (document (page_dom s1)) with (document (page_dom s)).
  by rewrite Hhash.
Qed.

(** ** Setup after a view switch (C6) *)

(** C6 as stated fails: on the sample page, with [showView] bound as the
    script leaves it, entering [home] schedules the rebinding of the
    hover interactions and nothing else; the slider initialisation is
    not scheduled. *)
Lemma showView_home_does_not_schedule_slider :
  showView_var (page_js (script sample_page).2) = showView_slider ∧
  timers (page_win (script sample_page).2) = [] ∧
  timers (page_win (showView "home" (script sample_page).2).2)
  = [TimeoutTimer cb_initRefinedInteractions 100].
Proof. by vm_compute. Qed.

(** C6, amended.  Every call of [showView], as the script finally binds
    it, schedules [initRefinedInteractions] after 100 ms whatever the
    identifier is, and schedules [initProjectsSlider] after 100 ms
    exactly when the identifier is [projects]. *)
Theorem showView_schedules_setup (viewId : string) (s : page) :
  timers (page_win (showView_projects viewId s).2)
  = timers (page_win s) ++ [TimeoutTimer cb_initRefinedInteractions 100] ++
    (if bool_decide (viewId = "projects") then [TimeoutTimer cb_initProjectsSlider 100] else []).
Proof.
  destruct (showView_projects_spec viewId s) as (s' & -> & Htm & _). exact Htm.
Qed.

(** ** Slider bounds (C7) *)

Lemma updateSlider_keeps_index env s :
  currentProjectIndex (page_js (updateSlider env s).2) = currentProjectIndex (page_js s).
Proof.
  apply (pres_updateSlider
           (λ s', currentProjectIndex (page_js s') = currentProjectIndex (page_js s)));
    [|done].
  intros s0 s1 (Hi & _). by rewrite Hi.
Qed.

Lemma touchend_moves_one_step env x s :
  (Z.abs (currentProjectIndex (page_js (slider_touchend_handler env x s).2)
          - currentProjectIndex (page_js s)) ≤ 1)%Z.
Proof.
  unfold slider_touchend_handler. rewrite bind_run. cbn [read].
  destruct (default (0, false) (drags (page_js s) !! drag env)) as [startX isDragging].
  destruct isDragging; cbn [negb mret Js_ret snd]; [|lia].
  rewrite bind_run. unfold when.
  case_bool_decide; [|cbn; lia].
  rewrite bind_run. cbn [read]. rewrite bind_run.
  repeat case_bool_decide; cbn [andb write mret Js_ret];
    match goal with
    | |- context [updateSlider env ?s0] =>
        pose proof (updateSlider_keeps_index env s0) as Hk;
        destruct (updateSlider env s0) as [[[]|e] s1]; cbn in Hk |- *; rewrite Hk; lia
    end.
Qed.

Lemma fresh_page_slider_inv doc nx hash back :
  NoDup (ids doc) → Forall (λ m, (m < nx)%nat) (ids doc) →
  (1 ≤ length (select (SelClass "project-slide-item") [] doc))%nat →
  slider_inv (length (select (SelClass "project-slide-item") [] doc))
    (fresh_page doc nx hash back).
Proof. intros Hnd Hb Hn. split; try done. cbn. lia. Qed.

Lemma slider_inv_run n inputs s : slider_inv n s → slider_inv n (run inputs s).
Proof.
  apply (pres_run (slider_inv n) (slider_closure_ok n)).
  - apply slider_inv_quiet.
  - apply slider_inv_listen.
  - intros c. by destruct c.
  - intros s0. apply inv_closures.
  - apply slider_inv_init.
  - apply slider_inv_next.
  - apply slider_inv_prev.
  - apply slider_inv_touchend.
Qed.

Lemma slider_inv_script n : preserves (slider_inv n) script.
Proof.
  apply (pres_script (slider_inv n) (slider_closure_ok n)).
  - apply slider_inv_quiet.
  - apply slider_inv_listen.
  - intros c. by destruct c.
  - apply preserves_write. intros s Hs. apply slider_inv_index; [|done].
    pose proof (inv_index _ _ Hs). lia.
Qed.

(** C7.  On a well-formed page with at least one slide, after the script
    has run and after any sequence of events, timers, promise
    settlements and inline calls, the number of slides is what it was,
    [0 <= currentProjectIndex < numberOfSlides], and every slider
    listener was made for that number of slides.  The prev listener does
    nothing at index 0, the next listener does nothing at the last
    index, and one run of the touchend listener moves the index by at
    most one. *)
Theorem slider_index_stays_in_bounds
    (doc : dom_tree) (nx : nat) (hash : string) (back : list string) (inputs : list input) :
  NoDup (ids doc) → Forall (λ m, (m < nx)%nat) (ids doc) →
  (1 ≤ length (select (SelClass "project-slide-item") [] doc))%nat →
  let numberOfSlides := length (select (SelClass "project-slide-item") [] doc) in
  let s := run inputs (script (fresh_page doc nx hash back)).2 in
  slide_count s = numberOfSlides ∧
  0 ≤ currentProjectIndex (page_js s) < Z.of_nat numberOfSlides ∧
  Forall (λ l, slider_closure_ok numberOfSlides (l_closure l)) (listeners (page_win s)) ∧
  (∀ env s', currentProjectIndex (page_js s') = 0 →
             slider_prev_click env s' = (Normal tt, s')) ∧
  (∀ env s', currentProjectIndex (page_js s') = Z.of_nat (length (slides env)) - 1 →
             slider_next_click env s' = (Normal tt, s')) ∧
  (∀ env x s', (Z.abs (currentProjectIndex (page_js (slider_touchend_handler env x s').2)
                       - currentProjectIndex (page_js s')) ≤ 1)%Z).
Proof.
  intros Hnd Hb Hn numberOfSlides s.
  assert (slider_inv numberOfSlides s) as [_ Hcount Hidx Hcl].
  { apply slider_inv_run, slider_inv_script. by apply fresh_page_slider_inv. }
  repeat split; try done; try lia.
  - intros env s' H0. unfold slider_prev_click. rewrite bind_run. cbn [read].
    rewrite H0. done.
  - intros env s' Hlast. unfold slider_next_click. rewrite bind_run. cbn [read].
    rewrite Hlast. unfold when. rewrite bool_decide_eq_false_2 by lia. done.
  - intros env x s'. apply touchend_moves_one_step.
Qed.

Lemma slider_index_stays_in_bounds_witness :
  (NoDup (ids (sample_document true)) ∧
   Forall (λ m, (m < 25)%nat) (ids (sample_document true)) ∧
   (1 ≤ length (select (SelClass "project-slide-item") [] (sample_document true)))%nat) ∧
  slide_count (run sample_inputs (script (fresh_page (sample_document true) 25 EmptyString [])).2)
  = length (select (SelClass "project-slide-item") [] (sample_document true)) ∧
  0 ≤ currentProjectIndex
        (page_js (run sample_inputs
                    (script (fresh_page (sample_document true) 25 EmptyString [])).2))
    < Z.of_nat (length (select (SelClass "project-slide-item") [] (sample_document true))) ∧
  Forall (λ l, slider_closure_ok
                 (length (select (SelClass "project-slide-item") [] (sample_document true)))
                 (l_closure l))
    (listeners (page_win (run sample_inputs
                            (script (fresh_page (sample_document true) 25 EmptyString [])).2))) ∧
  (∀ env s', currentProjectIndex (page_js s') = 0 →
             slider_prev_click env s' = (Normal tt, s')) ∧
  (∀ env s', currentProjectIndex (page_js s') = Z.of_nat (length (slides env)) - 1 →
             slider_next_click env s' = (Normal tt, s')) ∧
  (∀ env x s', (Z.abs (currentProjectIndex (page_js (slider_touchend_handler env x s').2)
                       - currentProjectIndex (page_js s')) ≤ 1)%Z).
Proof.
  assert (NoDup (ids (sample_document true))) as H1
    by (apply (bool_decide_unpack _); by vm_compute).
  assert (Forall (λ m, (m < 25)%nat) (ids (sample_document true))) as H2
    by (apply (bool_decide_unpack _); by vm_compute).
  assert (1 ≤ length (select (SelClass "project-slide-item") [] (sample_document true)))%nat
    as H3 by (apply (bool_decide_unpack _); by vm_compute).
  split; [done|].
  exact (slider_index_stays_in_bounds (sample_document true) 25 EmptyString []
           sample_inputs H1 H2 H3).
Defined.

(** ** Contact form *)

Lemma showMessageModal_run m s :
  find_id "message-modal" (document (page_dom s)) = Some m →
  showMessageModal s
  = (Normal tt, set_trace (trace (page_win s) ++ [ClassAdd m "active"])
                  (modify_node m (add_class "active") s)).
Proof.
  intros H. unfold showMessageModal. rewrite bind_run.
  unfold getElementById at 1, read at 1. rewrite H. cbn beta iota.
  rewrite bind_run. cbn [deref mret Js_ret]. apply classList_add_run.
Qed.

Lemma showErrorModal_run m s :
  find_id "error-modal" (document (page_dom s)) = Some m →
  showErrorModal s
  = (Normal tt, set_trace (trace (page_win s) ++ [ClassAdd m "active"])
                  (modify_node m (add_class "active") s)).
Proof.
  intros H. unfold showErrorModal. rewrite bind_run.
  unfold getElementById at 1, read at 1. rewrite H. cbn beta iota.
  rewrite bind_run. cbn [deref mret Js_ret]. apply classList_add_run.
Qed.



Lemma not_node_active_check n s :
  existsb (λ p : node * element, Nat.eqb p.1 n && has_class "active" p.2)
    (flat (document (page_dom s))) = false →
  ¬ node_active n s.
Proof.
  intros H (e & Hin & Hact).
  assert (existsb (λ p : node * element, Nat.eqb p.1 n && has_class "active" p.2)
            (flat (document (page_dom s))) = true); [|congruence].
  apply existsb_exists. exists (n, e). split; [by apply list_elem_of_In|].
  cbn. rewrite Nat.eqb_refl. unfold has_class. by apply bool_decide_eq_true.
Qed.

(** ** Missing elements (C9) *)

(** C9.  Not every feature guards on its elements.  On the sample markup
    without the mobile menu button, the script stops with a [TypeError]
    at the registration of the menu button's click listener (line 608):
    although the contact form and the slider are on the page, no submit
    listener and no load listener get registered, and [showView] stays
    bound to its first wrapper.  With the button present the script
    completes and registers both. *)
Theorem missing_menu_button_stops_the_script :
  find_id "contact-form" (document (page_dom page_without_menu_trigger)) = Some 21%nat ∧
  find_id "projects-track" (document (page_dom page_without_menu_trigger)) = Some 14%nat ∧
  (script page_without_menu_trigger).1 = Throw (TypeError "menuTrigger") ∧
  filter (λ l, l_type l = "submit" ∨ l_type l = "load")
    (listeners (page_win (script page_without_menu_trigger).2)) = [] ∧
  showView_var (page_js (script page_without_menu_trigger).2) = showView_interactions ∧
  (script sample_page).1 = Normal tt ∧
  filter (λ l, l_type l = "submit" ∨ l_type l = "load")
    (listeners (page_win (script sample_page).2))
  = [Listener (Node 21) "submit" contact_submit; Listener Window "load" window_load] ∧
  showView_var (page_js (script sample_page).2) = showView_slider.
Proof. by vm_compute. Qed.

(** ** Slider index across re-initialisation (C10) *)

Lemma index_kept_by_init k :
  preserves (λ s, currentProjectIndex (page_js s) = k) initProjectsSlider.
Proof.
  apply frame_init.
  - intros s0 s1 (Hi & _). by rewrite Hi.
  - by intros t ty c s0.
  - by intros doc ds nx s0.
Qed.

(** C10.  [initProjectsSlider] never assigns [currentProjectIndex]: a
    run of it leaves the index as it was, and so does entering the
    [projects] view followed by the scheduled re-initialisation. *)
Theorem slider_index_survives_reinitialisation (s : page) :
  currentProjectIndex (page_js (initProjectsSlider s).2) = currentProjectIndex (page_js s) ∧
  currentProjectIndex (page_js (run [Inline_showView "projects"; Fire cb_initProjectsSlider] s))
  = currentProjectIndex (page_js s).
Proof.
  split; [by apply index_kept_by_init|].
  cbn [run fold_left step run_callback]. apply index_kept_by_init.
  apply (pres_showView (λ s', currentProjectIndex (page_js s') = currentProjectIndex (page_js s)));
    [|done].
  intros s0 s1 (Hi & _). by rewrite Hi.
Qed.

(** * Further properties *)

(** ** View switches in sequence *)

(** Every element after a view switch comes from one before it, with the
    same identity, id and classes other than [active]. *)
Lemma entry_fold_remove_other c l p x :
  x ≠ c →
  x ∈ classList (fold_left (λ q n, update_entry n (remove_class c) q) l p).2 ↔
  x ∈ classList p.2.
Proof.
  intros Hx. destruct (entry_fold_remove c l p) as (_ & _ & H). cbn zeta in H.
  rewrite H. tauto.
Qed.

Lemma view_switch_entries viewId s s' :
  view_switch viewId s s' →
  ∃ g : node * element → node * element,
    flat (document (page_dom s')) = g <$> flat (document (page_dom s)) ∧
    ∀ p, (g p).1 = p.1 ∧ el_id (g p).2 = el_id p.2 ∧
         (∀ c, c ≠ "active" → c ∈ classList (g p).2 ↔ c ∈ classList p.2) ∧
         ("active" ∈ classList (g p).2 ↔
          find_id ("view-" +:+ viewId) (document (page_dom s)) = Some p.1 ∨
          (is_Some (find_id ("view-" +:+ viewId) (document (page_dom s))) ∧
           find_id ("link-" +:+ viewId) (document (page_dom s)) = Some p.1) ∨
          ("active" ∈ classList p.2 ∧
           (p.1 ∉ (select (SelClass "view-section") [] (document (page_dom s)))) ∧
           (p.1 ∉ (select (SelClass "nav-item") [] (document (page_dom s)))))).
Proof.
  intros (_ & _ & _ & _ & _ & Hsw). cbn zeta in Hsw.
  set (doc := document (page_dom s)) in *.
  set (l1 := select (SelClass "view-section") [] doc).
  set (l2 := select (SelClass "nav-item") [] doc).
  set (g0 := λ p : node * element,
         fold_left (λ q n, update_entry n (remove_class "active") q) l2
           (fold_left (λ q n, update_entry n (remove_class "active") q) l1 p)).
  assert (flat (deactivated doc) = g0 <$> flat doc) as E0.
  { unfold deactivated. by rewrite !flat_fold_update, <- list_fmap_compose. }
  assert (∀ p, (g0 p).1 = p.1 ∧ el_id (g0 p).2 = el_id p.2 ∧
               (∀ c, c ≠ "active" → c ∈ classList (g0 p).2 ↔ c ∈ classList p.2) ∧
               ("active" ∈ classList (g0 p).2 ↔
                "active" ∈ classList p.2 ∧ (p.1 ∉ l1) ∧ (p.1 ∉ l2))) as G0.
  { intros p. subst g0. cbn beta.
    destruct (entry_fold_remove "active" l1 p) as (A1 & A2 & A3).
    destruct (entry_fold_remove "active" l2
                (fold_left (λ q n, update_entry n (remove_class "active") q) l1 p))
      as (B1 & B2 & B3).
    cbn zeta in *. rewrite B1, A1, B2, A2. split; [done|]. split; [done|]. split.
    - intros c Hc. rewrite B3, A3. tauto.
    - rewrite B3, A3, A1. tauto. }
  assert (∀ n (p : node * element),
            (update_entry n (add_class "active") p).1 = p.1 ∧
            el_id (update_entry n (add_class "active") p).2 = el_id p.2 ∧
            (∀ c, c ≠ "active" →
                  c ∈ classList (update_entry n (add_class "active") p).2 ↔ c ∈ classList p.2) ∧
            ("active" ∈ classList (update_entry n (add_class "active") p).2 ↔
             "active" ∈ classList p.2 ∨ p.1 = n)) as GA.
  { intros n p. rewrite update_entry_fst, update_entry_snd. split; [done|].
    destruct (decide (p.1 = n)) as [->|Hne]; (split; [done|]).
    - unfold add_class. cbn. split.
      + intros c Hc. rewrite elem_of_token_add. tauto.
      + rewrite elem_of_token_add. tauto.
    - split; [done|]. tauto. }
  destruct (find_id ("view-" +:+ viewId) doc) as [tv|].
  - destruct Hsw as (hook & Hdoc & _).
    destruct (find_id ("link-" +:+ viewId) doc) as [tl|].
    + exists (λ p, update_entry tl (add_class "active")
                    (update_entry tv (add_class "active") (g0 p))). split.
      { rewrite Hdoc, !flat_update, E0, <- !list_fmap_compose. done. }
      intros p.
      destruct (GA tl (update_entry tv (add_class "active") (g0 p))) as (F2 & I2 & C2 & A2).
      destruct (GA tv (g0 p)) as (F1 & I1 & C1 & A1). destruct (G0 p) as (F0 & I0 & C0 & A0).
      rewrite F2, F1, F0, I2, I1, I0. split; [done|]. split; [done|]. split.
      * intros c Hc. by rewrite C2, C1, C0.
      * rewrite A2, A1, A0, F1, F0. split.
        -- intros [[?| ->]| ->]; [tauto|by left|right; left; by eauto].
        -- intros [[= ->]|[[_ [= ->]]|?]]; tauto.
    + exists (λ p, update_entry tv (add_class "active") (g0 p)). split.
      { rewrite Hdoc, !flat_update, E0, <- !list_fmap_compose. done. }
      intros p.
      destruct (GA tv (g0 p)) as (F1 & I1 & C1 & A1). destruct (G0 p) as (F0 & I0 & C0 & A0).
      rewrite F1, F0, I1, I0. split; [done|]. split; [done|]. split.
      * intros c Hc. by rewrite C1, C0.
      * rewrite A1, A0, F0. split.
        -- intros [?| ->]; [tauto|by left].
        -- intros [[= ->]|[[_ ?]|?]]; [tauto|done|tauto].
  - destruct Hsw as (Hdoc & _). exists g0. split; [by rewrite Hdoc|].
    intros p. destruct (G0 p) as (F0 & I0 & C0 & A0).
    split; [done|]. split; [done|]. split; [done|].
    rewrite A0. split; [tauto|]. intros [?|[[[? ?] _]|?]]; [done|done|tauto].
Qed.

(** What a view switch keeps: node identities, element ids and the
    markup contract. *)
Lemma view_switch_shape viewId s s' :
  view_switch viewId s s' →
  ids (document (page_dom s')) = ids (document (page_dom s)) ∧
  (∀ i, find_id i (document (page_dom s')) = find_id i (document (page_dom s))) ∧
  (views_marked (document (page_dom s)) → views_marked (document (page_dom s'))).
Proof.
  intros Hsw. destruct (view_switch_entries _ _ _ Hsw) as (g & E & G).
  split; [|split].
  - unfold ids. rewrite E, <- list_fmap_compose. apply list_fmap_ext.
    intros _ p _. cbn. apply G.
  - intros i. unfold find_id. rewrite !head_fmap_fst, E. f_equal.
    apply (filter_fmap_fst (λ p, el_id p.2 = i)); [apply G|].
    intros p. destruct (G p) as (_ & -> & _). done.
  - intros Hmark m e Hin Hv. rewrite E in Hin.
    apply list_elem_of_fmap in Hin as (p & Hp & Hin).
    destruct (G p) as (F & I & C & _).
    assert (e = (g p).2) as -> by (by rewrite <- Hp).
    apply C; [done|]. apply (Hmark p.1); [by destruct p|].
    unfold is_view in *. by rewrite <- I.
Qed.

Lemma showView_calls_shape viewIds s :
  ids (document (page_dom (run (showView_calls viewIds) s))) = ids (document (page_dom s)) ∧
  (∀ i, find_id i (document (page_dom (run (showView_calls viewIds) s)))
        = find_id i (document (page_dom s))) ∧
  (views_marked (document (page_dom s)) →
   views_marked (document (page_dom (run (showView_calls viewIds) s)))).
Proof.
  revert s. induction viewIds as [|v l IH]; intros s; [done|].
  cbn [showView_calls fmap list_fmap run fold_left step].
  destruct (showView_spec v s) as (s1 & Hrun & Hsw). rewrite Hrun. cbn [snd].
  destruct (view_switch_shape _ _ _ Hsw) as (A1 & A2 & A3).
  destruct (IH s1) as (B1 & B2 & B3). unfold run, showView_calls in *.
  rewrite B1, A1. split; [done|]. split; [|by auto].
  intros i. by rewrite B2, A2.
Qed.

(** X1.  On a well-formed page, whatever views were asked for before,
    known or unknown, a call [showView(viewId)] with the identifier of a
    View leaves exactly that View active. *)
Theorem showView_last_call_wins (s : page) (before : list string) (viewId : string) (tv : node) :
  NoDup (ids (document (page_dom s))) →
  views_marked (document (page_dom s)) →
  find_id ("view-" +:+ viewId) (document (page_dom s)) = Some tv →
  only_active_view tv viewId
    (document (page_dom (run (showView_calls (before ++ [viewId])) s))).
Proof.
  intros Hnd Hmark Htv. unfold showView_calls, run.
  rewrite fmap_app, fold_left_app. cbn [fmap list_fmap fold_left step].
  destruct (showView_calls_shape before s) as (A1 & A2 & A3).
  unfold showView_calls, run in A1, A2, A3.
  set (s1 := fold_left (λ s' i, step i s') (Inline_showView <$> before) s) in *.
  destruct (showView_spec viewId s1) as (s2 & Hrun & Hsw). rewrite Hrun. cbn [snd].
  apply (view_switch_active viewId s1); [by rewrite A1 | by auto | by rewrite A2 | done].
Qed.

Lemma showView_last_call_wins_witness :
  only_active_view 13%nat "projects"
    (document (page_dom (run (showView_calls (["about"; "gallery"] ++ ["projects"])) loaded_page))).
Proof.
  assert (NoDup (ids (document (page_dom loaded_page)))) as H1.
  { apply (bool_decide_unpack _). by vm_compute. }
  assert (views_marked (document (page_dom loaded_page))) as H2.
  { apply views_marked_check. by vm_compute. }
  assert (find_id ("view-" +:+ "projects") (document (page_dom loaded_page)) = Some 13%nat) as H3.
  { by vm_compute. }
  exact (showView_last_call_wins loaded_page ["about"; "gallery"] "projects" 13%nat H1 H2 H3).
Defined.

(** X2.  After a call [showView(viewId)] with the identifier of a View,
    a navigation link is marked active exactly when it is the element
    [link-<viewId>] (or the View itself, should it carry the class
    [nav-item]); the links keep the class [nav-item]. *)
Theorem showView_marks_the_matching_link (s : page) (viewId : string) (tv m : node) (e : element) :
  find_id ("view-" +:+ viewId) (document (page_dom s)) = Some tv →
  (m, e) ∈ flat (document (page_dom (showView viewId s).2)) →
  "nav-item" ∈ classList e →
  "active" ∈ classList e ↔
  m = tv ∨ find_id ("link-" +:+ viewId) (document (page_dom s)) = Some m.
Proof.
  intros Htv Hin Hnav.
  destruct (showView_spec viewId s) as (s' & Hrun & Hsw). rewrite Hrun in Hin. cbn [snd] in Hin.
  destruct (view_switch_entries _ _ _ Hsw) as (g & E & G).
  rewrite E in Hin. apply list_elem_of_fmap in Hin as (p & Hp & Hin).
  destruct (G p) as (F & I & C & A).
  assert (m = (g p).1 ∧ e = (g p).2) as [-> ->] by (by rewrite <- Hp).
  rewrite A, F, Htv. apply C in Hnav; [|done].
  assert (p.1 ∈ select (SelClass "nav-item") [] (document (page_dom s))) as Hsel.
  { apply elem_of_select_class. exists p.2. split; [by destruct p | done]. }
  split.
  - intros [[= ->]|[[_ ?]|(_ & _ & ?)]]; [by left | by right | done].
  - intros [->|?]; [by left | right; left; by eauto].
Qed.

Lemma showView_marks_the_matching_link_witness :
  "active" ∈ classList (el "a" "link-about" ["nav-item"; "active"]) ↔
  4%nat = 8%nat ∨ find_id ("link-" +:+ "about") (document (page_dom loaded_page)) = Some 4%nat.
Proof.
  assert (find_id ("view-" +:+ "about") (document (page_dom loaded_page)) = Some 8%nat) as H1.
  { by vm_compute. }
  assert ((4%nat, el "a" "link-about" ["nav-item"; "active"])
            ∈ flat (document (page_dom (showView "about" loaded_page).2))) as H2.
  { apply (bool_decide_unpack _). by vm_compute. }
  assert ("nav-item" ∈ classList (el "a" "link-about" ["nav-item"; "active"])) as H3.
  { apply (bool_decide_unpack _). by vm_compute. }
  exact (showView_marks_the_matching_link loaded_page "about" 8%nat 4%nat _ H1 H2 H3).
Defined.

(** X3.  A call [showView(viewId)] with an identifier that names no View
    completes normally, leaves the address, the scroll position and the
    listeners alone, and issues no call besides the removals of the class
    [active]: no history entry is rewritten, nothing is scrolled and no
    animation is started. *)
Theorem showView_unknown_only_deactivates (s : page) (viewId : string) :
  find_id ("view-" +:+ viewId) (document (page_dom s)) = None →
  (showView viewId s).1 = Normal tt ∧
  session_url (page_win (showView viewId s).2) = session_url (page_win s) ∧
  scrollY (page_win (showView viewId s).2) = scrollY (page_win s) ∧
  listeners (page_win (showView viewId s).2) = listeners (page_win s) ∧
  page_js (showView viewId s).2 = page_js s ∧
  trace (page_win (showView viewId s).2)
  = trace (page_win s) ++
    ((λ n, ClassRemove n "active") <$> select (SelClass "view-section") [] (document (page_dom s))) ++
    ((λ n, ClassRemove n "active") <$> select (SelClass "nav-item") [] (document (page_dom s))).
Proof.
  intros Hnone.
  destruct (showView_spec viewId s) as (s' & -> & Hjs & _ & _ & _ & Hl & Hsw).
  cbn zeta in Hsw. rewrite Hnone in Hsw. destruct Hsw as (_ & Htr & Hurl & Hy).
  cbn [fst snd]. by rewrite Htr.
Qed.

Lemma showView_unknown_only_deactivates_witness :
  (showView "gallery" loaded_page).1 = Normal tt ∧
  session_url (page_win (showView "gallery" loaded_page).2) = session_url (page_win loaded_page) ∧
  scrollY (page_win (showView "gallery" loaded_page).2) = scrollY (page_win loaded_page) ∧
  listeners (page_win (showView "gallery" loaded_page).2) = listeners (page_win loaded_page) ∧
  page_js (showView "gallery" loaded_page).2 = page_js loaded_page ∧
  trace (page_win (showView "gallery" loaded_page).2)
  = trace (page_win loaded_page) ++
    ((λ n, ClassRemove n "active")
       <$> select (SelClass "view-section") [] (document (page_dom loaded_page))) ++
    ((λ n, ClassRemove n "active")
       <$> select (SelClass "nav-item") [] (document (page_dom loaded_page))).
Proof.
  assert (find_id ("view-" +:+ "gallery") (document (page_dom loaded_page)) = None) as H1.
  { by vm_compute. }
  exact (showView_unknown_only_deactivates loaded_page "gallery" H1).
Defined.

(** ** Hover interactions *)

Lemma set_listeners_same s : set_listeners (listeners (page_win s)) s = s.
Proof. by destruct s as [d [] g]. Qed.

Lemma forEach_hover_listeners l s :
  forEach l (λ el,
    addEventListener (Node el) "mouseenter" (interactive_mouseenter el);;
    addEventListener (Node el) "mouseleave" (interactive_mouseleave el);;
    addEventListener (Node el) "mousemove" (interactive_mousemove el)) s
  = (Normal tt, set_listeners (listeners (page_win s) ++ flat_map hover_listeners l) s).
Proof.
  revert s. induction l as [|el l IH]; intros s.
  - cbn [forEach flat_map]. by rewrite app_nil_r, set_listeners_same.
  - cbn [forEach]. rewrite bind_run.
    change ((addEventListener (Node el) "mouseenter" (interactive_mouseenter el);;
             addEventListener (Node el) "mouseleave" (interactive_mouseleave el);;
             addEventListener (Node el) "mousemove" (interactive_mousemove el)) s)
      with (Normal tt, set_listeners (((listeners (page_win s)
               ++ [Listener (Node el) "mouseenter" (interactive_mouseenter el)])
               ++ [Listener (Node el) "mouseleave" (interactive_mouseleave el)])
               ++ [Listener (Node el) "mousemove" (interactive_mousemove el)]) s).
    cbv beta iota. rewrite IH. cbn [flat_map hover_listeners]. f_equal.
    unfold set_listeners, on_win. cbn. by rewrite <- !app_assoc.
Qed.

Lemma initRefinedInteractions_run s :
  initRefinedInteractions s
  = (Normal tt,
     set_listeners (listeners (page_win s) ++
       flat_map hover_listeners (select interactive_selector [] (document (page_dom s)))) s).
Proof.
  unfold initRefinedInteractions. rewrite bind_run. cbn [querySelectorAll read].
  apply forEach_hover_listeners.
Qed.

Lemma NoDup_select sel t : simple sel = true → NoDup (ids t) → NoDup (select sel [] t).
Proof.
  intros Hs. rewrite select_simple by done. unfold ids.
  induction (flat t) as [|p l IH]; [by constructor|].
  cbn [fmap list_fmap]. rewrite NoDup_cons. intros [Hp Hl].
  rewrite filter_cons. destruct (decide _); [|by apply IH].
  cbn [fmap list_fmap]. apply NoDup_cons. split; [|by apply IH].
  intros Hin. apply Hp. apply list_elem_of_fmap in Hin as (q & -> & Hq).
  apply list_elem_of_filter in Hq as [_ Hq]. apply list_elem_of_fmap. by exists q.
Qed.

Lemma filter_none {A} (P : A → Prop) `{!∀ x, Decision (P x)} (l : list A) :
  (∀ x, x ∈ l → ¬ P x) → filter P l = [].
Proof.
  induction l as [|a l IH]; [done|]. intros Hno.
  rewrite filter_cons, decide_False by (apply Hno; by left).
  apply IH. intros x Hx. apply Hno. by right.
Qed.

Lemma length_filter_eq_NoDup (el : node) (l : list node) :
  NoDup l → el ∈ l → length (filter (λ x, x = el) l) = 1%nat.
Proof.
  induction l as [|a l IH]; [by intros _ H; inversion H|].
  rewrite NoDup_cons. intros [Ha Hl] Hin. rewrite filter_cons.
  destruct (decide (a = el)) as [->|Hne].
  - cbn [length]. f_equal. rewrite filter_none; [done|]. by intros x Hx ->.
  - apply IH; [done|]. apply elem_of_cons in Hin as [?|?]; [congruence|done].
Qed.

Lemma count_hover_listeners el l :
  length (filter (λ x, l_target x = Node el ∧ l_type x = "mouseenter")
            (flat_map hover_listeners l))
  = length (filter (λ x, x = el) l).
Proof.
  induction l as [|a l IH]; [done|].
  cbn [flat_map hover_listeners app]. rewrite !filter_cons. cbn [l_target l_type].
  rewrite (decide_False (P := _ ∧ "mouseleave" = "mouseenter")) by (by intros [_ ?]).
  rewrite (decide_False (P := _ ∧ "mousemove" = "mouseenter")) by (by intros [_ ?]).
  destruct (decide (a = el)) as [->|Hne].
  - rewrite decide_True by done. cbn [length]. by rewrite IH.
  - by rewrite decide_False by (intros [[= ?] _]; done).
Qed.

(** X4.  [initRefinedInteractions] never removes a listener: every time
    it runs again after a view switch, each interactive element gets one
    more [mouseenter] listener on top of those it already has. *)
Theorem hover_listeners_pile_up (s : page) (el : node) (k : nat) :
  NoDup (ids (document (page_dom s))) →
  el ∈ select interactive_selector [] (document (page_dom s)) →
  length (filter (λ l, l_target l = Node el ∧ l_type l = "mouseenter")
            (listeners (page_win (run (replicate k (Fire cb_initRefinedInteractions)) s))))
  = (length (filter (λ l, l_target l = Node el ∧ l_type l = "mouseenter")
               (listeners (page_win s))) + k)%nat.
Proof.
  intros Hnd Hel. revert s Hnd Hel. induction k as [|k IH]; intros s Hnd Hel.
  - cbn. lia.
  - cbn [replicate run fold_left step run_callback].
    rewrite initRefinedInteractions_run. cbn [snd].
    set (s1 := set_listeners _ s). fold (run (replicate k (Fire cb_initRefinedInteractions)) s1).
    rewrite (IH s1) by done. subst s1. cbn [set_listeners on_win page_win listeners].
    rewrite filter_app, length_app, count_hover_listeners, length_filter_eq_NoDup; [lia| |done].
    by apply NoDup_select.
Qed.

Lemma hover_listeners_pile_up_witness :
  length (filter (λ l, l_target l = Node 4 ∧ l_type l = "mouseenter")
            (listeners (page_win (run (replicate 2 (Fire cb_initRefinedInteractions)) loaded_page))))
  = (length (filter (λ l, l_target l = Node 4 ∧ l_type l = "mouseenter")
               (listeners (page_win loaded_page))) + 2)%nat.
Proof.
  assert (NoDup (ids (document (page_dom loaded_page)))) as H1.
  { apply (bool_decide_unpack _). by vm_compute. }
  assert (4%nat ∈ select interactive_selector [] (document (page_dom loaded_page))) as H2.
  { apply (bool_decide_unpack _). by vm_compute. }
  exact (hover_listeners_pile_up loaded_page 4%nat 2%nat H1 H2).
Defined.

(** ** Adding a class and removing it again *)

Lemma update_same n f t : (∀ e, (n, e) ∈ flat t → f e = e) → update n f t = t.
Proof.
  induction t as [m e kids IH] using dom_tree_ind. intros Hf. cbn [update]. f_equal.
  - destruct (decide (m = n)) as [->|]; [|done]. apply Hf. cbn [flat]. by left.
  - assert (∀ e0, (n, e0) ∈ flat_map flat kids → f e0 = e0) as Hk.
    { intros e0 Hin. apply Hf. cbn [flat]. by right. }
    clear Hf. induction IH as [|k kids Hk' _ IHkids]; [done|].
    cbn [map]. f_equal.
    + apply Hk'. intros e0 Hin. apply Hk. cbn [flat_map]. apply elem_of_app. by left.
    + apply IHkids. intros e0 Hin. apply Hk. cbn [flat_map]. apply elem_of_app. by right.
Qed.

Lemma update_update n f g t : update n f (update n g t) = update n (λ e, f (g e)) t.
Proof.
  induction t as [m e kids IH] using dom_tree_ind. cbn [update]. f_equal.
  - by destruct (decide (m = n)).
  - rewrite map_map. induction IH as [|k kids Hk _ IHkids]; [done|].
    cbn [map]. by rewrite Hk, IHkids.
Qed.

Lemma token_remove_absent c l : c ∉ l → token_remove c l = l.
Proof.
  unfold token_remove. induction l as [|a l IH]; [done|].
  rewrite not_elem_of_cons. intros [Hne Hl]. rewrite filter_cons.
  rewrite decide_True by congruence. by rewrite IH.
Qed.

Lemma token_remove_add c l : c ∉ l → token_remove c (token_add c l) = l.
Proof.
  intros Hc. unfold token_add. rewrite bool_decide_eq_false_2 by done.
  unfold token_remove. rewrite filter_app, filter_cons, decide_False by (by intros ?).
  rewrite filter_nil, app_nil_r. by apply token_remove_absent.
Qed.

Lemma remove_add_class c e : c ∉ classList e → remove_class c (add_class c e) = e.
Proof.
  intros Hc. destruct e as [tg i cl so sp st di sr]. unfold remove_class, add_class, with_classList.
  cbn [tagName el_id classList style_opacity style_pointerEvents style_transform data_img src] in *.
  by rewrite token_remove_add.
Qed.

Lemma add_remove_restores n c t :
  (∀ e, (n, e) ∈ flat t → c ∉ classList e) →
  update n (remove_class c) (update n (add_class c) t) = t.
Proof.
  intros H. rewrite update_update. apply update_same.
  intros e He. apply remove_add_class. by apply H.
Qed.

(** ** The data of one element *)

Lemma element_of_update n m f t s :
  document (page_dom s) = update m f t →
  ∀ s0, document (page_dom s0) = t →
  element_of n s = (if decide (n = m) then f else id) <$> element_of n s0.
Proof.
  intros E s0 E0. unfold element_of. rewrite E, E0, flat_update.
  induction (flat t) as [|p l IH]; [done|].
  cbn [map]. rewrite !filter_cons, update_entry_fst.
  destruct (decide (p.1 = n)) as [Hp|Hp]; [|exact IH].
  cbn [head fmap option_fmap option_map]. rewrite update_entry_snd.
  destruct (decide (p.1 = m)), (decide (n = m)); try congruence; done.
Qed.

Lemma element_of_modify n m f s :
  element_of n (modify_node m f s) = (if decide (n = m) then f else id) <$> element_of n s.
Proof. by apply (element_of_update n m f (document (page_dom s))). Qed.

Lemma element_of_is_Some n s : n ∈ ids (document (page_dom s)) → is_Some (element_of n s).
Proof.
  unfold element_of, ids. induction (flat (document (page_dom s))) as [|p l IH].
  - by intros H; inversion H.
  - cbn [fmap list_fmap]. rewrite elem_of_cons, filter_cons. intros [->|H].
    + rewrite decide_True by done. by eexists.
    + destruct (decide _); [by eexists | by apply IH].
Qed.

Lemma element_of_elem n s e : element_of n s = Some e → (n, e) ∈ flat (document (page_dom s)).
Proof.
  unfold element_of. induction (flat (document (page_dom s))) as [|p l IH]; [done|].
  rewrite filter_cons. destruct (decide (p.1 = n)) as [<-|].
  - cbn. intros [= <-]. destruct p. by left.
  - intros H. right. by apply IH.
Qed.

Lemma element_of_NoDup n s e :
  NoDup (ids (document (page_dom s))) → (n, e) ∈ flat (document (page_dom s)) →
  element_of n s = Some e.
Proof.
  intros Hnd Hin.
  destruct (element_of_is_Some n s) as [e' He'].
  { apply list_elem_of_fmap. by exists (n, e). }
  rewrite He'. f_equal. apply element_of_elem in He'.
  by apply (NoDup_ids_entry _ _ _ _ Hnd He' Hin).
Qed.

(** ** The body element *)

Lemma body_attached s b : (document_body s).1 = Normal (Some b) → b ∈ ids (document (page_dom s)).
Proof.
  unfold document_body, read. cbn [fst]. intros [= H].
  destruct (document (page_dom s)) as [n e kids]. cbn [children] in H.
  destruct (head _) as [k|] eqn:Hk; [|done]. injection H as <-.
  apply head_Some_elem_of in Hk. apply list_elem_of_filter in Hk as [_ Hk].
  unfold ids. cbn [flat fmap list_fmap]. right.
  apply list_elem_of_fmap. exists (root_node k, root_element k). split; [done|].
  apply list_elem_of_In, in_flat_map. exists k. split; [by apply list_elem_of_In|].
  destruct (flat_root k) as [l ->]. by left.
Qed.


Lemma body_modify n f s :
  (∀ e, tagName (f e) = tagName e) →
  (document_body (modify_node n f s)).1 = (document_body s).1.
Proof.
  intros Hf. unfold document_body, read, modify_node, on_dom.
  cbn [fst page_dom document]. f_equal.
  destruct (document (page_dom s)) as [m e kids]. cbn [update children].
  induction kids as [|k kids IH]; [done|].
  cbn [map]. rewrite !filter_cons.
  assert (tagName (root_element (update n f k)) = tagName (root_element k)) as ->.
  { destruct k as [m' e' ks]. cbn [update root_element]. by destruct (decide _). }
  destruct (decide _); [|exact IH].
  cbn [head fmap option_fmap option_map]. f_equal. by destruct k.
Qed.

Lemma document_body_run s : document_body s = ((document_body s).1, s).
Proof. reflexivity. Qed.

Lemma mouseenter_run el this x s b :
  (document_body s).1 = Normal (Some b) →
  run_closure (interactive_mouseenter el) this x s
  = (Normal tt,
     set_trace (trace (page_win s) ++ [ClassAdd b "cursor-hover"; GsapTo (ByRef (Some el))])
       (modify_node b (add_class "cursor-hover") s)).
Proof.
  intros H. unfold run_closure. rewrite bind_run, document_body_run, H.
  cbv beta iota. rewrite bind_run. cbn [deref mret Js_ret]. rewrite bind_run, classList_add_run.
  cbv beta iota. rewrite emit_run. f_equal.
  unfold set_trace, on_win, modify_node, on_dom. cbn. by rewrite <- app_assoc.
Qed.

Lemma mouseleave_run el this x s b :
  (document_body s).1 = Normal (Some b) →
  run_closure (interactive_mouseleave el) this x s
  = (Normal tt,
     set_trace (trace (page_win s) ++ [ClassRemove b "cursor-hover"; GsapTo (ByRef (Some el))])
       (modify_node b (remove_class "cursor-hover") s)).
Proof.
  intros H. unfold run_closure. rewrite bind_run, document_body_run, H.
  cbv beta iota. rewrite bind_run. cbn [deref mret Js_ret]. rewrite bind_run, classList_remove_run.
  cbv beta iota. rewrite emit_run. f_equal.
  unfold set_trace, on_win, modify_node, on_dom. cbn. by rewrite <- app_assoc.
Qed.

(** X5.  The pointer entering an interactive element puts the class
    [cursor-hover] on the body, and the pointer leaving it takes the
    class away again: after the pair the document is what it was. *)
Theorem hover_enter_leave_round_trip (s : page) (el b : node) (this : target) (x : Z) :
  (document_body s).1 = Normal (Some b) →
  (∀ e, (b, e) ∈ flat (document (page_dom s)) → "cursor-hover" ∉ classList e) →
  let entered := run_closure (interactive_mouseenter el) this x s in
  let left := run_closure (interactive_mouseleave el) this x entered.2 in
  entered.1 = Normal tt ∧
  has_class "cursor-hover" <$> element_of b entered.2 = Some true ∧
  left.1 = Normal tt ∧
  document (page_dom left.2) = document (page_dom s).
Proof.
  intros Hb Hno. cbn zeta. rewrite (mouseenter_run _ _ _ _ b) by done. cbn [fst snd].
  split; [done|]. split.
  { change (element_of b (set_trace ?v ?s0)) with (element_of b s0).
    rewrite element_of_modify, decide_True by done.
    destruct (element_of_is_Some b s (body_attached _ _ Hb)) as [e ->].
    cbn. f_equal. unfold has_class. apply bool_decide_eq_true.
    unfold add_class. cbn. apply elem_of_token_add. by right. }
  rewrite (mouseleave_run _ _ _ _ b).
  - split; [done|]. cbn [snd]. cbn [set_trace on_win modify_node on_dom page_dom document].
    by apply add_remove_restores.
  - change (document_body (set_trace ?v ?s0)).1 with (document_body s0).1.
    by rewrite body_modify.
Qed.

Lemma hover_enter_leave_round_trip_witness :
  let entered := run_closure (interactive_mouseenter 4%nat) (Node 4) 0 loaded_page in
  let left := run_closure (interactive_mouseleave 4%nat) (Node 4) 0 entered.2 in
  entered.1 = Normal tt ∧
  has_class "cursor-hover" <$> element_of 1%nat entered.2 = Some true ∧
  left.1 = Normal tt ∧
  document (page_dom left.2) = document (page_dom loaded_page).
Proof.
  assert ((document_body loaded_page).1 = Normal (Some 1%nat)) as H1 by (by vm_compute).
  assert (∀ e, (1%nat, e) ∈ flat (document (page_dom loaded_page)) →
               "cursor-hover" ∉ classList e) as H2.
  { intros e He.
    assert (element_of 1%nat loaded_page = Some e) as Hel.
    { apply element_of_NoDup; [|done]. apply (bool_decide_unpack _). by vm_compute. }
    vm_compute in Hel. injection Hel as <-. apply (bool_decide_unpack _). by vm_compute. }
  exact (hover_enter_leave_round_trip loaded_page 4%nat 1%nat (Node 4) 0 H1 H2).
Defined.

(** ** Modals *)

Lemma closeMessageModal_run m s :
  find_id "message-modal" (document (page_dom s)) = Some m →
  closeMessageModal s
  = (Normal tt, set_trace (trace (page_win s) ++ [ClassRemove m "active"])
                  (modify_node m (remove_class "active") s)).
Proof.
  intros H. unfold closeMessageModal. rewrite bind_run.
  unfold getElementById at 1, read at 1. rewrite H. cbn beta iota.
  rewrite bind_run. cbn [deref mret Js_ret]. apply classList_remove_run.
Qed.

Lemma closeErrorModal_run m s :
  find_id "error-modal" (document (page_dom s)) = Some m →
  closeErrorModal s
  = (Normal tt, set_trace (trace (page_win s) ++ [ClassRemove m "active"])
                  (modify_node m (remove_class "active") s)).
Proof.
  intros H. unfold closeErrorModal. rewrite bind_run.
  unfold getElementById at 1, read at 1. rewrite H. cbn beta iota.
  rewrite bind_run. cbn [deref mret Js_ret]. apply classList_remove_run.
Qed.

Lemma find_id_add_class i n c t : find_id i (update n (add_class c) t) = find_id i t.
Proof. by apply find_id_update. Qed.

(** X6.  A modal that the settlement of the email promise opened is
    closed again by its close function, and the document is then what it
    was before the modal was opened. *)
Theorem modal_open_close_round_trip (s : page) (r : reaction) (fulfilled : bool) (m : node) :
  find_id (if fulfilled then "message-modal" else "error-modal") (document (page_dom s))
  = Some m →
  ¬ node_active m s →
  node_active m (step (Settle r fulfilled) s) ∧
  document (page_dom
    (run [Settle r fulfilled;
          if fulfilled then Inline_closeMessageModal else Inline_closeErrorModal] s))
  = document (page_dom s).
Proof.
  intros Hm Hno. destruct r as [form].
  destruct (find_id_Some _ _ _ Hm) as (e & He & _).
  assert (∀ e0, (m, e0) ∈ flat (document (page_dom s)) → "active" ∉ classList e0) as Hno'.
  { intros e0 H0 Hact. apply Hno. by exists e0. }
  assert (node_active m (modify_node m (add_class "active") s)) as Hact.
  { exists (add_class "active" e). split.
    - cbn [modify_node on_dom page_dom document]. rewrite flat_update.
      apply list_elem_of_fmap. exists (m, e). split; [|done].
      unfold update_entry. cbn [fst snd]. by rewrite decide_True.
    - unfold add_class. cbn. apply elem_of_token_add. by right. }
  destruct fulfilled; cbn [run fold_left step settle].
  - rewrite bind_run, (showMessageModal_run m) by done. cbv beta iota. rewrite emit_run.
    cbn [snd]. split; [exact Hact|].
    rewrite (closeMessageModal_run m).
    + cbn [snd set_trace on_win modify_node on_dom page_dom document].
      by apply add_remove_restores.
    + cbn [set_trace on_win modify_node on_dom page_dom document].
      by rewrite find_id_add_class.
  - rewrite (showErrorModal_run m) by done. cbn [snd]. split; [exact Hact|].
    rewrite (closeErrorModal_run m).
    + cbn [snd set_trace on_win modify_node on_dom page_dom document].
      by apply add_remove_restores.
    + cbn [set_trace on_win modify_node on_dom page_dom document].
      by rewrite find_id_add_class.
Qed.

Lemma modal_open_close_round_trip_witness :
  node_active 22%nat (step (Settle (sendForm_then (Node 21)) true) loaded_page) ∧
  document (page_dom
    (run [Settle (sendForm_then (Node 21)) true; Inline_closeMessageModal] loaded_page))
  = document (page_dom loaded_page).
Proof.
  assert (find_id "message-modal" (document (page_dom loaded_page)) = Some 22%nat) as H1.
  { by vm_compute. }
  assert (¬ node_active 22%nat loaded_page) as H2.
  { apply not_node_active_check. by vm_compute. }
  exact (modal_open_close_round_trip loaded_page (sendForm_then (Node 21)) true 22%nat H1 H2).
Defined.

(** X7.  When the modal is missing from the page, the reaction to the
    settled promise throws and changes nothing: in particular a form
    sent with success is not reset. *)
Theorem settle_without_modal_changes_nothing (s : page) (form : target) (fulfilled : bool) :
  find_id (if fulfilled then "message-modal" else "error-modal") (document (page_dom s)) = None →
  settle (sendForm_then form) fulfilled s = (Throw (TypeError "modal"), s).
Proof.
  intros H. destruct fulfilled; cbn [settle].
  - rewrite bind_run. unfold showMessageModal. rewrite bind_run.
    unfold getElementById at 1, read at 1. by rewrite H.
  - unfold showErrorModal. rewrite bind_run.
    unfold getElementById at 1, read at 1. by rewrite H.
Qed.

Lemma settle_without_modal_changes_nothing_witness :
  settle (sendForm_then (Node 21)) true bare_page = (Throw (TypeError "modal"), bare_page).
Proof.
  assert (find_id (if true then "message-modal" else "error-modal")
            (document (page_dom bare_page)) = None) as H1 by (by vm_compute).
  exact (settle_without_modal_changes_nothing bare_page (Node 21) true H1).
Defined.

(** ** Mobile menu *)

Lemma update_comm n m f g t :
  n ≠ m → update n f (update m g t) = update m g (update n f t).
Proof.
  intros Hne. induction t as [k e kids IH] using dom_tree_ind. cbn [update]. f_equal.
  - destruct (decide (k = n)), (decide (k = m)); congruence.
  - rewrite !map_map. induction IH as [|c kids Hc _ IHkids]; [done|].
    cbn [map]. by rewrite Hc, IHkids.
Qed.

Lemma token_add_twice c l : token_add c (token_add c l) = token_add c l.
Proof.
  unfold token_add at 1. rewrite bool_decide_eq_true_2; [done|].
  apply elem_of_token_add. by right.
Qed.

Lemma token_remove_twice c l : token_remove c (token_remove c l) = token_remove c l.
Proof.
  apply token_remove_absent. rewrite elem_of_token_remove. by intros [_ ?].
Qed.

Lemma add_add_remove_remove c e :
  c ∉ classList e → remove_class c (remove_class c (add_class c (add_class c e))) = e.
Proof.
  intros Hc. destruct e as [tg i cl so sp st di sr].
  unfold remove_class, add_class, with_classList.
  cbn [tagName el_id classList style_opacity style_pointerEvents style_transform data_img src] in *.
  by rewrite token_add_twice, token_remove_twice, token_remove_add.
Qed.

Ltac js_run :=
  repeat first
    [ rewrite bind_run | rewrite emit_run | rewrite classList_add_run
    | rewrite classList_remove_run | rewrite setTimeout_run
    | progress cbn [read write deref mret Js_ret throw negb when
                    page_js page_win page_dom isMenuOpen menuTrigger navOverlay
                    set_trace on_win modify_node on_dom set_timers]
    | progress cbv beta iota ].

Lemma toggle_open_run tv s m o :
  isMenuOpen (page_js s) = false →
  menuTrigger (page_js s) = Some m → navOverlay (page_js s) = Some o →
  toggleMobileMenu tv s
  = (Normal tt,
     set_isMenuOpen true
       (set_trace (trace (page_win s) ++
                   [TimelinePlay "menuTl"; ClassAdd m "active"; ClassAdd o "active"])
          (modify_node o (add_class "active") (modify_node m (add_class "active") s)))).
Proof.
  destruct s as [d w [sv ly op idx il dr mt no]]. cbn [page_js isMenuOpen menuTrigger navOverlay].
  intros -> -> ->. unfold toggleMobileMenu. js_run. cbn. by rewrite <- !app_assoc.
Qed.

Lemma toggle_close_run tv s m o :
  isMenuOpen (page_js s) = true →
  menuTrigger (page_js s) = Some m → navOverlay (page_js s) = Some o →
  toggleMobileMenu tv s
  = (Normal tt,
     set_isMenuOpen false
       (set_timers (timers (page_win s) ++
                    match tv with
                    | Some v => if bool_decide (v = EmptyString) then []
                                else [TimeoutTimer (cb_showView v) 500]
                    | None => []
                    end)
       (set_trace (trace (page_win s) ++
                   [TimelineReverse "menuTl"; ClassRemove m "active"; ClassRemove o "active"])
          (modify_node o (remove_class "active") (modify_node m (remove_class "active") s))))).
Proof.
  destruct s as [d w [sv ly op idx il dr mt no]]. cbn [page_js isMenuOpen menuTrigger navOverlay].
  intros -> -> ->. unfold toggleMobileMenu.
  destruct tv as [v|]; [case_bool_decide|]; js_run; cbn; by rewrite <- ?app_assoc, ?app_nil_r.
Qed.

(** X8.  Opening the mobile menu marks the menu button and the overlay
    active and schedules nothing, whatever argument is passed; closing it
    again restores the document, and schedules the change to the view
    passed to the closing call, if one is, after 500 ms. *)
Theorem menu_open_close_round_trip (s : page) (m o : node) (tv1 tv2 : option string) :
  isMenuOpen (page_js s) = false →
  menuTrigger (page_js s) = Some m → navOverlay (page_js s) = Some o →
  (∀ e, (m, e) ∈ flat (document (page_dom s)) → "active" ∉ classList e) →
  (∀ e, (o, e) ∈ flat (document (page_dom s)) → "active" ∉ classList e) →
  let opened := toggleMobileMenu tv1 s in
  let closed := toggleMobileMenu tv2 opened.2 in
  opened.1 = Normal tt ∧
  isMenuOpen (page_js opened.2) = true ∧
  timers (page_win opened.2) = timers (page_win s) ∧
  has_class "active" <$> element_of m opened.2 = (λ _, true) <$> element_of m s ∧
  has_class "active" <$> element_of o opened.2 = (λ _, true) <$> element_of o s ∧
  closed.1 = Normal tt ∧
  isMenuOpen (page_js closed.2) = false ∧
  document (page_dom closed.2) = document (page_dom s) ∧
  timers (page_win closed.2)
  = timers (page_win s) ++
    match tv2 with
    | Some v => if bool_decide (v = EmptyString) then [] else [TimeoutTimer (cb_showView v) 500]
    | None => []
    end.
Proof.
  intros Hopen Hm Ho Hnm Hno. cbn zeta.
  rewrite (toggle_open_run tv1 s m o) by done. cbn [fst snd].
  split; [done|]. split; [done|]. split; [done|].
  assert (∀ e, has_class "active" (add_class "active" e) = true) as Hadd.
  { intros e. unfold has_class. apply bool_decide_eq_true. unfold add_class. cbn.
    apply elem_of_token_add. by right. }
  split; [|split].
  { change (element_of m (set_isMenuOpen ?b (set_trace ?v ?s0))) with (element_of m s0).
    rewrite !element_of_modify, (decide_True (P := m = m)) by done.
    destruct (element_of m s) as [e|]; [|done]. cbn.
    destruct (decide (m = o)); cbn; by rewrite ?Hadd. }
  { change (element_of o (set_isMenuOpen ?b (set_trace ?v ?s0))) with (element_of o s0).
    rewrite !element_of_modify, (decide_True (P := o = o)) by done.
    destruct (element_of o s) as [e|]; [|by destruct (decide (o = m))]. cbn.
    destruct (decide (o = m)); cbn; by rewrite ?Hadd. }
  rewrite (toggle_close_run tv2 _ m o) by done. cbn [fst snd].
  split; [done|]. split; [done|]. split; [|done].
  cbn [set_isMenuOpen on_js set_timers set_trace on_win modify_node on_dom page_dom document].
  destruct (decide (m = o)) as [<-|Hne].
  - rewrite !update_update. apply update_same. intros e He.
    apply add_add_remove_remove. by apply Hnm.
  - rewrite (update_comm m o (remove_class "active") (add_class "active")) by done.
    rewrite (add_remove_restores m "active" (document (page_dom s))) by done.
    by apply add_remove_restores.
Qed.

Lemma menu_open_close_round_trip_witness :
  let opened := toggleMobileMenu (Some "about") loaded_page in
  let closed := toggleMobileMenu (Some "about") opened.2 in
  opened.1 = Normal tt ∧
  isMenuOpen (page_js opened.2) = true ∧
  timers (page_win opened.2) = timers (page_win loaded_page) ∧
  has_class "active" <$> element_of 6%nat opened.2 = (λ _, true) <$> element_of 6%nat loaded_page ∧
  has_class "active" <$> element_of 24%nat opened.2 = (λ _, true) <$> element_of 24%nat loaded_page ∧
  closed.1 = Normal tt ∧
  isMenuOpen (page_js closed.2) = false ∧
  document (page_dom closed.2) = document (page_dom loaded_page) ∧
  timers (page_win closed.2)
  = timers (page_win loaded_page) ++
    (if bool_decide ("about" = EmptyString) then [] else [TimeoutTimer (cb_showView "about") 500]).
Proof.
  assert (isMenuOpen (page_js loaded_page) = false) as H1 by (by vm_compute).
  assert (menuTrigger (page_js loaded_page) = Some 6%nat) as H2 by (by vm_compute).
  assert (navOverlay (page_js loaded_page) = Some 24%nat) as H3 by (by vm_compute).
  assert (∀ n, ¬ node_active n loaded_page →
               ∀ e, (n, e) ∈ flat (document (page_dom loaded_page)) → "active" ∉ classList e) as Hn.
  { intros n Hno e He Hact. apply Hno. exists e. split; assumption. }
  assert (¬ node_active 6%nat loaded_page) as H4 by (apply not_node_active_check; by vm_compute).
  assert (¬ node_active 24%nat loaded_page) as H5 by (apply not_node_active_check; by vm_compute).
  exact (menu_open_close_round_trip loaded_page 6%nat 24%nat (Some "about") (Some "about")
           H1 H2 H3 (Hn _ H4) (Hn _ H5)).
Defined.

(** X9.  When the menu button or the overlay is missing from the page,
    every call of [toggleMobileMenu] throws before it records the new
    state: the menu is never recorded as open, whatever is clicked. *)
Theorem menu_state_stuck_without_elements (s : page) (calls : list (option string)) :
  menuTrigger (page_js s) = None ∨ navOverlay (page_js s) = None →
  (∀ tv, ∃ what, (toggleMobileMenu tv s).1 = Throw (TypeError what)) ∧
  isMenuOpen (page_js (run (Inline_toggleMobileMenu <$> calls) s)) = isMenuOpen (page_js s).
Proof.
  intros Hmiss.
  assert (∀ tv s0, page_js s0 = page_js s →
            (∃ what, (toggleMobileMenu tv s0).1 = Throw (TypeError what)) ∧
            page_js (toggleMobileMenu tv s0).2 = page_js s) as Hone.
  { intros tv s0 Hjs. unfold toggleMobileMenu. js_run.
    destruct (isMenuOpen (page_js s0)); js_run; rewrite Hjs;
      destruct (menuTrigger (page_js s)) as [m|] eqn:Hm; js_run;
      try (split; [by eexists | done]);
      rewrite Hjs; (destruct Hmiss as [? | ->]; [done|]); js_run;
      (split; [by eexists | done]). }
  split; [intros tv; by apply Hone|].
  assert (∀ s0, page_js s0 = page_js s →
            page_js (run (Inline_toggleMobileMenu <$> calls) s0) = page_js s) as Hall.
  { induction calls as [|tv l IH]; intros s0 Hjs; [done|].
    cbn [fmap list_fmap run fold_left step]. apply IH. by apply Hone. }
  by rewrite (Hall s).
Qed.

Lemma menu_state_stuck_without_elements_witness :
  (∀ tv, ∃ what, (toggleMobileMenu tv bare_page).1 = Throw (TypeError what)) ∧
  isMenuOpen (page_js (run (Inline_toggleMobileMenu <$> [None; Some "about"]) bare_page))
  = isMenuOpen (page_js bare_page).
Proof.
  assert (menuTrigger (page_js bare_page) = None ∨ navOverlay (page_js bare_page) = None) as H1.
  { left. by vm_compute. }
  exact (menu_state_stuck_without_elements bare_page [None; Some "about"] H1).
Defined.

(** ** Navigation bar on scroll *)

Lemma scroll_step s n y :
  filter (λ l, l_target l = Window ∧ l_type l = "scroll") (listeners (page_win s))
  = [Listener Window "scroll" (window_scroll (Some n))] →
  let v := if bool_decide (y > lastScrollY (page_js s)) then "translateY(-100%)"
           else "translateY(0)" in
  step (UserScroll y) s
  = set_lastScrollY y
      (set_trace (trace (page_win s) ++ [StyleSet n "transform" v])
         (modify_node n (with_transform v) (set_defaultPrevented false (set_scrollY y s)))).
Proof.
  intros Hl. cbn zeta. cbn [step]. unfold dispatch.
  change (listeners (page_win (set_scrollY y s))) with (listeners (page_win s)).
  rewrite Hl. cbn [fold_left l_closure run_closure]. unfold scroll_listener.
  unfold set_style_transform. js_run. reflexivity.
Qed.

(** X10.  The scroll listener compares each scroll position with the
    one before it: after two scroll events the navigation bar is moved
    out of view exactly when the second position is below the first, and
    the second position is the one remembered. *)
Theorem navbar_follows_scroll_direction (s : page) (n : node) (y1 y2 : Z) :
  filter (λ l, l_target l = Window ∧ l_type l = "scroll") (listeners (page_win s))
  = [Listener Window "scroll" (window_scroll (Some n))] →
  lastScrollY (page_js (run [UserScroll y1; UserScroll y2] s)) = y2 ∧
  style_transform <$> element_of n (run [UserScroll y1; UserScroll y2] s)
  = (λ _, if bool_decide (y2 > y1) then "translateY(-100%)" else "translateY(0)")
      <$> element_of n s.
Proof.
  intros Hl. cbn [run fold_left].
  rewrite (scroll_step s n y1 Hl). cbn zeta.
  set (v1 := if bool_decide (y1 > lastScrollY (page_js s)) then _ else _).
  set (s1 := set_lastScrollY y1 _).
  assert (filter (λ l, l_target l = Window ∧ l_type l = "scroll") (listeners (page_win s1))
          = [Listener Window "scroll" (window_scroll (Some n))]) as Hl1 by exact Hl.
  rewrite (scroll_step s1 n y2 Hl1). cbn zeta.
  split; [done|].
  change (lastScrollY (page_js s1)) with y1.
  set (v2 := if bool_decide (y2 > y1) then _ else _).
  change (element_of n (set_lastScrollY y2 (set_trace ?t ?s0))) with (element_of n s0).
  rewrite element_of_modify, decide_True by done.
  change (element_of n (set_defaultPrevented false (set_scrollY y2 s1)))
    with (element_of n (modify_node n (with_transform v1)
                          (set_defaultPrevented false (set_scrollY y1 s)))).
  rewrite element_of_modify, decide_True by done.
  change (element_of n (set_defaultPrevented false (set_scrollY y1 s))) with (element_of n s).
  by destruct (element_of n s).
Qed.

Lemma navbar_follows_scroll_direction_witness :
  lastScrollY (page_js (run [UserScroll 300; UserScroll 120] loaded_page)) = 120 ∧
  style_transform <$> element_of 2%nat (run [UserScroll 300; UserScroll 120] loaded_page)
  = (λ _, if bool_decide (120 > 300) then "translateY(-100%)" else "translateY(0)")
      <$> element_of 2%nat loaded_page.
Proof.
  assert (filter (λ l, l_target l = Window ∧ l_type l = "scroll")
            (listeners (page_win loaded_page))
          = [Listener Window "scroll" (window_scroll (Some 2%nat))]) as H1 by (by vm_compute).
  exact (navbar_follows_scroll_direction loaded_page 2%nat 300 120 H1).
Defined.

(** ** Image preview of the mobile menu *)

Lemma has_class_remove_same c e : has_class c (remove_class c e) = false.
Proof.
  unfold has_class. apply bool_decide_eq_false. unfold remove_class. cbn.
  rewrite elem_of_token_remove. by intros [_ ?].
Qed.

Lemma has_class_add_same c e : has_class c (add_class c e) = true.
Proof.
  unfold has_class. apply bool_decide_eq_true. unfold add_class. cbn.
  apply elem_of_token_add. by right.
Qed.

Lemma preview_mouseenter_run item pc pi this x s img :
  (getAttribute_data_img item s).1 = Normal img →
  run_closure (preview_mouseenter item pc pi) this x s
  = match img with
    | Some v =>
        if bool_decide (v = EmptyString) then (Normal tt, s)
        else (Normal tt,
              set_trace (trace (page_win s) ++ [SrcSet pi v; ClassAdd pc "active"])
                (modify_node pc (add_class "active") (modify_node pi (with_src v) s)))
    | None => (Normal tt, s)
    end.
Proof.
  intros Himg. unfold run_closure. rewrite bind_run.
  change (getAttribute_data_img item s) with ((getAttribute_data_img item s).1, s).
  rewrite Himg. cbv beta iota. destruct img as [v|]; [|done].
  unfold when. case_bool_decide as Hv; [done|]. cbn [negb].
  unfold set_src. js_run. f_equal.
  unfold set_trace, on_win, modify_node, on_dom. cbn. by rewrite <- app_assoc.
Qed.

(** X11.  A menu item with a [data-img] attribute shows its image when
    the pointer enters it: the preview image gets that source and the
    preview container becomes active.  When the pointer leaves, the
    container is no longer active and the image keeps the source.  An
    item without the attribute, or with an empty one, changes nothing on
    entry. *)
Theorem preview_enter_leave
    (s : page) (item pc pi : node) (img : option string) (this : target) (x : Z) :
  (getAttribute_data_img item s).1 = Normal img →
  let entered := run_closure (preview_mouseenter item pc pi) this x s in
  let left := run_closure (preview_mouseleave pc) this x entered.2 in
  match img with
  | Some v =>
      if bool_decide (v = EmptyString) then entered = (Normal tt, s)
      else
        entered.1 = Normal tt ∧
        src <$> element_of pi entered.2 = (λ _, v) <$> element_of pi s ∧
        has_class "active" <$> element_of pc entered.2 = (λ _, true) <$> element_of pc s ∧
        left.1 = Normal tt ∧
        has_class "active" <$> element_of pc left.2 = (λ _, false) <$> element_of pc s ∧
        src <$> element_of pi left.2 = (λ _, v) <$> element_of pi s
  | None => entered = (Normal tt, s)
  end.
Proof.
  intros Himg. cbn zeta. rewrite (preview_mouseenter_run _ _ _ _ _ _ img Himg).
  destruct img as [v|]; [|done]. case_bool_decide as Hv; [done|].
  cbn [fst snd run_closure]. rewrite classList_remove_run. cbn [fst snd].
  repeat first
    [ match goal with
      | |- context [element_of ?n (set_trace ?t ?s0)] =>
          change (element_of n (set_trace t s0)) with (element_of n s0)
      end
    | rewrite element_of_modify ].
  rewrite !(decide_True (P := pc = pc)) by done.
  split; [done|].
  destruct (element_of pi s) as [ei|], (element_of pc s) as [ec|];
    destruct (decide (pi = pc)), (decide (pc = pi)), (decide (pi = pi));
    try congruence; cbn;
    rewrite ?has_class_add_same, ?has_class_remove_same; done.
Qed.

Lemma preview_enter_leave_witness :
  let s := (script menu_page).2 in
  let entered := run_closure (preview_mouseenter 8%nat 10%nat 11%nat) (Node 8) 0 s in
  let left := run_closure (preview_mouseleave 10%nat) (Node 8) 0 entered.2 in
  entered.1 = Normal tt ∧
  src <$> element_of 11%nat entered.2 = (λ _, "img/about.jpg") <$> element_of 11%nat s ∧
  has_class "active" <$> element_of 10%nat entered.2 = (λ _, true) <$> element_of 10%nat s ∧
  left.1 = Normal tt ∧
  has_class "active" <$> element_of 10%nat left.2 = (λ _, false) <$> element_of 10%nat s ∧
  src <$> element_of 11%nat left.2 = (λ _, "img/about.jpg") <$> element_of 11%nat s.
Proof.
  assert ((getAttribute_data_img 8%nat (script menu_page).2).1 = Normal (Some "img/about.jpg"))
    as H1 by (by vm_compute).
  exact (preview_enter_leave (script menu_page).2 8%nat 10%nat 11%nat (Some "img/about.jpg")
           (Node 8) 0 H1).
Defined.

(** ** The slider display *)

Lemma element_of_set_trace n t s : element_of n (set_trace t s) = element_of n s.
Proof. reflexivity. Qed.

Lemma set_style_opacity_run n v s :
  set_style_opacity n v s
  = (Normal tt, set_trace (trace (page_win s) ++ [StyleSet n "opacity" v])
                  (modify_node n (with_opacity v) s)).
Proof. reflexivity. Qed.

Lemma set_style_pointerEvents_run n v s :
  set_style_pointerEvents n v s
  = (Normal tt, set_trace (trace (page_win s) ++ [StyleSet n "pointerEvents" v])
                  (modify_node n (with_pointerEvents v) s)).
Proof. reflexivity. Qed.

(** The loop of [updateSlider] over the slides from position [k] on. *)
Lemma forEach_slides_run (k : nat) (sl : list node) (s : page) :
  ∃ s',
    forEach (imap (λ j, pair (k + j)%nat) sl) (λ '(index, slide),
      i ← read (λ s, currentProjectIndex (page_js s));
      if bool_decide (Z.of_nat index = i) then classList_add slide "active"
      else classList_remove slide "active") s = (Normal tt, s') ∧
    page_js s' = page_js s ∧
    listeners (page_win s') = listeners (page_win s) ∧
    (∀ n, n ∉ sl → element_of n s' = element_of n s) ∧
    (NoDup sl → ∀ j n, sl !! j = Some n →
       element_of n s'
       = (if bool_decide (Z.of_nat (k + j) = currentProjectIndex (page_js s))
          then add_class "active" else remove_class "active") <$> element_of n s).
Proof.
  revert k s. induction sl as [|a sl IH]; intros k s.
  - exists s. cbn [imap forEach]. split; [done|]. split; [done|]. split; [done|].
    split; [done|]. intros _ j n H. by rewrite lookup_nil in H.
  - rewrite imap_cons. cbn [forEach]. rewrite bind_run.
    rewrite (imap_ext _ (λ j, pair (S k + j)%nat) sl)
      by (intros j x _; cbn; f_equal; lia).
    set (f := if bool_decide (Z.of_nat (k + 0) = currentProjectIndex (page_js s))
              then add_class "active" else remove_class "active").
    set (s1 := modify_node a f s).
    assert (∃ t, (i ← read (λ s, currentProjectIndex (page_js s));
                  if bool_decide (Z.of_nat (k + 0) = i) then classList_add a "active"
                  else classList_remove a "active") s = (Normal tt, set_trace t s1)) as [t ->].
    { rewrite bind_run. cbn [read]. subst s1 f. case_bool_decide.
      - rewrite classList_add_run. by eexists.
      - rewrite classList_remove_run. by eexists. }
    destruct (IH (S k) (set_trace t s1)) as (s' & -> & Hjs & Hl & Hout & Hin).
    exists s'. split; [done|]. split; [done|]. split; [done|]. split.
    + intros n Hn. apply not_elem_of_cons in Hn as [Hna Hn].
      rewrite (Hout n Hn), element_of_set_trace. subst s1.
      rewrite element_of_modify, decide_False by done. by destruct (element_of n s).
    + intros Hnd j n Hj. apply NoDup_cons in Hnd as [Ha Hnd].
      destruct j as [|j]; cbn in Hj.
      * injection Hj as ->. rewrite (Hout n Ha), element_of_set_trace. subst s1.
        by rewrite element_of_modify, decide_True.
      * rewrite (Hin Hnd j n Hj), element_of_set_trace. subst s1.
        rewrite element_of_modify, decide_False.
        -- replace (S k + j)%nat with (k + S j)%nat by lia.
           change (currentProjectIndex (page_js (set_trace t (modify_node a f s))))
             with (currentProjectIndex (page_js s)).
           by destruct (element_of n s).
        -- intros ->. apply Ha. by apply list_elem_of_lookup_2 in Hj.
Qed.

Lemma has_class_with_opacity c v e : has_class c (with_opacity v e) = has_class c e.
Proof. reflexivity. Qed.

Lemma has_class_with_pointerEvents c v e : has_class c (with_pointerEvents v e) = has_class c e.
Proof. reflexivity. Qed.

Lemma updateSlider_spec (env : slider_env) (s : page) :
  NoDup (slides env) → slides env ≠ [] → newPrevBtn env ≠ newNextBtn env →
  let i := currentProjectIndex (page_js s) in
  let last := Z.of_nat (length (slides env)) - 1 in
  let s' := (updateSlider env s).2 in
  (updateSlider env s).1 = Normal tt ∧
  page_js s' = page_js s ∧
  (∀ j n, slides env !! j = Some n →
     has_class "active" <$> element_of n s'
     = (λ _, bool_decide (Z.of_nat j = i)) <$> element_of n s) ∧
  style_opacity <$> element_of (newPrevBtn env) s'
  = (λ _, if bool_decide (i = 0) then "0.2" else "1") <$> element_of (newPrevBtn env) s ∧
  style_pointerEvents <$> element_of (newPrevBtn env) s'
  = (λ _, if bool_decide (i = 0) then "none" else "auto") <$> element_of (newPrevBtn env) s ∧
  style_opacity <$> element_of (newNextBtn env) s'
  = (λ _, if bool_decide (i = last) then "0.2" else "1") <$> element_of (newNextBtn env) s ∧
  style_pointerEvents <$> element_of (newNextBtn env) s'
  = (λ _, if bool_decide (i = last) then "none" else "auto") <$> element_of (newNextBtn env) s.
Proof.
  intros Hnd Hne Hbtn. cbn zeta. unfold updateSlider.
  assert (∃ a, head (slides env) = Some a) as [a Ha].
  { destruct (slides env); [done | by eexists]. }
  rewrite bind_run, Ha. cbn [deref mret Js_ret]. rewrite bind_run, emit_run.
  cbv beta iota. rewrite bind_run.
  destruct (forEach_slides_run 0 (slides env)
              (set_trace (trace (page_win s) ++ [GsapTo (ByRef (Some (track env)))]) s))
    as (s1 & Hrun & Hjs & _ & Hout & Hin).
  match goal with
  | |- context [forEach ?l ?f ?st] =>
      assert (forEach l f st = (Normal tt, s1)) as -> by exact Hrun
  end.
  cbv beta iota.
  repeat first
    [ rewrite bind_run | rewrite set_style_opacity_run | rewrite set_style_pointerEvents_run
    | progress cbn [read] | progress cbv beta iota ].
  rewrite Hjs. cbn [set_trace on_win page_js fst snd].
  split; [done|]. split; [done|].
  assert (∀ n, element_of n s1 = element_of n s ∨
               ∃ f, element_of n s1 = f <$> element_of n s ∧
                    (∀ e, style_opacity (f e) = style_opacity e) ∧
                    (∀ e, style_pointerEvents (f e) = style_pointerEvents e)) as Hstyle.
  { intros n. destruct (decide (n ∈ slides env)) as [Hn|Hn]; [|left; by apply Hout].
    apply list_elem_of_lookup_1 in Hn as [j Hj]. right.
    rewrite (Hin Hnd j n Hj), element_of_set_trace. eexists. split; [done|].
    by case_bool_decide. }
  repeat first [rewrite element_of_set_trace | rewrite element_of_modify].
  rewrite !(decide_True (P := newNextBtn env = newNextBtn env)) by done.
  rewrite !(decide_True (P := newPrevBtn env = newPrevBtn env)) by done.
  rewrite !(decide_False (P := newPrevBtn env = newNextBtn env)) by done.
  rewrite !(decide_False (P := newNextBtn env = newPrevBtn env)) by done.
  split; [|split; [|split; [|split]]].
  - intros j n Hj. repeat first [rewrite element_of_set_trace | rewrite element_of_modify].
    rewrite (Hin Hnd j n Hj), element_of_set_trace.
    change (currentProjectIndex (page_js (set_trace ?t s))) with (currentProjectIndex (page_js s)).
    destruct (element_of n s) as [e|]; [|by repeat destruct (decide _)].
    cbn [Nat.add fmap option_fmap option_map].
    repeat destruct (decide _); cbn [id];
      repeat first
        [ match goal with
          | |- context [has_class ?c (with_opacity ?v ?e0)] =>
              change (has_class c (with_opacity v e0)) with (has_class c e0)
          | |- context [has_class ?c (with_pointerEvents ?v ?e0)] =>
              change (has_class c (with_pointerEvents v e0)) with (has_class c e0)
          end ];
      destruct (bool_decide (Z.of_nat j = currentProjectIndex (page_js s)));
      by rewrite ?has_class_add_same, ?has_class_remove_same.
  - destruct (Hstyle (newPrevBtn env)) as [->|(f & -> & _ & _)];
      by destruct (element_of (newPrevBtn env) s).
  - destruct (Hstyle (newPrevBtn env)) as [->|(f & -> & _ & _)];
      by destruct (element_of (newPrevBtn env) s).
  - destruct (Hstyle (newNextBtn env)) as [->|(f & -> & _ & _)];
      by destruct (element_of (newNextBtn env) s).
  - destruct (Hstyle (newNextBtn env)) as [->|(f & -> & _ & _)];
      by destruct (element_of (newNextBtn env) s).
Qed.

(** X12.  [updateSlider] shows the slide the index points at: it
    completes normally when there is a slide, leaves exactly the slide
    at position [currentProjectIndex] marked active, and dims and
    disables the next button exactly at the last index and the prev
    button exactly at index 0. *)
Theorem updateSlider_shows_current_slide (env : slider_env) (s : page) :
  NoDup (slides env) → slides env ≠ [] → newPrevBtn env ≠ newNextBtn env →
  let i := currentProjectIndex (page_js s) in
  let last := Z.of_nat (length (slides env)) - 1 in
  let s' := (updateSlider env s).2 in
  (updateSlider env s).1 = Normal tt ∧
  page_js s' = page_js s ∧
  (∀ j n, slides env !! j = Some n →
     has_class "active" <$> element_of n s'
     = (λ _, bool_decide (Z.of_nat j = i)) <$> element_of n s) ∧
  style_opacity <$> element_of (newPrevBtn env) s'
  = (λ _, if bool_decide (i = 0) then "0.2" else "1") <$> element_of (newPrevBtn env) s ∧
  style_pointerEvents <$> element_of (newPrevBtn env) s'
  = (λ _, if bool_decide (i = 0) then "none" else "auto") <$> element_of (newPrevBtn env) s ∧
  style_opacity <$> element_of (newNextBtn env) s'
  = (λ _, if bool_decide (i = last) then "0.2" else "1") <$> element_of (newNextBtn env) s ∧
  style_pointerEvents <$> element_of (newNextBtn env) s'
  = (λ _, if bool_decide (i = last) then "none" else "auto") <$> element_of (newNextBtn env) s.
Proof. apply updateSlider_spec. Qed.

(** The slider of the sample page once the load event has initialised it. *)
Lemma updateSlider_shows_current_slide_witness :
  let env := SliderEnv [15; 16; 17]%nat 14%nat 43%nat 69%nat 0%nat in
  let s := step (Deliver Window "load" 0) loaded_page in
  let i := currentProjectIndex (page_js s) in
  let last := Z.of_nat (length (slides env)) - 1 in
  let s' := (updateSlider env s).2 in
  (updateSlider env s).1 = Normal tt ∧
  page_js s' = page_js s ∧
  (∀ j n, slides env !! j = Some n →
     has_class "active" <$> element_of n s'
     = (λ _, bool_decide (Z.of_nat j = i)) <$> element_of n s) ∧
  style_opacity <$> element_of (newPrevBtn env) s'
  = (λ _, if bool_decide (i = 0) then "0.2" else "1") <$> element_of (newPrevBtn env) s ∧
  style_pointerEvents <$> element_of (newPrevBtn env) s'
  = (λ _, if bool_decide (i = 0) then "none" else "auto") <$> element_of (newPrevBtn env) s ∧
  style_opacity <$> element_of (newNextBtn env) s'
  = (λ _, if bool_decide (i = last) then "0.2" else "1") <$> element_of (newNextBtn env) s ∧
  style_pointerEvents <$> element_of (newNextBtn env) s'
  = (λ _, if bool_decide (i = last) then "none" else "auto") <$> element_of (newNextBtn env) s.
Proof.
  assert (NoDup [15; 16; 17]%nat) as H1 by (apply (bool_decide_unpack _); by vm_compute).
  assert ([15; 16; 17]%nat ≠ []) as H2 by done.
  assert (43%nat ≠ 69%nat) as H3 by done.
  exact (updateSlider_shows_current_slide (SliderEnv [15; 16; 17]%nat 14%nat 43%nat 69%nat 0%nat)
           (step (Deliver Window "load" 0) loaded_page) H1 H2 H3).
Defined.

(** ** Slider buttons and gestures *)

Lemma updateSlider_normal env s :
  slides env ≠ [] →
  ∃ s', updateSlider env s = (Normal tt, s') ∧ page_js s' = page_js s ∧
        listeners (page_win s') = listeners (page_win s).
Proof.
  intros Hne. unfold updateSlider.
  assert (∃ a, head (slides env) = Some a) as [a Ha].
  { destruct (slides env); [done | by eexists]. }
  rewrite bind_run, Ha. cbn [deref mret Js_ret]. rewrite bind_run, emit_run.
  cbv beta iota. rewrite bind_run.
  destruct (forEach_slides_run 0 (slides env)
              (set_trace (trace (page_win s) ++ [GsapTo (ByRef (Some (track env)))]) s))
    as (s1 & Hrun & Hjs & Hl & _).
  match goal with
  | |- context [forEach ?l ?f ?st] =>
      assert (forEach l f st = (Normal tt, s1)) as -> by exact Hrun
  end.
  cbv beta iota.
  repeat first
    [ rewrite bind_run | rewrite set_style_opacity_run | rewrite set_style_pointerEvents_run
    | progress cbn [read] | progress cbv beta iota ].
  eexists. split; [reflexivity|]. split; [exact Hjs | exact Hl].
Qed.

Lemma fmap_const_eq {A B C} (f : A → B) (g : A → B) (c : C) (x y : option A) :
  f <$> x = g <$> y → (λ _, c) <$> x = (λ _, c) <$> y.
Proof. by destruct x, y. Qed.

(** X13.  Inside the range the next button moves the slider one slide
    forward and the prev button takes it back: after the pair the index
    and the slide shown are what they were. *)
Theorem slider_next_then_prev (env : slider_env) (s : page) :
  NoDup (slides env) → newPrevBtn env ≠ newNextBtn env →
  0 ≤ currentProjectIndex (page_js s) < Z.of_nat (length (slides env)) - 1 →
  let i := currentProjectIndex (page_js s) in
  let after_next := slider_next_click env s in
  let after_prev := slider_prev_click env after_next.2 in
  after_next.1 = Normal tt ∧
  currentProjectIndex (page_js after_next.2) = i + 1 ∧
  (∀ j n, slides env !! j = Some n →
     has_class "active" <$> element_of n after_next.2
     = (λ _, bool_decide (Z.of_nat j = i + 1)) <$> element_of n s) ∧
  after_prev.1 = Normal tt ∧
  currentProjectIndex (page_js after_prev.2) = i ∧
  (∀ j n, slides env !! j = Some n →
     has_class "active" <$> element_of n after_prev.2
     = (λ _, bool_decide (Z.of_nat j = i)) <$> element_of n s).
Proof.
  intros Hnd Hbtn Hi. cbn zeta.
  assert (slides env ≠ []) as Hne.
  { intros E. rewrite E in Hi. cbn in Hi. lia. }
  unfold slider_next_click. rewrite bind_run. cbn [read]. unfold when.
  rewrite bool_decide_eq_true_2 by lia. rewrite bind_run. cbn [write].
  set (s0 := set_currentProjectIndex (currentProjectIndex (page_js s) + 1) s).
  destruct (updateSlider_spec env s0 Hnd Hne Hbtn) as (Hn1 & Hjs1 & Hact1 & _).
  destruct (updateSlider env s0) as [c1 s1]. cbn [fst snd] in *. subst c1.
  split; [done|]. split; [by rewrite Hjs1|]. split; [exact Hact1|].
  unfold slider_prev_click, when. rewrite bind_run. cbn [read]. rewrite Hjs1.
  change (currentProjectIndex (page_js s0)) with (currentProjectIndex (page_js s) + 1).
  rewrite bool_decide_eq_true_2 by lia. rewrite bind_run. cbn [write].
  replace (currentProjectIndex (page_js s) + 1 - 1) with (currentProjectIndex (page_js s)) by lia.
  set (s2 := set_currentProjectIndex (currentProjectIndex (page_js s)) s1).
  destruct (updateSlider_spec env s2 Hnd Hne Hbtn) as (Hn3 & Hjs3 & Hact3 & _).
  destruct (updateSlider env s2) as [c3 s3]. cbn [fst snd] in *. subst c3.
  split; [done|]. split; [by rewrite Hjs3|].
  intros j n Hj. rewrite (Hact3 j n Hj).
  change (currentProjectIndex (page_js s2)) with (currentProjectIndex (page_js s)).
  change (element_of n s2) with (element_of n s1).
  apply (fmap_const_eq _ _ _ _ _ (Hact1 j n Hj)).
Qed.

Lemma slider_next_then_prev_witness :
  let env := SliderEnv [15; 16; 17]%nat 14%nat 43%nat 69%nat 0%nat in
  let s := step (Deliver Window "load" 0) loaded_page in
  let i := currentProjectIndex (page_js s) in
  let after_next := slider_next_click env s in
  let after_prev := slider_prev_click env after_next.2 in
  after_next.1 = Normal tt ∧
  currentProjectIndex (page_js after_next.2) = i + 1 ∧
  (∀ j n, slides env !! j = Some n →
     has_class "active" <$> element_of n after_next.2
     = (λ _, bool_decide (Z.of_nat j = i + 1)) <$> element_of n s) ∧
  after_prev.1 = Normal tt ∧
  currentProjectIndex (page_js after_prev.2) = i ∧
  (∀ j n, slides env !! j = Some n →
     has_class "active" <$> element_of n after_prev.2
     = (λ _, bool_decide (Z.of_nat j = i)) <$> element_of n s).
Proof.
  assert (NoDup [15; 16; 17]%nat) as H1 by (apply (bool_decide_unpack _); by vm_compute).
  assert (43%nat ≠ 69%nat) as H2 by done.
  assert (0 ≤ currentProjectIndex (page_js (step (Deliver Window "load" 0) loaded_page))
          < Z.of_nat (length [15; 16; 17]%nat) - 1) as H3.
  { apply (bool_decide_unpack _). by vm_compute. }
  exact (slider_next_then_prev (SliderEnv [15; 16; 17]%nat 14%nat 43%nat 69%nat 0%nat)
           (step (Deliver Window "load" 0) loaded_page) H1 H2 H3).
Defined.

(** ** Gestures on the track *)

Lemma set_drags_same s : set_drags (drags (page_js s)) s = s.
Proof. by destruct s as [d w []]. Qed.

(** The touchstart listeners of [envs], run in turn. *)
Lemma touchstart_fold x0 envs s :
  ∃ D, fold_left (λ s' env, (slider_touchstart_handler env x0 s').2) envs s = set_drags D s ∧
       length D = length (drags (page_js s)) ∧
       (∀ d, drags (page_js s) !! d = Some (x0, true) → D !! d = Some (x0, true)) ∧
       (∀ env, env ∈ envs → (drag env < length (drags (page_js s)))%nat →
               D !! drag env = Some (x0, true)).
Proof.
  revert s. induction envs as [|e envs IH]; intros s.
  - exists (drags (page_js s)). cbn [fold_left]. rewrite set_drags_same.
    split; [done|]. split; [done|]. split; [done|]. intros env H. by inversion H.
  - cbn [fold_left]. unfold slider_touchstart_handler at 2. cbn [write snd].
    set (s1 := set_drags (<[drag e := (x0, true)]> (drags (page_js s))) s).
    destruct (IH s1) as (D & -> & Hlen & Hkeep & Hset). exists D.
    subst s1. cbn [set_drags on_js page_js drags] in *. rewrite length_insert in Hlen.
    split; [done|]. split; [done|]. split.
    + intros d Hd. apply Hkeep. destruct (decide (d = drag e)) as [->|Hne].
      * apply list_lookup_insert_eq. by apply lookup_lt_Some in Hd.
      * by rewrite list_lookup_insert_ne.
    + intros env Hin Hlt. apply elem_of_cons in Hin as [->|Hin].
      * apply Hkeep. by apply list_lookup_insert_eq.
      * apply Hset; [done|]. by rewrite length_insert.
Qed.

(** One touchend listener whose gesture is under way. *)
Lemma touchend_run env x0 x1 s :
  drags (page_js s) !! drag env = Some (x0, true) → slides env ≠ [] →
  ∃ s', slider_touchend_handler env x1 s = (Normal tt, s') ∧
        currentProjectIndex (page_js s')
        = swipe (x0 - x1) (Z.of_nat (length (slides env)) - 1) (currentProjectIndex (page_js s)) ∧
        drags (page_js s') = <[drag env := (x0, false)]> (drags (page_js s)) ∧
        listeners (page_win s') = listeners (page_win s).
Proof.
  intros Hcell Hne. unfold slider_touchend_handler, swipe, when.
  rewrite bind_run. cbn [read]. rewrite Hcell.
  change (default (0, false) (Some (x0, true))) with (x0, true). cbv beta iota. cbn [negb].
  rewrite bind_run. case_bool_decide as Habs.
  - rewrite bind_run. cbn [read]. rewrite bind_run.
    set (m := if bool_decide (x0 - x1 > 0) && _ then _ else _).
    assert (∃ s0, m s = (Normal tt, s0) ∧
                  currentProjectIndex (page_js s0)
                  = (if bool_decide (x0 - x1 > 0)
                        && bool_decide (currentProjectIndex (page_js s)
                                        < Z.of_nat (length (slides env)) - 1)
                     then currentProjectIndex (page_js s) + 1
                     else if bool_decide (x0 - x1 < 0)
                             && bool_decide (currentProjectIndex (page_js s) > 0)
                          then currentProjectIndex (page_js s) - 1
                          else currentProjectIndex (page_js s)) ∧
                  drags (page_js s0) = drags (page_js s) ∧
                  listeners (page_win s0) = listeners (page_win s)) as (s0 & -> & Hi & Hd & Hl).
    { subst m. destruct (_ && _); [by eexists|]. destruct (_ && _); by eexists. }
    destruct (updateSlider_normal env s0 Hne) as (s2 & -> & Hjs & Hl2).
    cbn [write]. eexists. split; [reflexivity|].
    cbn [set_drags on_js page_js currentProjectIndex drags page_win].
    rewrite Hjs, Hi, Hd, Hl2, Hl. done.
  - cbn [mret Js_ret write]. eexists. split; [reflexivity|]. done.
Qed.

(** The touchend listeners of [envs], run in turn. *)
Lemma touchend_fold x0 x1 envs s :
  NoDup (drag <$> envs) →
  (∀ env, env ∈ envs → drags (page_js s) !! drag env = Some (x0, true) ∧ slides env ≠ []) →
  currentProjectIndex
    (page_js (fold_left (λ s' env, (slider_touchend_handler env x1 s').2) envs s))
  = fold_left (λ i env, swipe (x0 - x1) (Z.of_nat (length (slides env)) - 1) i) envs
      (currentProjectIndex (page_js s)).
Proof.
  revert s. induction envs as [|e envs IH]; intros s Hnd Hcells; [done|].
  cbn [fmap list_fmap] in Hnd. apply NoDup_cons in Hnd as [He Hnd].
  cbn [fold_left].
  destruct (Hcells e) as [Hc Hne]; [by left|].
  destruct (touchend_run e x0 x1 s Hc Hne) as (s1 & -> & Hi & Hd & _). cbn [snd].
  rewrite IH, Hi; [done|done|].
  intros env Hin. destruct (Hcells env) as [Hc' Hne']; [by right|]. split; [|done].
  rewrite Hd, list_lookup_insert_ne; [done|].
  intros E. apply He. rewrite E. apply list_elem_of_fmap. by exists env.
Qed.

Lemma fold_closures {A} (f : A → listener) (h : A → page → page) t x (l : list A) s :
  (∀ a s', (run_closure (l_closure (f a)) t x s').2 = h a s') →
  fold_left (λ s' l0, (run_closure (l_closure l0) t x s').2) (f <$> l) s
  = fold_left (λ s' a, h a s') l s.
Proof.
  intros H. revert s. induction l as [|a l IH]; intros s; [done|].
  cbn [fmap list_fmap fold_left]. by rewrite H, IH.
Qed.

(** X14.  The track keeps the touch listeners of every run of
    [initProjectsSlider], each with its own record of the gesture, so a
    gesture is counted once per run: after a touch that starts at [x0]
    and ends at [x1] the index is what the listeners of all the runs
    make of it one after the other. *)
Theorem swipe_is_counted_once_per_initialisation
    (s : page) (tr : node) (envs : list slider_env) (x0 x1 : Z) :
  filter (λ l, l_target l = Node tr ∧ l_type l = "touchstart") (listeners (page_win s))
  = touchstart_listeners tr envs →
  filter (λ l, l_target l = Node tr ∧ l_type l = "touchend") (listeners (page_win s))
  = touchend_listeners tr envs →
  NoDup (drag <$> envs) →
  Forall (λ env, (drag env < length (drags (page_js s)))%nat ∧ slides env ≠ []) envs →
  currentProjectIndex
    (page_js (run [Deliver (Node tr) "touchstart" x0; Deliver (Node tr) "touchend" x1] s))
  = fold_left (λ i env, swipe (x0 - x1) (Z.of_nat (length (slides env)) - 1) i) envs
      (currentProjectIndex (page_js s)).
Proof.
  intros Hts Hte Hnd Hall. cbn [run fold_left step]. unfold dispatch at 2.
  change (listeners (page_win (set_defaultPrevented false s))) with (listeners (page_win s)).
  rewrite Hts. unfold touchstart_listeners.
  rewrite (fold_closures _ (λ env s', (slider_touchstart_handler env x0 s').2)) by done.
  destruct (touchstart_fold x0 envs (set_defaultPrevented false s)) as (D & -> & Hlen & _ & Hset).
  unfold dispatch.
  change (listeners (page_win (set_drags D (set_defaultPrevented false s))))
    with (listeners (page_win s)).
  rewrite Hte. unfold touchend_listeners.
  rewrite (fold_closures _ (λ env s', (slider_touchend_handler env x1 s').2)) by done.
  rewrite (touchend_fold x0 x1); [done|done|].
  intros env Hin. rewrite Forall_forall in Hall. destruct (Hall env Hin) as [Hlt Hne].
  split; [|done]. cbn [set_defaultPrevented set_drags on_win on_js page_js drags].
  by apply Hset.
Qed.

(** On the sample page the slider was initialised by the load event and
    again after the projects view was entered: one swipe moves it from
    the first slide to the third. *)
Lemma swipe_is_counted_once_per_initialisation_witness :
  let s := run [Deliver Window "load" 0; Inline_showView "projects"; Fire cb_initProjectsSlider]
             loaded_page in
  let envs := [SliderEnv [15; 16; 17]%nat 14%nat 43%nat 69%nat 0%nat;
               SliderEnv [15; 16; 17]%nat 14%nat 143%nat 269%nat 1%nat] in
  currentProjectIndex
    (page_js (run [Deliver (Node 14) "touchstart" 300; Deliver (Node 14) "touchend" 10] s))
  = fold_left (λ i env, swipe (300 - 10) (Z.of_nat (length (slides env)) - 1) i) envs
      (currentProjectIndex (page_js s)).
Proof.
  set (s := run [Deliver Window "load" 0; Inline_showView "projects"; Fire cb_initProjectsSlider]
              loaded_page).
  set (envs := [SliderEnv [15; 16; 17]%nat 14%nat 43%nat 69%nat 0%nat;
                SliderEnv [15; 16; 17]%nat 14%nat 143%nat 269%nat 1%nat]).
  assert (filter (λ l, l_target l = Node 14 ∧ l_type l = "touchstart") (listeners (page_win s))
          = touchstart_listeners 14%nat envs) as H1 by (by vm_compute).
  assert (filter (λ l, l_target l = Node 14 ∧ l_type l = "touchend") (listeners (page_win s))
          = touchend_listeners 14%nat envs) as H2 by (by vm_compute).
  assert (NoDup (drag <$> envs)) as H3 by (apply (bool_decide_unpack _); by vm_compute).
  assert (Forall (λ env, (drag env < length (drags (page_js s)))%nat ∧ slides env ≠ []) envs)
    as H4.
  { apply (bool_decide_unpack _). by vm_compute. }
  exact (swipe_is_counted_once_per_initialisation s 14%nat envs 300 10 H1 H2 H3 H4).
Defined.

(** ** Setting the slider up *)

Lemma parent_in_is_Some n t :
  n ∈ ids t → root_node t = n ∨ is_Some (parent_in n t).
Proof.
  induction t as [m e kids IH] using dom_tree_ind.
  unfold ids. cbn [flat fmap list_fmap fst root_node]. rewrite elem_of_cons.
  intros [->|Hin]; [by left|]. right. cbn [parent_in].
  induction IH as [|k kids Hk _ IHkids]; [by inversion Hin|].
  cbn [flat_map] in Hin. rewrite fmap_app, elem_of_app in Hin.
  destruct (decide (root_node k = n)); [by eexists|].
  destruct (parent_in n k) eqn:Ek; [by eexists|].
  destruct Hin as [Hin|Hin]; [|by apply IHkids].
  destruct (Hk Hin) as [?|[? ?]]; congruence.
Qed.

Lemma cloneNode_run n s u :
  lookup_tree n (page_dom s) = Some u →
  cloneNode n s
  = (Normal (clone_tree (next_node (page_dom s)) u),
     set_trees (document (page_dom s)) (detached (page_dom s))
       (next_node (page_dom s) + next_node (page_dom s))%nat s).
Proof. intros H. unfold cloneNode. by rewrite H. Qed.

(** Replacing an attached element. *)
Lemma replaceChild_attached X old s :
  old ∈ ids (document (page_dom s)) →
  ∃ ot doc',
    subtree old (document (page_dom s)) = Some ot ∧
    replace_subtree old X (document (page_dom s)) = Some doc' ∧
    replaceChild X old s
    = (Normal tt,
       set_trace (trace (page_win s) ++ [ReplaceChild (root_node X) old])
         (set_trees doc' (detached (page_dom s) ++ [ot]) (next_node (page_dom s)) s)).
Proof.
  intros Hin. destruct (lookup_tree_attached old (page_dom s) Hin) as (ot & Hl & Hs).
  destruct (replace_subtree old X (document (page_dom s))) as [doc'|] eqn:Hr.
  - exists ot, doc'. split; [done|]. split; [done|].
    unfold replaceChild. by rewrite Hl, Hr.
  - by apply replace_subtree_None in Hr.
Qed.

(** Replacing any element leaves the variables and the listeners alone. *)
Lemma replaceChild_frame X old s :
  (replaceChild X old s).1 = Normal tt ∧
  page_js (replaceChild X old s).2 = page_js s ∧
  listeners (page_win (replaceChild X old s).2) = listeners (page_win s).
Proof.
  unfold replaceChild. destruct (lookup_tree old (page_dom s)); [|done].
  destruct (replace_subtree old X (document (page_dom s))); [done|].
  by destruct (replace_in_forest old X (detached (page_dom s))).
Qed.

(** After an attached element other than [n] was replaced, [n] still has
    a parent, in the document or in the tree that was taken out. *)
Lemma parentNode_after_replace X old n s :
  old ∈ ids (document (page_dom s)) → n ∈ ids (document (page_dom s)) → n ≠ old →
  ∃ r, (parentNode n (replaceChild X old s).2).1 = Normal (Some r).
Proof.
  intros Hold Hn Hne.
  destruct (replaceChild_attached X old s Hold) as (ot & doc' & Hsub & Hrep & ->).
  cbn [snd]. unfold parentNode, read. cbn [fst].
  cbn [set_trace on_win set_trees on_dom page_dom document detached].
  destruct (decide (root_node doc' = n)); [by eexists|].
  destruct (parent_in n doc') as [q|] eqn:Hq; [by eexists|].
  destruct (replace_subtree_flat _ _ _ _ Hrep) as (u & l1 & l2 & Hu & E & E').
  assert (u = ot) as -> by congruence.
  assert (n ∈ ids ot) as Hot.
  { destruct (decide (n ∈ ids ot)) as [|Hno]; [done|]. exfalso.
    assert (n ∈ ids doc') as Hd.
    { unfold ids in *. rewrite E' , !fmap_app, !elem_of_app.
      rewrite E, !fmap_app, !elem_of_app in Hn. tauto. }
    destruct (parent_in_is_Some n doc' Hd) as [?|[? ?]]; congruence. }
  destruct (subtree_flat _ _ _ Hsub) as [Hroot _].
  destruct (parent_in_is_Some n ot Hot) as [?|[q Hq']]; [congruence|].
  assert (∃ q', head (omap (parent_in n) (detached (page_dom s) ++ [ot])) = Some q') as [q' ->].
  { induction (detached (page_dom s)) as [|t0 ts IHts].
    - cbn. rewrite Hq'. by eexists.
    - cbn. destruct (parent_in n t0); [by eexists | exact IHts]. }
  by eexists.
Qed.

Lemma parentNode_attached n s :
  n ∈ ids (document (page_dom s)) → ∃ r, parentNode n s = (Normal (Some r), s).
Proof.
  intros Hin. unfold parentNode, read.
  destruct (decide (root_node (document (page_dom s)) = n)); [by eexists|].
  destruct (parent_in_is_Some n _ Hin) as [?|[q ->]]; [done | by eexists].
Qed.

Lemma distinct_ids_distinct_nodes i j t n m :
  NoDup (ids t) → i ≠ j → find_id i t = Some n → find_id j t = Some m → n ≠ m.
Proof.
  intros Hnd Hij Hn Hm ->.
  destruct (find_id_Some _ _ _ Hn) as (e1 & H1 & I1).
  destruct (find_id_Some _ _ _ Hm) as (e2 & H2 & I2).
  rewrite (NoDup_ids_entry _ _ _ _ Hnd H1 H2) in I1. congruence.
Qed.

Lemma initProjectsSlider_spec (s : page) (tr p n : node) :
  NoDup (ids (document (page_dom s))) →
  find_id "projects-track" (document (page_dom s)) = Some tr →
  select (SelClass "project-slide-item") [] (document (page_dom s)) ≠ [] →
  find_id "projects-prev" (document (page_dom s)) = Some p →
  find_id "projects-next" (document (page_dom s)) = Some n →
  let off := next_node (page_dom s) in
  let env := SliderEnv (select (SelClass "project-slide-item") [] (document (page_dom s)))
               tr (off + p)%nat (off + off + n)%nat (length (drags (page_js s))) in
  (initProjectsSlider s).1 = Normal tt ∧
  listeners (page_win (initProjectsSlider s).2) = listeners (page_win s) ++ slider_listeners env ∧
  drags (page_js (initProjectsSlider s).2) = drags (page_js s) ++ [(0, false)] ∧
  currentProjectIndex (page_js (initProjectsSlider s).2) = currentProjectIndex (page_js s).
Proof.
  intros Hnd Htr Hsl Hp Hn. cbn zeta. unfold initProjectsSlider.
  do 4 js_read. rewrite Htr, Hp, Hn.
  rewrite bool_decide_eq_false_2
    by (destruct (select _ _ _); [done | cbn; lia]).
  pose proof (find_id_ids _ _ _ Hp) as Hpin. pose proof (find_id_ids _ _ _ Hn) as Hnin.
  assert (n ≠ p) as Hnp.
  { apply (distinct_ids_distinct_nodes "projects-next" "projects-prev" _ _ _ Hnd); done. }
  (* the two clones *)
  rewrite bind_run. cbn [deref mret Js_ret]. rewrite bind_run.
  destruct (lookup_tree_attached p (page_dom s) Hpin) as (up & Hlp & Hsp).
  rewrite (cloneNode_run p s up Hlp). cbv beta iota.
  set (s1 := set_trees _ _ _ s).
  rewrite bind_run. cbn [deref mret Js_ret]. rewrite bind_run.
  destruct (lookup_tree_attached n (page_dom s1) Hnin) as (un & Hln & Hsn).
  rewrite (cloneNode_run n s1 un Hln). cbv beta iota.
  set (s2 := set_trees _ _ _ s1).
  (* the first replacement *)
  rewrite bind_run.
  destruct (parentNode_attached p s2 Hpin) as [r ->]. cbv beta iota.
  rewrite bind_run. cbn [deref mret Js_ret]. rewrite bind_run.
  pose proof (parentNode_after_replace
                (clone_tree (next_node (page_dom s)) up) p n s2 Hpin Hnin Hnp) as [r' Hr'].
  destruct (replaceChild_frame (clone_tree (next_node (page_dom s)) up) p s2) as (H1 & H2 & H3).
  destruct (replaceChild (clone_tree (next_node (page_dom s)) up) p s2) as [c3 s3].
  cbn [fst snd] in *. subst c3.
  (* the second replacement *)
  rewrite bind_run.
  change (parentNode n s3) with ((parentNode n s3).1, s3). rewrite Hr'. cbv beta iota.
  rewrite bind_run. cbn [deref mret Js_ret]. rewrite bind_run.
  destruct (replaceChild_frame (clone_tree (next_node (page_dom s1)) un) n s3) as (H4 & H5 & H6).
  destruct (replaceChild (clone_tree (next_node (page_dom s1)) un) n s3) as [c4 s4].
  cbn [fst snd] in *. subst c4.
  (* the listeners and the first display *)
  assert (root_node (clone_tree (next_node (page_dom s)) up) = (next_node (page_dom s) + p)%nat)
    as ->.
  { destruct (subtree_flat _ _ _ Hsp) as [<- _]. by destruct up. }
  assert (root_node (clone_tree (next_node (page_dom s1)) un)
          = (next_node (page_dom s) + next_node (page_dom s) + n)%nat) as ->.
  { destruct (subtree_flat _ _ _ Hsn) as [<- _]. by destruct un. }
  rewrite bind_run. cbn [read]. rewrite H5, H2.
  change (page_js s2) with (page_js s).
  set (env := SliderEnv _ tr _ _ _).
  repeat first [rewrite bind_run | progress cbn [addEventListener write] | progress cbv beta iota].
  match goal with
  | |- context [updateSlider env ?s5] =>
      destruct (updateSlider_normal env s5 Hsl) as (s6 & -> & Hjs & Hl)
  end.
  repeat first [rewrite bind_run | progress cbn [addEventListener write] | progress cbv beta iota].
  cbn [fst snd]. split; [done|].
  cbn [addEventListener write snd set_listeners set_drags on_win on_js page_win page_js
       listeners drags currentProjectIndex] in Hjs, Hl |- *.
  rewrite Hl, Hjs. cbn [drags currentProjectIndex]. rewrite H6, H3, H5, H2.
  split; [|done]. unfold slider_listeners. cbn [newNextBtn newPrevBtn track env].
  by rewrite <- !app_assoc.
Qed.

(** X15.  On a page with the track, at least one slide and both
    buttons, [initProjectsSlider] completes normally and adds exactly
    five listeners to those already registered: click listeners on the
    two cloned buttons, touchstart and touchend listeners on the track,
    and a resize listener on the window.  They share a new record of the
    gesture, and the index is left as it was. *)
Theorem initProjectsSlider_registers_listeners (s : page) (tr p n : node) :
  NoDup (ids (document (page_dom s))) →
  find_id "projects-track" (document (page_dom s)) = Some tr →
  select (SelClass "project-slide-item") [] (document (page_dom s)) ≠ [] →
  find_id "projects-prev" (document (page_dom s)) = Some p →
  find_id "projects-next" (document (page_dom s)) = Some n →
  let off := next_node (page_dom s) in
  let env := SliderEnv (select (SelClass "project-slide-item") [] (document (page_dom s)))
               tr (off + p)%nat (off + off + n)%nat (length (drags (page_js s))) in
  (initProjectsSlider s).1 = Normal tt ∧
  listeners (page_win (initProjectsSlider s).2) = listeners (page_win s) ++ slider_listeners env ∧
  drags (page_js (initProjectsSlider s).2) = drags (page_js s) ++ [(0, false)] ∧
  currentProjectIndex (page_js (initProjectsSlider s).2) = currentProjectIndex (page_js s).
Proof. apply initProjectsSlider_spec. Qed.

Lemma initProjectsSlider_registers_listeners_witness :
  let s := loaded_page in
  let off := next_node (page_dom s) in
  let env := SliderEnv (select (SelClass "project-slide-item") [] (document (page_dom s)))
               14%nat (off + 18)%nat (off + off + 19)%nat (length (drags (page_js s))) in
  (initProjectsSlider s).1 = Normal tt ∧
  listeners (page_win (initProjectsSlider s).2) = listeners (page_win s) ++ slider_listeners env ∧
  drags (page_js (initProjectsSlider s).2) = drags (page_js s) ++ [(0, false)] ∧
  currentProjectIndex (page_js (initProjectsSlider s).2) = currentProjectIndex (page_js s).
Proof.
  assert (NoDup (ids (document (page_dom loaded_page)))) as H1.
  { apply (bool_decide_unpack _). by vm_compute. }
  assert (find_id "projects-track" (document (page_dom loaded_page)) = Some 14%nat) as H2.
  { by vm_compute. }
  assert (select (SelClass "project-slide-item") [] (document (page_dom loaded_page)) ≠ [])
    as H3 by (by vm_compute).
  assert (find_id "projects-prev" (document (page_dom loaded_page)) = Some 18%nat) as H4.
  { by vm_compute. }
  assert (find_id "projects-next" (document (page_dom loaded_page)) = Some 19%nat) as H5.
  { by vm_compute. }
  exact (initProjectsSlider_registers_listeners loaded_page 14%nat 18%nat 19%nat H1 H2 H3 H4 H5).
Defined.

(** X16.  Without the complete markup of the slider,
    [initProjectsSlider] sets nothing up.  It returns at once when the
    track or the slides are missing, and it throws when there are slides
    but a button is missing; in each case the listeners, the document,
    the variables and the recorded calls are what they were. *)
Theorem initProjectsSlider_incomplete_markup (s : page) :
  let doc := document (page_dom s) in
  find_id "projects-track" doc = None ∨
  select (SelClass "project-slide-item") [] doc = [] ∨
  find_id "projects-prev" doc = None ∨
  find_id "projects-next" doc = None →
  (initProjectsSlider s).1
  = (if bool_decide (find_id "projects-track" doc = None
                     ∨ select (SelClass "project-slide-item") [] doc = [])
     then Normal tt
     else if bool_decide (find_id "projects-prev" doc = None)
          then Throw (TypeError "prevBtn")
          else Throw (TypeError "nextBtn")) ∧
  page_win (initProjectsSlider s).2 = page_win s ∧
  document (page_dom (initProjectsSlider s).2) = doc ∧
  page_js (initProjectsSlider s).2 = page_js s.
Proof.
  cbn zeta. intros Hmiss. unfold initProjectsSlider. do 4 js_read.
  destruct (find_id "projects-track" (document (page_dom s))) as [tr|] eqn:Htr.
  2: { rewrite (bool_decide_eq_true_2 (_ ∨ _)) by (by left). done. }
  destruct (select (SelClass "project-slide-item") [] (document (page_dom s))) as [|sl0 sls]
    eqn:Hsl.
  { rewrite (bool_decide_eq_true_2 (_ ∨ _)) by (by right). done. }
  rewrite (bool_decide_eq_false_2 (_ ∨ _)) by (by intros [?|?]).
  rewrite (bool_decide_eq_false_2 (length _ = _)) by (cbn; lia).
  destruct (find_id "projects-prev" (document (page_dom s))) as [p|] eqn:Hp.
  2: { rewrite (bool_decide_eq_true_2 (None = None)) by done. done. }
  rewrite (bool_decide_eq_false_2 (Some p = None)) by done.
  destruct Hmiss as [?|[?|[?|Hn]]]; try done. rewrite Hn.
  rewrite bind_run. cbn [deref mret Js_ret]. rewrite bind_run.
  destruct (lookup_tree_attached p (page_dom s) (find_id_ids _ _ _ Hp)) as (up & Hlp & _).
  by rewrite (cloneNode_run p s up Hlp).
Qed.

Lemma initProjectsSlider_incomplete_markup_witness :
  let s := page_without_slider_buttons in
  let doc := document (page_dom s) in
  (initProjectsSlider s).1
  = (if bool_decide (find_id "projects-track" doc = None
                     ∨ select (SelClass "project-slide-item") [] doc = [])
     then Normal tt
     else if bool_decide (find_id "projects-prev" doc = None)
          then Throw (TypeError "prevBtn")
          else Throw (TypeError "nextBtn")) ∧
  page_win (initProjectsSlider s).2 = page_win s ∧
  document (page_dom (initProjectsSlider s).2) = doc ∧
  page_js (initProjectsSlider s).2 = page_js s.
Proof.
  assert (let doc := document (page_dom page_without_slider_buttons) in
          find_id "projects-track" doc = None ∨
          select (SelClass "project-slide-item") [] doc = [] ∨
          find_id "projects-prev" doc = None ∨
          find_id "projects-next" doc = None) as H1.
  { right. right. left. by vm_compute. }
  exact (initProjectsSlider_incomplete_markup page_without_slider_buttons H1).
Defined.

(** ** The preloader *)

Lemma initPreloader_inactive s :
  has_preloader (document (page_dom s)) = false → initPreloader s = (Normal tt, s).
Proof.
  unfold has_preloader, initPreloader. do 3 js_read.
  destruct (head _); [|done]. by destruct (find_id _ _).
Qed.

Lemma initPreloader_active s b :
  has_preloader (document (page_dom s)) = true →
  (document_body s).1 = Normal (Some b) →
  initPreloader s
  = (Normal tt,
     set_timers (timers (page_win s) ++ [IntervalTimer "counterInterval" 20])
       ((if bool_decide (readyState (page_win s) = "complete") then set_isLoaded true
         else set_listeners (listeners (page_win s) ++ [Listener Window "load" preloader_load]))
          (set_trace (trace (page_win s) ++ [ClassAdd b "loading"])
             (modify_node b (add_class "loading") (set_isLoaded false s))))).
Proof.
  unfold has_preloader, initPreloader. intros Hpre Hb. do 3 js_read.
  destruct (head _); [|done]. destruct (find_id _ _); [|done].
  rewrite bind_run. cbn [write]. rewrite bind_run.
  change (document_body (set_isLoaded false s)) with ((document_body s).1, set_isLoaded false s).
  rewrite Hb. cbv beta iota. rewrite bind_run. cbn [deref mret Js_ret].
  rewrite bind_run, classList_add_run. cbv beta iota. rewrite bind_run. cbn [read].
  cbv beta iota. rewrite bind_run.
  change (readyState (page_win (set_trace ?t (modify_node ?n ?f (set_isLoaded false s)))))
    with (readyState (page_win s)).
  case_bool_decide; reflexivity.
Qed.

Lemma animateHeroEntrance_run s :
  ∃ t, animateHeroEntrance s = (Normal tt, set_trace t s).
Proof.
  unfold animateHeroEntrance.
  repeat first [rewrite bind_run | rewrite emit_run | progress cbn [querySelectorAll read]
               | progress cbv beta iota].
  by eexists.
Qed.

(** X17.  On a page with a body that has the two elements of the
    preloader, [initPreloader] completes normally, puts the class
    [loading] on the body, leaves every other element as it is and
    starts the counting interval; on a page without those elements it
    does nothing.  Whenever the callback that ends the preloader's
    timeline runs on a page with that body, it completes normally: it
    removes the class [loading] from the body, leaves the classes of
    every other element as they are, and issues the four animation calls
    of the hero entrance. *)
Theorem preloader_marks_body_until_finished (s : page) (b : node) :
  (document_body s).1 = Normal (Some b) →
  (if has_preloader (document (page_dom s)) then
     (initPreloader s).1 = Normal tt ∧
     has_class "loading" <$> element_of b (initPreloader s).2 = Some true ∧
     (∀ n, n ≠ b → element_of n (initPreloader s).2 = element_of n s) ∧
     timers (page_win (initPreloader s).2)
     = timers (page_win s) ++ [IntervalTimer "counterInterval" 20]
   else initPreloader s = (Normal tt, s)) ∧
  ∀ s', (document_body s').1 = Normal (Some b) →
    let heroWords := select (SelClass "hero-word") [] (document (page_dom s')) in
    (preloader_finished s').1 = Normal tt ∧
    has_class "loading" <$> element_of b (preloader_finished s').2 = Some false ∧
    (∀ n, n ≠ b → classList <$> element_of n (preloader_finished s').2
                  = classList <$> element_of n s') ∧
    trace (page_win (preloader_finished s').2)
    = trace (page_win s') ++
      [ClassRemove b "loading"; GsapSet (ByNodes heroWords); GsapTo (ByNodes heroWords);
       GsapFrom (BySelector ".hero-subtitle");
       GsapFrom (BySelector ".hero-top-bar, .hero-bottom-bar, .hero-age-circle")].
Proof.
  intros Hb. split.
  - destruct (has_preloader (document (page_dom s))) eqn:Hpre.
    2: { by apply initPreloader_inactive. }
    rewrite (initPreloader_active s b Hpre Hb). cbn [fst snd].
    set (s1 := set_trace _ (modify_node b (add_class "loading") (set_isLoaded false s))).
    set (s2 := (if bool_decide _ then _ else _) s1).
    assert (page_dom s2 = page_dom (modify_node b (add_class "loading") s)) as Hdom.
    { subst s2. by case_bool_decide. }
    assert (∀ n v, element_of n (set_timers v s2)
                   = element_of n (modify_node b (add_class "loading") s)) as Hel.
    { intros n v. unfold element_of. cbn [set_timers on_win page_dom]. by rewrite Hdom. }
    split; [done|]. split; [|split].
    + rewrite Hel, element_of_modify, decide_True by done.
      destruct (element_of_is_Some b s (body_attached _ _ Hb)) as [e ->].
      cbn. by rewrite has_class_add_same.
    + intros n Hn. rewrite Hel, element_of_modify, decide_False by done.
      by destruct (element_of n s).
    + subst s2. by case_bool_decide.
  - intros s' Hb' heroWords. unfold preloader_finished. rewrite bind_run.
    rewrite document_body_run, Hb'. cbv beta iota.
    rewrite bind_run. cbn [deref mret Js_ret]. rewrite bind_run, classList_remove_run.
    cbv beta iota. unfold animateHeroEntrance.
    repeat first [rewrite bind_run | rewrite emit_run | progress cbn [querySelectorAll read]
                 | progress cbv beta iota].
    cbn [fst snd].
    split; [done|].
    rewrite !element_of_set_trace.
    split; [|split].
    + rewrite element_of_modify, decide_True by done.
      destruct (element_of_is_Some b s' (body_attached _ _ Hb')) as [e ->].
      cbn. by rewrite has_class_remove_same.
    + intros n Hn. rewrite !element_of_set_trace, element_of_modify, decide_False by done.
      by destruct (element_of n s').
    + cbn [set_trace on_win page_win trace modify_node on_dom page_dom document].
      rewrite select_update; [|done|].
      * subst heroWords. by rewrite <- !app_assoc.
      * intros e. cbn [matches]. by apply has_class_remove.
Qed.

Lemma preloader_marks_body_until_finished_witness :
  (document_body menu_page).1 = Normal (Some 1%nat) ∧
  (if has_preloader (document (page_dom menu_page)) then
     (initPreloader menu_page).1 = Normal tt ∧
     has_class "loading" <$> element_of 1%nat (initPreloader menu_page).2 = Some true ∧
     (∀ n, n ≠ 1%nat → element_of n (initPreloader menu_page).2 = element_of n menu_page) ∧
     timers (page_win (initPreloader menu_page).2)
     = timers (page_win menu_page) ++ [IntervalTimer "counterInterval" 20]
   else initPreloader menu_page = (Normal tt, menu_page)) ∧
  ∀ s', (document_body s').1 = Normal (Some 1%nat) →
    let heroWords := select (SelClass "hero-word") [] (document (page_dom s')) in
    (preloader_finished s').1 = Normal tt ∧
    has_class "loading" <$> element_of 1%nat (preloader_finished s').2 = Some false ∧
    (∀ n, n ≠ 1%nat → classList <$> element_of n (preloader_finished s').2
                      = classList <$> element_of n s') ∧
    trace (page_win (preloader_finished s').2)
    = trace (page_win s') ++
      [ClassRemove 1%nat "loading"; GsapSet (ByNodes heroWords); GsapTo (ByNodes heroWords);
       GsapFrom (BySelector ".hero-subtitle");
       GsapFrom (BySelector ".hero-top-bar, .hero-bottom-bar, .hero-age-circle")].
Proof.
  assert ((document_body menu_page).1 = Normal (Some 1%nat)) as H1 by (by vm_compute).
  split; [done|].
  exact (preloader_marks_body_until_finished menu_page 1%nat H1).
Defined.

(** ** What the script sets up *)

Lemma forEach_preview_listeners pc pi l s :
  forEach l (λ item,
    addEventListener (Node item) "mouseenter" (preview_mouseenter item pc pi);;
    addEventListener (Node item) "mouseleave" (preview_mouseleave pc)) s
  = (Normal tt, set_listeners (listeners (page_win s) ++ flat_map (preview_listeners pc pi) l) s).
Proof.
  revert s. induction l as [|item l IH]; intros s.
  - cbn [forEach flat_map]. by rewrite app_nil_r, set_listeners_same.
  - cbn [forEach]. rewrite bind_run.
    change ((addEventListener (Node item) "mouseenter" (preview_mouseenter item pc pi);;
             addEventListener (Node item) "mouseleave" (preview_mouseleave pc)) s)
      with (Normal tt, set_listeners ((listeners (page_win s)
               ++ [Listener (Node item) "mouseenter" (preview_mouseenter item pc pi)])
               ++ [Listener (Node item) "mouseleave" (preview_mouseleave pc)]) s).
    cbv beta iota. rewrite IH. cbn [flat_map preview_listeners]. f_equal.
    unfold set_listeners, on_win. cbn. by rewrite <- !app_assoc.
Qed.

(** What [initPreloader] leaves for the rest of the script. *)
Lemma initPreloader_for_script s b :
  (document_body s).1 = Normal (Some b) →
  ∃ s1, initPreloader s = (Normal tt, s1) ∧
    (∀ i, find_id i (document (page_dom s1)) = find_id i (document (page_dom s))) ∧
    (∀ sel, simple sel = true →
            (∀ e, matches sel [] (add_class "loading" e) = matches sel [] e) →
            select sel [] (document (page_dom s1)) = select sel [] (document (page_dom s))) ∧
    listeners (page_win s1)
    = listeners (page_win s) ++
      (if has_preloader (document (page_dom s))
          && negb (bool_decide (readyState (page_win s) = "complete"))
       then [Listener Window "load" preloader_load] else []) ∧
    showView_var (page_js s1) = showView_var (page_js s) ∧
    currentProjectIndex (page_js s1) = currentProjectIndex (page_js s).
Proof.
  intros Hb. destruct (has_preloader (document (page_dom s))) eqn:Hpre.
  - rewrite (initPreloader_active s b Hpre Hb). eexists. split; [reflexivity|].
    cbn [andb]. case_bool_decide; cbn [negb];
      cbn [set_timers set_listeners set_isLoaded set_trace on_win on_js modify_node on_dom
           page_dom page_win page_js document listeners showView_var currentProjectIndex].
    + rewrite app_nil_r. split; [|split]; [| |done].
      * intros i. by apply find_id_update.
      * intros sel Hs Hm. by apply select_update.
    + split; [|split]; [| |done].
      * intros i. by apply find_id_update.
      * intros sel Hs Hm. by apply select_update.
  - rewrite (initPreloader_inactive s Hpre). exists s. cbn [andb]. by rewrite app_nil_r.
Qed.

Lemma class_selector_ignores_loading c e :
  c ≠ "loading" → matches (SelClass c) [] (add_class "loading" e) = matches (SelClass c) [] e.
Proof. intros Hc. cbn [matches]. by apply has_class_add. Qed.

Lemma addEventListener_run t ty c s :
  addEventListener t ty c s
  = (Normal tt, set_listeners (listeners (page_win s) ++ [Listener t ty c]) s).
Proof. reflexivity. Qed.

Ltac script_step :=
  repeat first
    [ progress cbv beta iota delta
        [read write getElementById querySelectorAll querySelector deref mret Js_ret
         throw fst snd
         page_dom page_win page_js document detached next_node
         readyState session_back session_url session_forward scrollY listeners timers
         reactions defaultPrevented trace
         showView_var lastScrollY isMenuOpen currentProjectIndex isLoaded drags
         menuTrigger navOverlay
         set_listeners set_trace on_win on_js on_dom set_showView_var set_lastScrollY
         set_menu_refs set_isMenuOpen set_currentProjectIndex]
    | rewrite bind_run | rewrite emit_run | rewrite addEventListener_run
    | rewrite initRefinedInteractions_run | rewrite forEach_preview_listeners ].

Lemma script_spec (s : page) (b : node) :
  (document_body s).1 = Normal (Some b) →
  let doc := document (page_dom s) in
  (script s).1 = script_completion doc ∧
  listeners (page_win (script s).2)
  = listeners (page_win s) ++ script_listeners (readyState (page_win s)) doc ∧
  showView_var (page_js (script s).2)
  = match script_completion doc with
    | Normal _ => showView_slider
    | Throw _ => showView_interactions
    end ∧
  currentProjectIndex (page_js (script s).2)
  = match script_completion doc with
    | Normal _ => 0
    | Throw _ => currentProjectIndex (page_js s)
    end ∧
  isMenuOpen (page_js (script s).2) = false ∧
  menuTrigger (page_js (script s).2) = find_id "mobile-menu-trigger" doc ∧
  navOverlay (page_js (script s).2) = find_id "nav-overlay" doc.
Proof.
  intros Hb. cbn zeta.
  destruct (script s) as [c s'] eqn:E. cbn [fst snd]. revert E.
  unfold script. rewrite bind_run, emit_run. cbv beta iota.
  rewrite bind_run.
  destruct (initPreloader_for_script
              (set_trace (trace (page_win s) ++ [GsapRegisterPlugin]) s) b Hb)
    as (s1 & -> & Hfind & Hsel & Hl & Hsv & Hidx).
  cbn [set_trace on_win page_dom page_win page_js listeners readyState] in Hfind, Hsel, Hl, Hsv, Hidx.
  cbv beta iota.
  unfold script_completion, script_listeners.
  rewrite <- !Hfind.
  rewrite <- !(Hsel (SelClass "hero-bg-graphic")), <- !(Hsel (SelClass "aesthetic-headline")),
    <- !(Hsel interactive_selector), <- !(Hsel (SelClass "nav-preview-container")),
    <- !(Hsel (SelClass "m-nav-item"));
    try done; try (intros e; by apply class_selector_ignores_loading).
  2: { intros e. cbn [matches interactive_selector]. by rewrite !has_class_add. }
  rewrite <- Hidx.
  set (pre := if has_preloader _ && _ then _ else _) in *.
  clear Hfind Hsel Hsv Hidx Hb.
  destruct s1 as [[doc1 det1 nx1] [rs1 sb1 su1 sf1 sy1 ls1 tm1 re1 dp1 tr1]
                    [sv1 ly1 mo1 ci1 il1 dr1 mt1 no1]].
  cbn [page_win listeners page_js showView_var currentProjectIndex] in Hl |- *.
  script_step.
  destruct (find_id "hero-aesthetic" doc1) as [hs|]; script_step;
    destruct (head (select (SelClass "nav-preview-container") [] doc1)) as [pc|];
    destruct (find_id "nav-preview-img" doc1) as [pi|]; script_step;
    destruct (find_id "mobile-menu-trigger" doc1) as [mt|]; script_step;
    try destruct (find_id "contact-form" doc1) as [f|]; script_step;
    intros [= <- <-];
    cbn [page_win page_js listeners showView_var currentProjectIndex
         isMenuOpen menuTrigger navOverlay];
    (split; [done|]); (split; [|done]);
    rewrite Hl, <- ?app_assoc, ?app_nil_r; reflexivity.
Qed.

(** X18.  On a page with a body the script stops with a [TypeError]
    exactly when the mobile menu button or, failing that, the contact
    form is missing.  The references and the state of the mobile menu
    are set in either case; but when the script stops, [showView] is
    left bound to its first wrapper, so that entering the projects view
    will not set the slider up again, and the slider index is not
    initialised. *)
Theorem script_stops_at_first_missing_element (s : page) (b : node) :
  (document_body s).1 = Normal (Some b) →
  let doc := document (page_dom s) in
  (script s).1 = script_completion doc ∧
  showView_var (page_js (script s).2)
  = match script_completion doc with
    | Normal _ => showView_slider
    | Throw _ => showView_interactions
    end ∧
  currentProjectIndex (page_js (script s).2)
  = match script_completion doc with
    | Normal _ => 0
    | Throw _ => currentProjectIndex (page_js s)
    end ∧
  isMenuOpen (page_js (script s).2) = false ∧
  menuTrigger (page_js (script s).2) = find_id "mobile-menu-trigger" doc ∧
  navOverlay (page_js (script s).2) = find_id "nav-overlay" doc.
Proof.
  intros Hb. destruct (script_spec s b Hb) as (H1 & _ & H3 & H4 & H5 & H6 & H7). done.
Qed.

Lemma script_stops_at_first_missing_element_witness :
  let s := page_without_menu_trigger in
  let doc := document (page_dom s) in
  (script s).1 = script_completion doc ∧
  showView_var (page_js (script s).2)
  = match script_completion doc with
    | Normal _ => showView_slider
    | Throw _ => showView_interactions
    end ∧
  currentProjectIndex (page_js (script s).2)
  = match script_completion doc with
    | Normal _ => 0
    | Throw _ => currentProjectIndex (page_js s)
    end ∧
  isMenuOpen (page_js (script s).2) = false ∧
  menuTrigger (page_js (script s).2) = find_id "mobile-menu-trigger" doc ∧
  navOverlay (page_js (script s).2) = find_id "nav-overlay" doc.
Proof.
  assert ((document_body page_without_menu_trigger).1 = Normal (Some 1%nat)) as H1.
  { by vm_compute. }
  exact (script_stops_at_first_missing_element page_without_menu_trigger 1%nat H1).
Defined.

(** X19.  The listeners the script registers on a page with a body, in
    order: the preloader's load listener (when the preloader starts
    before the page is complete), the DOMContentLoaded listener, the
    hero listener (when the hero section exists), three hover listeners
    per interactive element, the scroll listener, two preview listeners
    per item of the mobile menu (when the preview exists), the click
    listener of the menu button and, when button and form exist, the
    submit listener of the form and the load listener of the slider. *)
Theorem script_registers_listeners (s : page) (b : node) :
  (document_body s).1 = Normal (Some b) →
  listeners (page_win (script s).2)
  = listeners (page_win s) ++
    script_listeners (readyState (page_win s)) (document (page_dom s)).
Proof.
  intros Hb. destruct (script_spec s b Hb) as (_ & H2 & _). exact H2.
Qed.

Lemma script_registers_listeners_witness :
  listeners (page_win (script menu_page).2)
  = listeners (page_win menu_page) ++
    script_listeners (readyState (page_win menu_page)) (document (page_dom menu_page)).
Proof.
  assert ((document_body menu_page).1 = Normal (Some 1%nat)) as H1 by (by vm_compute).
  exact (script_registers_listeners menu_page 1%nat H1).
Defined.

(** X20.  No listener is ever removed: through the script and through
    whatever happens on the page afterwards, the listeners registered
    so far stay registered, in the same order, before the later ones. *)
Theorem listeners_are_never_removed (s : page) (inputs : list input) :
  listeners (page_win s) `prefix_of` listeners (page_win (script s).2) ∧
  listeners (page_win s) `prefix_of` listeners (page_win (run inputs s)).
Proof.
  assert (∀ s0 s', quiet s0 s' →
            listeners (page_win s) `prefix_of` listeners (page_win s0) →
            listeners (page_win s) `prefix_of` listeners (page_win s')) as Hq.
  { intros s0 s' (_ & Hl & _). by rewrite Hl. }
  assert (∀ t ty c, preserves (λ s0, listeners (page_win s) `prefix_of` listeners (page_win s0))
                      (addEventListener t ty c)) as Hls.
  { intros t ty c s0 H0. cbn. by apply prefix_app_r. }
  split.
  - apply (frame_script (λ s0, listeners (page_win s) `prefix_of` listeners (page_win s0)));
      try done.
  - apply (frame_run (λ s0, listeners (page_win s) `prefix_of` listeners (page_win s0)));
      try done.
Qed.

(** ** Asking for the same view twice *)

Lemma tmap_ext g h t : (∀ m e, g m e = h m e) → tmap g t = tmap h t.
Proof.
  intros H. induction t as [m e kids IH] using dom_tree_ind. cbn [tmap]. f_equal; [done|].
  induction IH as [|k kids Hk _ IHkids]; [done|]. cbn [map]. by rewrite Hk, IHkids.
Qed.

Lemma tmap_tmap g h t : tmap g (tmap h t) = tmap (λ m e, g m (h m e)) t.
Proof.
  induction t as [m e kids IH] using dom_tree_ind. cbn [tmap]. f_equal.
  rewrite map_map. induction IH as [|k kids Hk _ IHkids]; [done|].
  cbn [map]. by rewrite Hk, IHkids.
Qed.

Lemma update_tmap n f t : update n f t = tmap (λ m e, if decide (m = n) then f e else e) t.
Proof.
  induction t as [m e kids IH] using dom_tree_ind. cbn [update tmap]. f_equal.
  induction IH as [|k kids Hk _ IHkids]; [done|]. cbn [map]. by rewrite Hk, IHkids.
Qed.

Lemma fold_update_tmap f l t :
  (∀ e, f (f e) = f e) →
  fold_left (λ t n, update n f t) l t
  = tmap (λ m e, if decide (m ∈ l) then f e else e) t.
Proof.
  intros Hf. revert t. induction l as [|n l IH]; intros t.
  - cbn [fold_left]. rewrite <- (tmap_ext (λ _ e, e)).
    + induction t as [m e kids IHt] using dom_tree_ind. cbn [tmap]. f_equal.
      induction IHt as [|k kids Hk _ IHkids]; [done|]. cbn [map]. by rewrite <- Hk, <- IHkids.
    + intros m e. rewrite decide_False; [done|]. apply not_elem_of_nil.
  - cbn [fold_left]. rewrite IH, update_tmap, tmap_tmap. apply tmap_ext. intros m e.
    destruct (decide (m = n)) as [->|Hne].
    + rewrite (decide_True (P := n ∈ n :: l)) by (by left).
      by destruct (decide (n ∈ l)); rewrite ?Hf.
    + destruct (decide (m ∈ l)) as [Hin|Hin].
      * by rewrite decide_True by (by right).
      * rewrite decide_False; [done|]. by intros [?|?]%elem_of_cons.
Qed.

Lemma token_remove_after_add c l : token_remove c (token_add c l) = token_remove c l.
Proof.
  unfold token_add. case_bool_decide as Hc; [done|].
  unfold token_remove. rewrite filter_app, filter_cons, decide_False by (by intros ?).
  by rewrite filter_nil, app_nil_r.
Qed.

Lemma switch_classes_twice r a l :
  switch_classes r a (switch_classes r a l) = switch_classes r a l.
Proof.
  unfold switch_classes. destruct r, a; cbn [id];
    by rewrite ?token_remove_after_add, ?token_remove_twice, ?token_add_twice.
Qed.

Lemma with_classList_compose f g e :
  with_classList f (with_classList g e) = with_classList (λ l, f (g l)) e.
Proof. by destruct e. Qed.

Lemma with_classList_id e : with_classList id e = e.
Proof. by destruct e. Qed.

Lemma with_classList_ext f g e :
  f (classList e) = g (classList e) → with_classList f e = with_classList g e.
Proof. intros H. unfold with_classList. by rewrite H. Qed.

(** The document after a view switch, as one pass over the elements. *)
Lemma view_switch_tmap viewId s s' :
  view_switch viewId s s' →
  let doc := document (page_dom s) in
  document (page_dom s')
  = tmap (λ m e,
      with_classList
        (switch_classes
           (bool_decide (m ∈ select (SelClass "view-section") [] doc
                         ∨ m ∈ select (SelClass "nav-item") [] doc))
           (bool_decide (is_Some (find_id ("view-" +:+ viewId) doc) ∧
                         (find_id ("view-" +:+ viewId) doc = Some m
                          ∨ find_id ("link-" +:+ viewId) doc = Some m)))) e) doc.
Proof.
  intros (_ & _ & _ & _ & _ & Hsw). cbn zeta in *.
  set (doc := document (page_dom s)) in *.
  set (l1 := select (SelClass "view-section") [] doc).
  set (l2 := select (SelClass "nav-item") [] doc).
  assert (deactivated doc
          = tmap (λ m e, with_classList
                           (switch_classes (bool_decide (m ∈ l1 ∨ m ∈ l2)) false) e) doc) as Hd.
  { unfold deactivated. fold l1 l2.
    assert (∀ e, remove_class "active" (remove_class "active" e) = remove_class "active" e) as Hrr.
    { intros e. unfold remove_class. rewrite with_classList_compose.
      apply with_classList_ext. by rewrite token_remove_twice. }
    rewrite !fold_update_tmap, tmap_tmap by done. apply tmap_ext. intros m e.
    unfold switch_classes. cbn [id].
    destruct (decide (m ∈ l1)), (decide (m ∈ l2));
      [rewrite bool_decide_eq_true_2 by tauto ..|rewrite bool_decide_eq_false_2 by tauto];
      rewrite ?Hrr, ?with_classList_id; done. }
  assert (∀ n g, update n (add_class "active")
                   (tmap (λ m e, with_classList (switch_classes (g m) false) e) doc)
                 = tmap (λ m e, with_classList
                                  (switch_classes (g m) (bool_decide (m = n))) e) doc) as Hadd1.
  { intros n g. rewrite update_tmap, tmap_tmap. apply tmap_ext. intros m e.
    unfold switch_classes, add_class. cbn [id].
    destruct (decide (m = n)) as [->|Hne].
    - rewrite bool_decide_eq_true_2 by done. by rewrite with_classList_compose.
    - by rewrite bool_decide_eq_false_2 by done. }
  assert (∀ n n' g, update n (add_class "active")
                   (tmap (λ m e, with_classList
                                   (switch_classes (g m) (bool_decide (m = n'))) e) doc)
                 = tmap (λ m e, with_classList
                                  (switch_classes (g m) (bool_decide (m = n' ∨ m = n))) e) doc)
    as Hadd2.
  { intros n n' g. rewrite update_tmap, tmap_tmap. apply tmap_ext. intros m e.
    unfold switch_classes, add_class.
    destruct (decide (m = n)) as [Hn|Hn]; destruct (decide (m = n')) as [Hn'|Hn'].
    - rewrite !bool_decide_eq_true_2 by tauto. rewrite with_classList_compose.
      apply with_classList_ext. by rewrite token_add_twice.
    - rewrite (bool_decide_eq_false_2 (m = n')) by done.
      rewrite bool_decide_eq_true_2 by tauto. by rewrite with_classList_compose.
    - by rewrite !bool_decide_eq_true_2 by tauto.
    - by rewrite !bool_decide_eq_false_2 by tauto. }
  destruct (find_id ("view-" +:+ viewId) doc) as [tv|].
  - destruct Hsw as (hook & -> & _).
    destruct (find_id ("link-" +:+ viewId) doc) as [tl|].
    + rewrite Hd, Hadd1, Hadd2. apply tmap_ext. intros m e. do 2 f_equal.
      apply bool_decide_ext. split.
      * intros [->| ->]; eauto.
      * intros [_ [[= ->]|[= ->]]]; tauto.
    + rewrite Hd, Hadd1. apply tmap_ext. intros m e. do 2 f_equal.
      apply bool_decide_ext. split.
      * intros ->; eauto.
      * by intros [_ [[= ->]|?]].
  - destruct Hsw as (-> & _). rewrite Hd. apply tmap_ext. intros m e. do 2 f_equal.
    all: try (symmetry; apply bool_decide_eq_false_2; by intros [[? ?] _]).
Qed.

Lemma view_switch_select c viewId s s' :
  c ≠ "active" → view_switch viewId s s' →
  select (SelClass c) [] (document (page_dom s')) = select (SelClass c) [] (document (page_dom s)).
Proof.
  intros Hc Hsw. destruct (view_switch_entries _ _ _ Hsw) as (g & E & G).
  rewrite !select_simple, E by done.
  apply (filter_fmap_fst (λ p, matches (SelClass c) [] p.2 = true)); [apply G|].
  intros p. destruct (G p) as (_ & _ & C & _). cbn [matches]. unfold has_class.
  rewrite !bool_decide_eq_true. by apply C.
Qed.

(** X21.  Asking for the view that was just asked for changes nothing
    in the document: a second call [showView(viewId)] leaves the classes
    of all elements as the first call left them, whether or not the
    identifier names a view. *)
Theorem showView_twice_same_document (s : page) (viewId : string) :
  document (page_dom (run (showView_calls [viewId; viewId]) s))
  = document (page_dom (run (showView_calls [viewId]) s)).
Proof.
  cbn [showView_calls fmap list_fmap run fold_left step].
  destruct (showView_spec viewId s) as (s1 & -> & Hsw1). cbn [snd].
  destruct (showView_spec viewId s1) as (s2 & -> & Hsw2). cbn [snd].
  rewrite (view_switch_tmap _ _ _ Hsw2). cbn zeta.
  destruct (view_switch_shape _ _ _ Hsw1) as (_ & Hfind & _).
  rewrite !Hfind.
  rewrite (view_switch_select "view-section" _ _ _ ltac:(done) Hsw1).
  rewrite (view_switch_select "nav-item" _ _ _ ltac:(done) Hsw1).
  rewrite (view_switch_tmap _ _ _ Hsw1). cbn zeta.
  rewrite tmap_tmap. apply tmap_ext. intros m e.
  rewrite with_classList_compose. apply with_classList_ext.
  by rewrite switch_classes_twice.
Qed.

(** ** The buttons after the slider was set up *)

Lemma subtree_not_elem n t : n ∉ ids t → subtree n t = None.
Proof.
  intros Hn. destruct (subtree n t) as [u|] eqn:E; [|done].
  by apply subtree_elem in E.
Qed.

Lemma replace_subtree_elem p X t t' : replace_subtree p X t = Some t' → p ∈ ids t.
Proof.
  intros H. destruct (replace_subtree_flat _ _ _ _ H) as (u & _ & _ & Hu & _).
  by apply subtree_elem in Hu.
Qed.

(** Replacing the subtree at [p] leaves the subtree at [n] alone when
    neither lies inside the other. *)
Lemma subtree_after_replace p X n t t' up un :
  replace_subtree p X t = Some t' → subtree p t = Some up → subtree n t = Some un →
  n ∉ ids up → p ∉ ids un → n ∉ ids X →
  subtree n t' = Some un.
Proof.
  revert t'. induction t as [m e kids IH] using dom_tree_ind.
  intros t' Hr Hp Hn Hnup Hpun HnX.
  pose proof (subtree_elem _ _ _ Hn) as Hnt.
  pose proof (replace_subtree_elem _ _ _ _ Hr) as Hpt.
  cbn [replace_subtree subtree] in Hr, Hp, Hn.
  destruct (decide (m = p)) as [->|Hmp].
  { injection Hp as <-. done. }
  destruct (decide (m = n)) as [->|Hmn].
  { injection Hn as <-. done. }
  set (rep := (fix first (ks : list dom_tree) : option (list dom_tree) := _)) in Hr.
  set (fp := (fix first (ks : list dom_tree) : option dom_tree := _)) in Hp.
  set (fn := (fix first (ks : list dom_tree) : option dom_tree := _)) in Hn.
  destruct (rep kids) as [kids'|] eqn:Hrep; [|done]. injection Hr as <-.
  cbn [subtree]. rewrite decide_False by done.
  clear Hnt Hpt. revert kids' Hrep Hp Hn.
  induction IH as [|k ks Hk _ IHks]; intros kids' Hrep Hp Hn; [done|].
  cbn in Hrep, Hp, Hn. fold (rep ks) in Hrep. fold (fp ks) in Hp. fold (fn ks) in Hn.
  destruct (replace_subtree p X k) as [k'|] eqn:Hrk.
  - injection Hrep as <-.
    destruct (replace_subtree_flat _ _ _ _ Hrk) as (u & l1 & l2 & Hu & E & E').
    rewrite Hu in Hp. injection Hp as ->.
    destruct (subtree n k) as [v|] eqn:Hnk.
    + injection Hn as ->. by rewrite (Hk k' eq_refl Hu eq_refl Hnup Hpun HnX).
    + assert (subtree n k' = None) as ->.
      { apply subtree_not_elem. apply subtree_None in Hnk.
        unfold ids in *. rewrite E', !fmap_app, !not_elem_of_app.
        rewrite E, !fmap_app, !not_elem_of_app in Hnk. tauto. }
      exact Hn.
  - assert (subtree p k = None) as Hpk.
    { apply subtree_not_elem. by apply (replace_subtree_None _ X). }
    rewrite Hpk in Hp.
    destruct (rep ks) as [r|] eqn:Hr; [|done]. injection Hrep as <-.
    destruct (subtree n k) as [v|] eqn:Hnk; [done|].
    by apply IHks.
Qed.

Lemma filter_map_comm {A B} (P : A → Prop) (Q : B → Prop)
    `{!∀ x, Decision (P x)} `{!∀ x, Decision (Q x)} (f : B → A) (l : list B) :
  (∀ x, P (f x) ↔ Q x) → filter P (map f l) = map f (filter Q l).
Proof.
  intros HPQ. induction l as [|x l IH]; [done|].
  cbn [map]. rewrite !filter_cons. destruct (decide (Q x)) as [Hq|Hq].
  - rewrite decide_True by (by apply HPQ). cbn [map]. by rewrite IH.
  - rewrite decide_False by (by rewrite HPQ). exact IH.
Qed.

Lemma head_filter_elem {A} (P : A → Prop) `{!∀ x, Decision (P x)} (l : list A) x :
  head (filter P l) = Some x → x ∈ l.
Proof.
  intros Hh. apply head_Some_elem_of in Hh. by apply list_elem_of_filter in Hh as [_ ?].
Qed.

(** Element ids after a subtree was replaced by its clone. *)
Lemma find_id_after_clone i t t' u off l1 l2 m :
  NoDup (ids t) → flat t = l1 ++ flat u ++ l2 → flat t' = l1 ++ flat (clone_tree off u) ++ l2 →
  find_id i t = Some m →
  find_id i t' = Some (if decide (m ∈ ids u) then (off + m)%nat else m).
Proof.
  intros Hnd E E'. unfold find_id, ids in *. rewrite E in Hnd |- *. rewrite E'.
  rewrite !fmap_app in Hnd. apply NoDup_app in Hnd as (_ & Hd1 & Hnd).
  apply NoDup_app in Hnd as (_ & Hd2 & _).
  rewrite !filter_app, flat_clone.
  rewrite (filter_map_comm _ (λ p : node * element, el_id p.2 = i)) by done.
  match goal with
  | |- context [filter ?P l1 ++ map ?f (filter ?Q (flat u)) ++ filter ?R l2] =>
      pose proof (head_filter_elem P l1) as M1;
      pose proof (head_filter_elem Q (flat u)) as M2;
      pose proof (head_filter_elem R l2) as M3;
      destruct (filter P l1) as [|q1 f1];
        [destruct (filter Q (flat u)) as [|q2 f2]; [destruct (filter R l2) as [|q3 f3]|]|]
  end; cbn; try done; intros [= <-].
  - rewrite decide_False; [done|]. intros Hin. apply (Hd2 q3.1); [done|].
    apply list_elem_of_fmap. exists q3. split; [done|]. by apply M3.
  - rewrite decide_True; [done|].
    apply list_elem_of_fmap. exists q2. split; [done|]. by apply M2.
  - rewrite decide_False; [done|]. intros Hin. apply (Hd1 q1.1).
    + apply list_elem_of_fmap. exists q1. split; [done|]. by apply M1.
    + apply elem_of_app. by left.
Qed.

(** [updateSlider] changes classes and styles only. *)
Lemma updateSlider_keeps_ids env (D : string → option node) (I : list node) :
  preserves (λ s, (∀ i, find_id i (document (page_dom s)) = D i) ∧
                  ids (document (page_dom s)) = I)
    (updateSlider env).
Proof.
  unfold updateSlider, classList_add, classList_remove, set_style_opacity,
    set_style_pointerEvents, emit.
  repeat first
    [ preserves_step
    | apply preserves_write; intros s0 [H1 H2];
      cbn [modify_node set_trace on_dom on_win page_dom document];
      split; [intros i; rewrite ?find_id_update by done; apply H1
             | rewrite ?ids_update; exact H2] ].
Qed.

Lemma initProjectsSlider_buttons (s : page) (tr p n : node) :
  wf_doc s →
  find_id "projects-track" (document (page_dom s)) = Some tr →
  select (SelClass "project-slide-item") [] (document (page_dom s)) ≠ [] →
  find_id "projects-prev" (document (page_dom s)) = Some p →
  find_id "projects-next" (document (page_dom s)) = Some n →
  inside n p (document (page_dom s)) = false →
  inside p n (document (page_dom s)) = false →
  let off := next_node (page_dom s) in
  let s' := (initProjectsSlider s).2 in
  find_id "projects-prev" (document (page_dom s')) = Some (off + p)%nat ∧
  find_id "projects-next" (document (page_dom s')) = Some (off + off + n)%nat ∧
  (p ∉ ids (document (page_dom s'))) ∧
  (n ∉ ids (document (page_dom s'))).
Proof.
  intros [Hnd Hb] Htr Hsl Hp Hn Hin1 Hin2. cbn zeta. unfold initProjectsSlider.
  do 4 js_read. rewrite Htr, Hp, Hn.
  rewrite bool_decide_eq_false_2
    by (destruct (select _ _ _); [done | cbn; lia]).
  pose proof (find_id_ids _ _ _ Hp) as Hpin. pose proof (find_id_ids _ _ _ Hn) as Hnin.
  assert (n ≠ p) as Hnp.
  { apply (distinct_ids_distinct_nodes "projects-next" "projects-prev" _ _ _ Hnd); done. }
  set (doc := document (page_dom s)) in *. set (off := next_node (page_dom s)) in *.
  (* the two clones *)
  rewrite bind_run. cbn [deref mret Js_ret]. rewrite bind_run.
  destruct (lookup_tree_attached p (page_dom s) Hpin) as (up & Hlp & Hsp).
  rewrite (cloneNode_run p s up Hlp). cbv beta iota.
  set (s1 := set_trees _ _ _ s).
  rewrite bind_run. cbn [deref mret Js_ret]. rewrite bind_run.
  destruct (lookup_tree_attached n (page_dom s1) Hnin) as (un & Hln & Hsn).
  rewrite (cloneNode_run n s1 un Hln). cbv beta iota.
  set (s2 := set_trees _ _ _ s1).
  change (document (page_dom s1)) with doc in Hsn.
  change (next_node (page_dom s1)) with (off + off)%nat.
  fold off. fold doc in Hsp.
  assert (n ∉ ids up) as Hnup.
  { unfold inside in Hin1. rewrite Hsp in Hin1. by apply bool_decide_eq_false in Hin1. }
  assert (p ∉ ids un) as Hpun.
  { unfold inside in Hin2. rewrite Hsn in Hin2. by apply bool_decide_eq_false in Hin2. }
  destruct (subtree_flat _ _ _ Hsp) as [Hrp (a1 & a2 & Ea)].
  destruct (subtree_flat _ _ _ Hsn) as [Hrn (c1 & c2 & Ec)].
  assert (Forall (λ m, (m < off)%nat) (ids up) ∧ NoDup (ids up)) as [Hbup Hndup].
  { unfold ids in *. rewrite Ea, !fmap_app in Hb, Hnd.
    apply Forall_app in Hb as [_ Hb]. apply Forall_app in Hb as [Hb _].
    apply NoDup_app in Hnd as (_ & _ & Hnd). by apply NoDup_app in Hnd as (Hnd & _ & _). }
  assert (Forall (λ m, (m < off)%nat) (ids un) ∧ NoDup (ids un)) as [Hbun Hndun].
  { unfold ids in *. rewrite Ec, !fmap_app in Hb, Hnd.
    apply Forall_app in Hb as [_ Hb]. apply Forall_app in Hb as [Hb _].
    apply NoDup_app in Hnd as (_ & _ & Hnd). by apply NoDup_app in Hnd as (Hnd & _ & _). }
  assert (∀ k, (off ≤ k)%nat → ∀ u x, Forall (λ m, (m < off)%nat) (ids u) → x ∈ ids doc →
               x ∉ ids (clone_tree k u)) as Hfresh.
  { intros k Hk u x Hu Hx. rewrite ids_clone. intros Hin.
    apply list_elem_of_fmap in Hin as (y & -> & Hy).
    rewrite Forall_forall in Hb. specialize (Hb _ Hx). cbn in Hb. lia. }
  (* the first replacement *)
  rewrite bind_run.
  destruct (parentNode_attached p s2 Hpin) as [r ->]. cbv beta iota.
  rewrite bind_run. cbn [deref mret Js_ret]. rewrite bind_run.
  destruct (replaceChild_attached (clone_tree off up) p s2 Hpin)
    as (ot & doc3 & Hsub & Hrep & ->).
  change (document (page_dom s2)) with doc in Hsub, Hrep.
  assert (ot = up) as -> by congruence.
  cbv beta iota.
  set (s3 := set_trace _ (set_trees doc3 _ _ s2)).
  destruct (replace_subtree_flat _ _ _ _ Hrep) as (u & l1 & l2 & Hu & E & E').
  assert (u = up) as -> by congruence.
  destruct (wf_replace _ _ _ _ off (off + off)%nat Hnd Hb Hrep) as [Hnd3 Hb3].
  { rewrite ids_clone. apply NoDup_fmap_2; [|done]. intros x y. lia. }
  { rewrite ids_clone. apply Forall_fmap. eapply Forall_impl; [exact Hbup|]. cbn. lia. }
  { lia. }
  assert (n ∈ ids doc3) as Hnin3.
  { unfold ids in *. rewrite E', !fmap_app, !elem_of_app.
    rewrite E, !fmap_app, !elem_of_app in Hnin. tauto. }
  assert (find_id "projects-prev" doc3 = Some (off + p)%nat) as Hp3.
  { rewrite (find_id_after_clone _ doc doc3 up off l1 l2 p Hnd E E' Hp).
    rewrite decide_True; [done|].
    unfold ids. destruct (flat_root up) as [l ->]. rewrite Hrp. by left. }
  assert (find_id "projects-next" doc3 = Some n) as Hn3.
  { rewrite (find_id_after_clone _ doc doc3 up off l1 l2 n Hnd E E' Hn).
    by rewrite decide_False. }
  assert (p ∉ ids doc3) as Hp3out.
  { unfold ids in *. rewrite E', !fmap_app, !not_elem_of_app.
    rewrite E, !fmap_app in Hnd. apply NoDup_app in Hnd as (_ & Hd1 & Hnd').
    apply NoDup_app in Hnd' as (_ & Hd2 & _).
    assert (p ∈ (flat up).*1) as Hpu.
    { destruct (flat_root up) as [l ->]. rewrite Hrp. by left. }
    split; [|split].
    - intros Hin. apply (Hd1 p Hin). apply elem_of_app. by left.
    - apply (Hfresh off (Nat.le_refl _) up p Hbup Hpin).
    - by apply Hd2. }
  (* the second replacement *)
  rewrite bind_run.
  destruct (parentNode_attached n s3 Hnin3) as [r' ->]. cbv beta iota.
  rewrite bind_run. cbn [deref mret Js_ret]. rewrite bind_run.
  destruct (replaceChild_attached (clone_tree (off + off) un) n s3 Hnin3)
    as (ot' & doc4 & Hsub' & Hrep' & ->).
  change (document (page_dom s3)) with doc3 in Hsub', Hrep'.
  assert (ot' = un) as ->.
  { pose proof (subtree_after_replace p _ n doc doc3 up un Hrep Hsp Hsn Hnup Hpun
                  (Hfresh off (Nat.le_refl _) up n Hbup Hnin)) as Hsame.
    congruence. }
  cbv beta iota.
  destruct (replace_subtree_flat _ _ _ _ Hrep') as (u' & m1 & m2 & Hu' & F & F').
  assert (u' = un) as -> by congruence.
  assert (find_id "projects-prev" doc4 = Some (off + p)%nat) as Hp4.
  { rewrite (find_id_after_clone _ doc3 doc4 un (off + off) m1 m2 _ Hnd3 F F' Hp3).
    rewrite decide_False; [done|]. intros Hin.
    rewrite Forall_forall in Hbun. specialize (Hbun _ Hin). cbn in Hbun. lia. }
  assert (find_id "projects-next" doc4 = Some (off + off + n)%nat) as Hn4.
  { rewrite (find_id_after_clone _ doc3 doc4 un (off + off) m1 m2 _ Hnd3 F F' Hn3).
    rewrite decide_True; [done|].
    unfold ids. destruct (flat_root un) as [l ->]. rewrite Hrn. by left. }
  assert (∀ x, x ∈ ids doc → x ∉ ids doc3 ∨ x ∈ ids un → x ∉ ids doc4) as Hout.
  { intros x Hx Hcase. unfold ids in *. rewrite F', !fmap_app, !not_elem_of_app.
    rewrite F, !fmap_app in Hnd3. apply NoDup_app in Hnd3 as (_ & Hd1 & Hnd3').
    apply NoDup_app in Hnd3' as (_ & Hd2 & _).
    rewrite F, !fmap_app, !not_elem_of_app in Hcase.
    split; [|split].
    - destruct Hcase as [?|Hin]; [tauto|].
      intros Hin1'. apply (Hd1 x Hin1'). apply elem_of_app. by left.
    - apply (Hfresh (off + off)%nat ltac:(lia) un x Hbun Hx).
    - destruct Hcase as [?|Hin]; [tauto|]. by apply Hd2. }
  assert (p ∉ ids doc4) as Hp4out by (apply Hout; [done | by left]).
  assert (n ∉ ids doc4) as Hn4out.
  { apply Hout; [done|]. right. unfold ids. destruct (flat_root un) as [l ->].
    rewrite Hrn. by left. }
  (* the listeners and the display keep ids *)
  set (s4 := set_trace _ (set_trees doc4 _ _ s3)).
  match goal with
  | |- context [document (page_dom (?k s4).2)] =>
      assert (preserves (λ s0, (∀ i, find_id i (document (page_dom s0)) = find_id i doc4) ∧
                               ids (document (page_dom s0)) = ids doc4) k) as Hpres
  end.
  { unfold addEventListener.
    repeat first
      [ preserves_step
      | apply updateSlider_keeps_ids
      | apply preserves_write; intros s0 [H1 H2]; split; [intros i; apply H1 | exact H2] ]. }
  match goal with
  | |- context [document (page_dom (?k s4).2)] =>
      destruct (Hpres s4) as [H1 H2]; [by split|]
  end.
  by rewrite !H1, H2.
Qed.

Lemma initProjectsSlider_fresh_clones (s : page) (tr p n : node) :
  wf_doc s →
  Forall (λ l, ∀ m, l_target l = Node m → (m < next_node (page_dom s))%nat)
    (listeners (page_win s)) →
  find_id "projects-track" (document (page_dom s)) = Some tr →
  select (SelClass "project-slide-item") [] (document (page_dom s)) ≠ [] →
  find_id "projects-prev" (document (page_dom s)) = Some p →
  find_id "projects-next" (document (page_dom s)) = Some n →
  inside n p (document (page_dom s)) = false →
  inside p n (document (page_dom s)) = false →
  let off := next_node (page_dom s) in
  let env := SliderEnv (select (SelClass "project-slide-item") [] (document (page_dom s)))
               tr (off + p)%nat (off + off + n)%nat (length (drags (page_js s))) in
  let s' := (initProjectsSlider s).2 in
  find_id "projects-prev" (document (page_dom s')) = Some (off + p)%nat ∧
  find_id "projects-next" (document (page_dom s')) = Some (off + off + n)%nat ∧
  (p ∉ ids (document (page_dom s'))) ∧
  (n ∉ ids (document (page_dom s'))) ∧
  filter (λ l, l_target l = Node (off + p)) (listeners (page_win s'))
  = [Listener (Node (off + p)) "click" (slider_prev env)] ∧
  filter (λ l, l_target l = Node (off + off + n)) (listeners (page_win s'))
  = [Listener (Node (off + off + n)) "click" (slider_next env)].
Proof.
  intros Hwf Hls Htr Hsl Hp Hn Hin1 Hin2. cbn zeta.
  destruct (initProjectsSlider_buttons s tr p n Hwf Htr Hsl Hp Hn Hin1 Hin2)
    as (B1 & B2 & B3 & B4).
  destruct (initProjectsSlider_spec s tr p n (proj1 Hwf) Htr Hsl Hp Hn) as (_ & L & _).
  cbn zeta in L. rewrite L. do 4 (split; [done|]).
  destruct Hwf as [Hnd Hb]. rewrite Forall_forall in Hb.
  pose proof (Hb _ (find_id_ids _ _ _ Htr)) as Htr'.
  pose proof (Hb _ (find_id_ids _ _ _ Hp)) as Hp'.
  pose proof (Hb _ (find_id_ids _ _ _ Hn)) as Hn'. cbn beta in Htr', Hp', Hn'.
  assert (∀ k, (next_node (page_dom s) ≤ k)%nat →
               filter (λ l, l_target l = Node k) (listeners (page_win s)) = []) as Hold.
  { intros k Hk. apply filter_none. intros l Hl Ht.
    rewrite Forall_forall in Hls. specialize (Hls l Hl k Ht). lia. }
  rewrite !filter_app, !Hold by lia. unfold slider_listeners.
  cbn [newNextBtn newPrevBtn track app].
  split.
  - rewrite !filter_cons, filter_nil. cbn [l_target].
    repeat match goal with
           | |- context [decide (?a = ?b)] =>
               let Hd := fresh "Hd" in
               destruct (decide (a = b)) as [Hd|Hd];
                 [try (exfalso; first [discriminate Hd | injection Hd as ?; lia])
                 |try (exfalso; apply Hd; reflexivity)]
           end; done.
  - rewrite !filter_cons, filter_nil. cbn [l_target].
    repeat match goal with
           | |- context [decide (?a = ?b)] =>
               let Hd := fresh "Hd" in
               destruct (decide (a = b)) as [Hd|Hd];
                 [try (exfalso; first [discriminate Hd | injection Hd as ?; lia])
                 |try (exfalso; apply Hd; reflexivity)]
           end; done.
Qed.

(** X22.  On a well-formed page with the complete markup of the slider,
    where neither button lies inside the other and every listener is on
    a node that exists, [initProjectsSlider] puts fresh copies of the
    two buttons in the place of the buttons: afterwards the ids
    [projects-prev] and [projects-next] denote the copies, the old
    buttons are no longer in the document, and each copy carries exactly
    one listener, the click listener of this run.  Unlike the touch
    listeners of the track, click listeners do not pile up. *)
Theorem slider_buttons_are_fresh_clones (s : page) (tr p n : node) :
  wf_doc s →
  Forall (λ l, ∀ m, l_target l = Node m → (m < next_node (page_dom s))%nat)
    (listeners (page_win s)) →
  find_id "projects-track" (document (page_dom s)) = Some tr →
  select (SelClass "project-slide-item") [] (document (page_dom s)) ≠ [] →
  find_id "projects-prev" (document (page_dom s)) = Some p →
  find_id "projects-next" (document (page_dom s)) = Some n →
  inside n p (document (page_dom s)) = false →
  inside p n (document (page_dom s)) = false →
  let off := next_node (page_dom s) in
  let env := SliderEnv (select (SelClass "project-slide-item") [] (document (page_dom s)))
               tr (off + p)%nat (off + off + n)%nat (length (drags (page_js s))) in
  let s' := (initProjectsSlider s).2 in
  find_id "projects-prev" (document (page_dom s')) = Some (off + p)%nat ∧
  find_id "projects-next" (document (page_dom s')) = Some (off + off + n)%nat ∧
  (p ∉ ids (document (page_dom s'))) ∧
  (n ∉ ids (document (page_dom s'))) ∧
  filter (λ l, l_target l = Node (off + p)) (listeners (page_win s'))
  = [Listener (Node (off + p)) "click" (slider_prev env)] ∧
  filter (λ l, l_target l = Node (off + off + n)) (listeners (page_win s'))
  = [Listener (Node (off + off + n)) "click" (slider_next env)].
Proof. apply initProjectsSlider_fresh_clones. Qed.

Lemma slider_buttons_are_fresh_clones_witness :
  let s := loaded_page in
  let off := next_node (page_dom s) in
  let env := SliderEnv (select (SelClass "project-slide-item") [] (document (page_dom s)))
               14%nat (off + 18)%nat (off + off + 19)%nat (length (drags (page_js s))) in
  let s' := (initProjectsSlider s).2 in
  find_id "projects-prev" (document (page_dom s')) = Some (off + 18)%nat ∧
  find_id "projects-next" (document (page_dom s')) = Some (off + off + 19)%nat ∧
  (18%nat ∉ ids (document (page_dom s'))) ∧
  (19%nat ∉ ids (document (page_dom s'))) ∧
  filter (λ l, l_target l = Node (off + 18)) (listeners (page_win s'))
  = [Listener (Node (off + 18)) "click" (slider_prev env)] ∧
  filter (λ l, l_target l = Node (off + off + 19)) (listeners (page_win s'))
  = [Listener (Node (off + off + 19)) "click" (slider_next env)].
Proof.
  assert (wf_doc loaded_page) as H1.
  { split; apply (bool_decide_unpack _); by vm_compute. }
  assert (Forall (λ l, ∀ m, l_target l = Node m → (m < next_node (page_dom loaded_page))%nat)
            (listeners (page_win loaded_page))) as H2.
  { apply Forall_forall. intros l Hl m Hm.
    assert (Forall (λ l, match l_target l with
                         | Node k => (k < next_node (page_dom loaded_page))%nat
                         | Window => True
                         end) (listeners (page_win loaded_page))) as Hall.
    { vm_compute. repeat constructor. }
    rewrite Forall_forall in Hall. specialize (Hall l Hl). by rewrite Hm in Hall. }
  assert (find_id "projects-track" (document (page_dom loaded_page)) = Some 14%nat) as H3.
  { by vm_compute. }
  assert (select (SelClass "project-slide-item") [] (document (page_dom loaded_page)) ≠ [])
    as H4 by (by vm_compute).
  assert (find_id "projects-prev" (document (page_dom loaded_page)) = Some 18%nat) as H5.
  { by vm_compute. }
  assert (find_id "projects-next" (document (page_dom loaded_page)) = Some 19%nat) as H6.
  { by vm_compute. }
  assert (inside 19%nat 18%nat (document (page_dom loaded_page)) = false) as H7.
  { by vm_compute. }
  assert (inside 18%nat 19%nat (document (page_dom loaded_page)) = false) as H8.
  { by vm_compute. }
  exact (slider_buttons_are_fresh_clones loaded_page 14%nat 18%nat 19%nat
           H1 H2 H3 H4 H5 H6 H7 H8).
Defined.

(** ** From a click to the slide, from a menu entry to the view *)

(** X23.  After [initProjectsSlider] has set the slider up on a
    well-formed page, a click on the next button that is now in the
    document runs the click listener of this run once: the index moves
    one slide forward, or stays where it is at the last slide. *)
Theorem click_on_new_next_button_moves_one_slide (s : page) (tr p n : node) (x : Z) :
  wf_doc s →
  Forall (λ l, ∀ m, l_target l = Node m → (m < next_node (page_dom s))%nat)
    (listeners (page_win s)) →
  find_id "projects-track" (document (page_dom s)) = Some tr →
  select (SelClass "project-slide-item") [] (document (page_dom s)) ≠ [] →
  find_id "projects-prev" (document (page_dom s)) = Some p →
  find_id "projects-next" (document (page_dom s)) = Some n →
  inside n p (document (page_dom s)) = false →
  inside p n (document (page_dom s)) = false →
  let i := currentProjectIndex (page_js s) in
  let last :=
    Z.of_nat (length (select (SelClass "project-slide-item") [] (document (page_dom s)))) - 1 in
  let s' := step (Fire cb_initProjectsSlider) s in
  ∃ next, find_id "projects-next" (document (page_dom s')) = Some next ∧
          currentProjectIndex (page_js (step (Deliver (Node next) "click" x) s'))
          = (if bool_decide (i < last) then i + 1 else i).
Proof.
  intros Hwf Hls Htr Hsl Hp Hn Hin1 Hin2. cbn zeta. cbn [step run_callback].
  destruct (initProjectsSlider_fresh_clones s tr p n Hwf Hls Htr Hsl Hp Hn Hin1 Hin2)
    as (_ & B2 & _ & _ & _ & L).
  destruct (initProjectsSlider_spec s tr p n (proj1 Hwf) Htr Hsl Hp Hn) as (_ & _ & _ & Hi).
  cbn zeta in *. eexists. split; [exact B2|].
  unfold dispatch.
  change (listeners (page_win (set_defaultPrevented false ?s0))) with (listeners (page_win s0)).
  rewrite <- (list_filter_filter_l _ (λ l, l_target l = Node _)) by (by intros l [? _]).
  rewrite L. rewrite filter_cons, filter_nil. cbn [l_target l_type].
  rewrite decide_True by done. cbn [fold_left l_closure run_closure].
  unfold slider_next_click, when. rewrite bind_run. cbn [read slides].
  change (currentProjectIndex (page_js (set_defaultPrevented false ?s0)))
    with (currentProjectIndex (page_js s0)).
  rewrite Hi. case_bool_decide; [|done].
  rewrite bind_run. cbn [write]. rewrite updateSlider_keeps_index. done.
Qed.

Lemma click_on_new_next_button_moves_one_slide_witness :
  let s := loaded_page in
  let i := currentProjectIndex (page_js s) in
  let last :=
    Z.of_nat (length (select (SelClass "project-slide-item") [] (document (page_dom s)))) - 1 in
  let s' := step (Fire cb_initProjectsSlider) s in
  ∃ next, find_id "projects-next" (document (page_dom s')) = Some next ∧
          currentProjectIndex (page_js (step (Deliver (Node next) "click" 0) s'))
          = (if bool_decide (i < last) then i + 1 else i).
Proof.
  assert (wf_doc loaded_page) as H1.
  { split; apply (bool_decide_unpack _); by vm_compute. }
  assert (Forall (λ l, ∀ m, l_target l = Node m → (m < next_node (page_dom loaded_page))%nat)
            (listeners (page_win loaded_page))) as H2.
  { apply Forall_forall. intros l Hl m Hm.
    assert (Forall (λ l, match l_target l with
                         | Node k => (k < next_node (page_dom loaded_page))%nat
                         | Window => True
                         end) (listeners (page_win loaded_page))) as Hall.
    { vm_compute. repeat constructor. }
    rewrite Forall_forall in Hall. specialize (Hall l Hl). by rewrite Hm in Hall. }
  assert (find_id "projects-track" (document (page_dom loaded_page)) = Some 14%nat) as H3.
  { by vm_compute. }
  assert (select (SelClass "project-slide-item") [] (document (page_dom loaded_page)) ≠ [])
    as H4 by (by vm_compute).
  assert (find_id "projects-prev" (document (page_dom loaded_page)) = Some 18%nat) as H5.
  { by vm_compute. }
  assert (find_id "projects-next" (document (page_dom loaded_page)) = Some 19%nat) as H6.
  { by vm_compute. }
  assert (inside 19%nat 18%nat (document (page_dom loaded_page)) = false) as H7.
  { by vm_compute. }
  assert (inside 18%nat 19%nat (document (page_dom loaded_page)) = false) as H8.
  { by vm_compute. }
  exact (click_on_new_next_button_moves_one_slide loaded_page 14%nat 18%nat 19%nat 0
           H1 H2 H3 H4 H5 H6 H7 H8).
Defined.

Lemma views_marked_update n c doc :
  c ≠ "view-section" → views_marked doc → views_marked (update n (remove_class c) doc).
Proof.
  intros Hc Hmark m e Hin Hv. rewrite flat_update in Hin.
  apply list_elem_of_fmap in Hin as ([m' e'] & Hp & Hin).
  unfold update_entry in Hp. cbn [fst snd] in Hp.
  destruct (decide (m' = n)) as [->|Hne]; injection Hp as -> ->.
  - unfold remove_class. cbn. apply elem_of_token_remove. split; [|done].
    by apply (Hmark n e').
  - by apply (Hmark m' e').
Qed.

(** X24.  Choosing an entry of the open mobile menu closes the menu and
    schedules the change of view; when that timer fires on a well-formed
    page, the view of the entry is the one view that is active. *)
Theorem menu_entry_closes_menu_and_shows_view (s : page) (m o tv : node) (v : string) :
  isMenuOpen (page_js s) = true →
  menuTrigger (page_js s) = Some m → navOverlay (page_js s) = Some o →
  v ≠ EmptyString →
  NoDup (ids (document (page_dom s))) →
  views_marked (document (page_dom s)) →
  find_id ("view-" +:+ v) (document (page_dom s)) = Some tv →
  let closed := step (Inline_toggleMobileMenu (Some v)) s in
  isMenuOpen (page_js closed) = false ∧
  timers (page_win closed) = timers (page_win s) ++ [TimeoutTimer (cb_showView v) 500] ∧
  only_active_view tv v (document (page_dom (step (Fire (cb_showView v)) closed))).
Proof.
  intros Hopen Hm Ho Hv Hnd Hmark Htv. cbn zeta. cbn [step run_callback].
  rewrite (toggle_close_run (Some v) s m o Hopen Hm Ho). cbn [snd].
  rewrite bool_decide_eq_false_2 by done.
  split; [done|]. split; [done|].
  set (s1 := set_isMenuOpen false _).
  destruct (showView_spec v s1) as (s2 & -> & Hsw). cbn [snd].
  apply (view_switch_active v s1); [ | | |done];
    subst s1; cbn [set_isMenuOpen on_js set_timers set_trace on_win modify_node on_dom
                   page_dom document].
  - by rewrite !ids_update.
  - apply views_marked_update; [done|]. by apply views_marked_update.
  - by rewrite !find_id_update.
Qed.

Lemma menu_entry_closes_menu_and_shows_view_witness :
  let s := step (Inline_toggleMobileMenu None) loaded_page in
  let closed := step (Inline_toggleMobileMenu (Some "about")) s in
  isMenuOpen (page_js closed) = false ∧
  timers (page_win closed) = timers (page_win s) ++ [TimeoutTimer (cb_showView "about") 500] ∧
  only_active_view 8%nat "about"
    (document (page_dom (step (Fire (cb_showView "about")) closed))).
Proof.
  set (s := step (Inline_toggleMobileMenu None) loaded_page).
  assert (isMenuOpen (page_js s) = true) as H1 by (by vm_compute).
  assert (menuTrigger (page_js s) = Some 6%nat) as H2 by (by vm_compute).
  assert (navOverlay (page_js s) = Some 24%nat) as H3 by (by vm_compute).
  assert ("about" ≠ EmptyString) as H4 by done.
  assert (NoDup (ids (document (page_dom s)))) as H5.
  { apply (bool_decide_unpack _). by vm_compute. }
  assert (views_marked (document (page_dom s))) as H6.
  { apply views_marked_check. by vm_compute. }
  assert (find_id ("view-" +:+ "about") (document (page_dom s)) = Some 8%nat) as H7.
  { by vm_compute. }
  exact (menu_entry_closes_menu_and_shows_view s 6%nat 24%nat 8%nat "about"
           H1 H2 H3 H4 H5 H6 H7).
Defined.

(** * The page as a whole *)

(** ** The page that the script leaves *)

(** What [initPreloader] does to the page. *)
Lemma initPreloader_page s b :
  (document_body s).1 = Normal (Some b) →
  ∃ s1, initPreloader s = (Normal tt, s1) ∧
    document (page_dom s1)
    = (if has_preloader (document (page_dom s))
       then update b (add_class "loading") (document (page_dom s))
       else document (page_dom s)) ∧
    session_url (page_win s1) = session_url (page_win s) ∧
    reactions (page_win s1) = reactions (page_win s).
Proof.
  intros Hb. destruct (has_preloader (document (page_dom s))) eqn:Hpre.
  - rewrite (initPreloader_active s b Hpre Hb). eexists. split; [reflexivity|].
    by case_bool_decide.
  - rewrite (initPreloader_inactive s Hpre). by exists s.
Qed.

(** The script leaves the document as it found it, but for the class
    [loading] that the preloader puts on the body; it does not touch the
    address of the page and adds no pending promise. *)
Lemma script_page (s : page) (b : node) :
  (document_body s).1 = Normal (Some b) →
  document (page_dom (script s).2)
  = (if has_preloader (document (page_dom s))
     then update b (add_class "loading") (document (page_dom s))
     else document (page_dom s)) ∧
  session_url (page_win (script s).2) = session_url (page_win s) ∧
  reactions (page_win (script s).2) = reactions (page_win s).
Proof.
  intros Hb.
  destruct (script s) as [c s'] eqn:E. cbn [fst snd]. revert E.
  unfold script. rewrite bind_run, emit_run. cbv beta iota.
  rewrite bind_run.
  destruct (initPreloader_page
              (set_trace (trace (page_win s) ++ [GsapRegisterPlugin]) s) b Hb)
    as (s1 & -> & Hdoc & Hurl & Hre).
  cbn [set_trace on_win page_dom page_win document session_url reactions] in Hdoc, Hurl, Hre.
  cbv beta iota. rewrite <- Hdoc, <- Hurl, <- Hre. clear Hdoc Hurl Hre Hb.
  destruct s1 as [[doc1 det1 nx1] [rs1 sb1 su1 sf1 sy1 ls1 tm1 re1 dp1 tr1]
                    [sv1 ly1 mo1 ci1 il1 dr1 mt1 no1]].
  script_step.
  destruct (find_id "hero-aesthetic" doc1) as [hs|]; script_step;
    destruct (head (select (SelClass "nav-preview-container") [] doc1)) as [pc|];
    destruct (find_id "nav-preview-img" doc1) as [pi|]; script_step;
    destruct (find_id "mobile-menu-trigger" doc1) as [mt|]; script_step;
    try destruct (find_id "contact-form" doc1) as [f|]; script_step;
    intros [= <- <-]; done.
Qed.

Lemma hover_listeners_types ty x l :
  x ∈ flat_map hover_listeners l →
  l_type x = ty → ty = "mouseenter" ∨ ty = "mouseleave" ∨ ty = "mousemove".
Proof.
  intros Hx <-. apply list_elem_of_In, in_flat_map in Hx as (el0 & _ & Hx).
  cbn in Hx. destruct Hx as [<-|[<-|[<-|[]]]]; cbn; auto.
Qed.

Lemma preview_listeners_types pc pi ty x l :
  x ∈ flat_map (preview_listeners pc pi) l →
  l_type x = ty → ty = "mouseenter" ∨ ty = "mouseleave".
Proof.
  intros Hx <-. apply list_elem_of_In, in_flat_map in Hx as (el0 & _ & Hx).
  cbn in Hx. destruct Hx as [<-|[<-|[]]]; cbn; auto.
Qed.

Ltac no_listener :=
  apply filter_none; intros x Hx [Ht Hy];
  first
    [ apply (hover_listeners_types _ _ _ Hx) in Hy; by destruct Hy as [?|[?|?]]
    | apply (preview_listeners_types _ _ _ _ _ Hx) in Hy; by destruct Hy as [?|?]
    | repeat (apply elem_of_cons in Hx as [->|Hx]; [by cbn in *|]);
      by apply elem_of_nil in Hx ].

(** The script registers one listener for DOMContentLoaded. *)
Lemma script_listeners_DOMContentLoaded rs doc :
  filter (λ l, l_target l = Window ∧ l_type l = "DOMContentLoaded") (script_listeners rs doc)
  = [Listener Window "DOMContentLoaded" on_DOMContentLoaded].
Proof.
  unfold script_listeners. rewrite !filter_app.
  match goal with
  | |- ?a ++ ?b ++ ?c ++ ?d ++ ?e ++ ?f ++ ?g = _ =>
      assert (a = []) as ->; [|assert (c = []) as ->; [|assert (d = []) as ->;
        [|assert (e = []) as ->; [|assert (f = []) as ->; [|assert (g = []) as ->]]]]]
  end.
  - destruct (_ && _); no_listener.
  - destruct (find_id "hero-aesthetic" doc); no_listener.
  - no_listener.
  - no_listener.
  - destruct (head _); [destruct (find_id "nav-preview-img" doc)|]; no_listener.
  - destruct (find_id "mobile-menu-trigger" doc); [destruct (find_id "contact-form" doc)|];
      no_listener.
  - reflexivity.
Qed.


(** ** Startup of the page (C5) *)

Lemma views_marked_add_class n c doc :
  views_marked doc → views_marked (update n (add_class c) doc).
Proof.
  intros Hmark m e Hin Hv. rewrite flat_update in Hin.
  apply list_elem_of_fmap in Hin as ([m' e'] & Hp & Hin).
  unfold update_entry in Hp. cbn [fst snd] in Hp.
  destruct (decide (m' = n)) as [->|Hne]; injection Hp as -> ->.
  - unfold add_class. cbn. apply elem_of_token_add. left. by apply (Hmark n e').
  - by apply (Hmark m' e').
Qed.

(** A view switch marks its target active. *)
Lemma showView_activates viewId s tv :
  find_id ("view-" +:+ viewId) (document (page_dom s)) = Some tv →
  node_active tv (showView viewId s).2.
Proof.
  intros Htv. destruct (showView_spec viewId s) as (s' & -> & Hsw). cbn [snd].
  destruct (view_switch_entries _ _ _ Hsw) as (g & E & G).
  destruct (find_id_Some _ _ _ Htv) as (e & Hin & _).
  destruct (G (tv, e)) as (F & _ & _ & A). cbn [fst snd] in F, A.
  exists (g (tv, e)).2. split.
  - rewrite E. apply list_elem_of_fmap. exists (tv, e). split; [|done].
    clear -F. revert F. destruct (g (tv, e)) as [a c]. cbn. by intros ->.
  - apply A. by left.
Qed.

(** Once the script has run on a fresh page, the delivery of
    DOMContentLoaded runs the startup listener and nothing else. *)
Lemma startup_run doc nx hash back b x :
  (document_body (fresh_page doc nx hash back)).1 = Normal (Some b) →
  dispatch Window "DOMContentLoaded" x (script (fresh_page doc nx hash back)).2
  = (DOMContentLoaded_listener
       (set_defaultPrevented false (script (fresh_page doc nx hash back)).2)).2.
Proof.
  intros Hb. unfold dispatch.
  destruct (script_spec _ b Hb) as (_ & -> & _).
  change (listeners (page_win (fresh_page doc nx hash back))) with (@nil listener).
  cbn [app]. by rewrite script_listeners_DOMContentLoaded.
Qed.

(** C5.  On a page with a body, the script runs and the browser then
    delivers DOMContentLoaded.  When the fragment [f] of the address is
    not empty and names a View, that View is marked active afterwards;
    when the fragment is empty or names no View, the View [home] is.  If
    moreover the node identities are distinct and every View carries the
    class [view-section], no other View is active. *)
Theorem startup_activates_fragment_or_home
    (doc : dom_tree) (nx : nat) (hash : string) (back : list string)
    (b : node) (f : string) (x : Z) :
  (document_body (fresh_page doc nx hash back)).1 = Normal (Some b) →
  hash = "#" +:+ f ∨ (hash = EmptyString ∧ f = EmptyString) →
  let started :=
    dispatch Window "DOMContentLoaded" x (script (fresh_page doc nx hash back)).2 in
  (∀ tv, f ≠ EmptyString → find_id ("view-" +:+ f) doc = Some tv →
         node_active tv started ∧
         (NoDup (ids doc) → views_marked doc →
          only_active_view tv f (document (page_dom started)))) ∧
  (∀ hv, f = EmptyString ∨ find_id ("view-" +:+ f) doc = None →
         find_id ("view-" +:+ "home") doc = Some hv →
         node_active hv started ∧
         (NoDup (ids doc) → views_marked doc →
          only_active_view hv "home" (document (page_dom started)))).
Proof.
  intros Hb Hurl started. subst started. rewrite (startup_run _ _ _ _ b x Hb).
  destruct (script_page _ b Hb) as (Hdoc & Hsu & _).
  change (document (page_dom (fresh_page doc nx hash back))) with doc in Hdoc.
  change (session_url (page_win (fresh_page doc nx hash back))) with hash in Hsu.
  set (s0 := set_defaultPrevented false (script (fresh_page doc nx hash back)).2).
  set (doc0 := document (page_dom (script (fresh_page doc nx hash back)).2)) in *.
  assert (∀ i, find_id i doc0 = find_id i doc) as Hfind.
  { intros i. rewrite Hdoc. destruct (has_preloader doc); [|done]. by apply find_id_update. }
  assert (ids doc0 = ids doc) as Hids.
  { rewrite Hdoc. destruct (has_preloader doc); [|done]. apply ids_update. }
  assert (views_marked doc → views_marked doc0) as Hmarked.
  { rewrite Hdoc. destruct (has_preloader doc); [|done]. apply views_marked_add_class. }
  rewrite (DOMContentLoaded_listener_run s0 f) by (by rewrite <- Hsu in Hurl).
  change (document (page_dom s0)) with doc0. rewrite Hfind.
  set (s1 := set_trace _ s0).
  assert (∀ viewId tv, find_id ("view-" +:+ viewId) doc = Some tv →
            node_active tv (showView viewId s1).2 ∧
            (NoDup (ids doc) → views_marked doc →
             only_active_view tv viewId (document (page_dom (showView viewId s1).2)))) as Hshow.
  { intros viewId tv Htv. rewrite <- Hfind in Htv. split.
    - by apply showView_activates.
    - intros Hnd Hmark. apply (known_view_becomes_only_active s1); [|by apply Hmarked|done].
      change (document (page_dom s1)) with doc0. by rewrite Hids. }
  destruct (bool_decide (f = EmptyString)) eqn:Hf; cbn [negb andb].
  - apply bool_decide_eq_true in Hf as ->. split; [done|]. intros hv _ Hhome. by apply Hshow.
  - apply bool_decide_eq_false in Hf.
    destruct (find_id ("view-" +:+ f) doc) as [tv|] eqn:Htv.
    + rewrite bool_decide_eq_true_2 by done. split.
      * intros tv' _ [= <-]. by apply Hshow.
      * by intros hv [?|?].
    + rewrite bool_decide_eq_false_2 by (by intros [? ?]). split; [done|].
      intros hv _ Hhome. by apply Hshow.
Qed.

Lemma startup_activates_fragment_or_home_witness :
  ((document_body (fresh_page (sample_document true) 25 "#about" ["https://example.org/"])).1
   = Normal (Some 1%nat) ∧
   ("#about" = "#" +:+ "about" ∨ ("#about" = EmptyString ∧ "about" = EmptyString))) ∧
  let started :=
    dispatch Window "DOMContentLoaded" 0
      (script (fresh_page (sample_document true) 25 "#about" ["https://example.org/"])).2 in
  (∀ tv, "about" ≠ EmptyString → find_id ("view-" +:+ "about") (sample_document true) = Some tv →
         node_active tv started ∧
         (NoDup (ids (sample_document true)) → views_marked (sample_document true) →
          only_active_view tv "about" (document (page_dom started)))) ∧
  (∀ hv, "about" = EmptyString ∨ find_id ("view-" +:+ "about") (sample_document true) = None →
         find_id ("view-" +:+ "home") (sample_document true) = Some hv →
         node_active hv started ∧
         (NoDup (ids (sample_document true)) → views_marked (sample_document true) →
          only_active_view hv "home" (document (page_dom started)))) ∧
  node_active 8%nat started ∧
  only_active_view 8%nat "about" (document (page_dom started)).
Proof.
  assert ((document_body (fresh_page (sample_document true) 25 "#about"
                            ["https://example.org/"])).1 = Normal (Some 1%nat)) as H1.
  { by vm_compute. }
  assert ("#about" = "#" +:+ "about" ∨ ("#about" = EmptyString ∧ "about" = EmptyString)) as H2.
  { left. by vm_compute. }
  assert (find_id ("view-" +:+ "about") (sample_document true) = Some 8%nat) as H3.
  { by vm_compute. }
  assert ("about" ≠ EmptyString) as H4 by discriminate.
  split; [done|].
  pose proof (startup_activates_fragment_or_home (sample_document true) 25 "#about"
                ["https://example.org/"] 1%nat "about" 0 H1 H2) as H.
  cbv zeta in H |- *. split; [exact (proj1 H)|]. split; [exact (proj2 H)|].
  destruct (proj1 H 8%nat H4 H3) as [Ha Ho].
  split; [exact Ha|]. apply Ho; [exact sample_NoDup | exact sample_views_marked].
Defined.

(** ** The contact form on the page (C8) *)

(** Nothing that happens on the page adds a submit listener. *)
Section submit_listener.
Context (f : node).








End submit_listener.





